(** * twitch-kit: a shallow embedding of the bot and its helpers

    The Go sources are embedded package by package:
    - [gostrings]: the parts of Go's [strings], [fmt] and [time] packages
      that the program calls ([TrimSpace], [Split], [%d], the date layout);
    - [utils]: [SplitMessage] (internal/utils/text.go);
    - [fetcher]: the four HTTP fetch operations (internal/fetcher);
    - [formatter]: the four formatters (internal/formatter/formatter.go);
    - [config]: [Load] and [validate] (pkg/config/config.go);
    - [bot]: the conversation controller (internal/bot).

    A Go [string] is a sequence of bytes; it is modelled as [list ascii].
    Go's [int] and [int64] values (lengths, limits, indices, status codes,
    chat ids) are modelled as [Z]; where the program adds two of them the
    wrap-around of the 64-bit machine integer is written out ([addInt]). *)

From Stdlib Require Import ZArith Ascii String DecimalString Bool Lia.
From stdpp Require Import gmap strings list.

Local Open Scope Z_scope.

Abbreviation gostring := (list ascii).

(** A string literal of the source. *)
Definition str (s : string) : gostring := list_ascii_of_string s.

(** Go's builtin [len] on strings: the number of bytes. *)
Definition len (s : gostring) : Z := Z.of_nat (length s).

(** Go's [int] on the usual 64-bit platforms: the largest value, and the
    wrap-around of a sum into the range [-2^63 .. 2^63 - 1]. *)
Definition maxInt : Z := 2 ^ 63 - 1.

Definition wrapInt (z : Z) : Z := (z + 2 ^ 63) mod 2 ^ 64 - 2 ^ 63.

Definition addInt (a b : Z) : Z := wrapInt (a + b).

(** [s == ""] and [s != ""]. *)
Definition isEmpty (s : gostring) : bool :=
  match s with [] => true | _ :: _ => false end.

(** The double quote character, which the HTML links of the formatter need. *)
Definition dquote : gostring := ["034"%char].

(** Go functions that return [(T, error)]: either a value or an error whose
    message ([err.Error()]) is carried. *)
Inductive Result (A : Type) : Type :=
  | Ok (a : A)
  | Err (msg : gostring).
Arguments Ok {A} a.
Arguments Err {A} msg.

(* ================================================================== *)
(** ** Go standard library functions used by the program *)

Module gostrings.

Definition code (a : ascii) : N := N_of_ascii a.

Definition newline : ascii := "010"%char.

Definition isNewline (a : ascii) : bool := (code a =? 10)%N.

(** The ASCII bytes for which [unicode.IsSpace] holds:
    tab, line feed, vertical tab, form feed, carriage return, space. *)
Definition asciiSpace (a : ascii) : bool :=
  ((9 <=? code a)%N && (code a <=? 13)%N) || (code a =? 32)%N.

(** The two-byte UTF-8 encodings of white space: U+0085 and U+00A0. *)
Definition space2 (a b : ascii) : bool :=
  (code a =? 194)%N && ((code b =? 133)%N || (code b =? 160)%N).

(** The three-byte UTF-8 encodings of white space: U+1680,
    U+2000..U+200A, U+2028, U+2029, U+202F, U+205F and U+3000. *)
Definition space3 (a b c : ascii) : bool :=
  ((code a =? 225)%N && (code b =? 154)%N && (code c =? 128)%N)
  || ((code a =? 226)%N && (code b =? 128)%N
      && (((128 <=? code c)%N && (code c <=? 138)%N)
          || (code c =? 168)%N || (code c =? 169)%N || (code c =? 175)%N))
  || ((code a =? 226)%N && (code b =? 129)%N && (code c =? 159)%N)
  || ((code a =? 227)%N && (code b =? 128)%N && (code c =? 128)%N).

(** [strip p1 p2 p3 s] removes from the front of [s] every run of one,
    two or three bytes recognised by [p1], [p2], [p3], and stops at the
    first position where none applies. *)
Fixpoint strip (p1 : ascii -> bool) (p2 : ascii -> ascii -> bool)
    (p3 : ascii -> ascii -> ascii -> bool) (s : gostring) : gostring :=
  match s with
  | [] => []
  | a :: t =>
      if p1 a then strip p1 p2 p3 t
      else match t with
           | [] => s
           | b :: t2 =>
               if p2 a b then strip p1 p2 p3 t2
               else match t2 with
                    | [] => s
                    | c :: t3 => if p3 a b c then strip p1 p2 p3 t3 else s
                    end
           end
  end.

(** [strings.TrimLeftFunc(s, unicode.IsSpace)]: runes are decoded from
    the front; a rune is white space exactly when the bytes at the front
    are one of the encodings above (an invalid byte decodes to U+FFFD,
    which is not white space). *)
Definition TrimLeft (s : gostring) : gostring :=
  strip asciiSpace space2 space3 s.

(** [strings.TrimRightFunc(s, unicode.IsSpace)]: the same from the back,
    where the bytes of an encoding are met last byte first. *)
Definition TrimRight (s : gostring) : gostring :=
  rev (strip asciiSpace (fun b a => space2 a b)
                        (fun c b a => space3 a b c) (rev s)).

(** [strings.TrimSpace]. *)
Definition TrimSpace (s : gostring) : gostring := TrimRight (TrimLeft s).

(** [strings.Split(s, "\n")]: the pieces between line feeds; one more
    piece than there are line feeds, so [Split "" = [""]]. *)
Fixpoint Split (s : gostring) : list gostring :=
  match s with
  | [] => [[]]
  | a :: t =>
      if isNewline a then [] :: Split t
      else match Split t with
           | l :: ls => (a :: l) :: ls
           | [] => [[a]]
           end
  end.

(** [strings.Join(ls, "\n")]. *)
Fixpoint Join (ls : list gostring) : gostring :=
  match ls with
  | [] => []
  | [l] => l
  | l :: ls' => l ++ newline :: Join ls'
  end.

(** [strings.Index(s, "@")]: the position of the first [@], if any. *)
Fixpoint IndexAt (s : gostring) : option nat :=
  match s with
  | [] => None
  | a :: t => if (code a =? 64)%N then Some 0%nat
              else option_map S (IndexAt t)
  end.

(** The verb [%d] of [fmt]: decimal digits, with a minus sign for a
    negative number. *)
Definition Itoa (n : Z) : gostring :=
  str (NilZero.string_of_int (Z.to_int n)).

(** [appendInt] of package [time]: a minus sign for a negative number,
    then the decimal digits padded with zeros to [width] digits. *)
Definition appendInt (x : Z) (width : nat) : gostring :=
  let digits := Itoa (Z.abs x) in
  (if x <? 0 then str "-" else [])
    ++ repeat "0"%char (width - length digits) ++ digits.

(** A [time.Time] value. The program only formats the calendar date of
    a time (in the time's own location), so a time is modelled by that
    date. *)
Record Time := { Year : Z; Month : Z; Day : Z }.

(** [t.Format("2006-01-02")]. *)
Definition FormatDate (t : Time) : gostring :=
  appendInt (Year t) 4 ++ str "-" ++ appendInt (Month t) 2
    ++ str "-" ++ appendInt (Day t) 2.

(** *** Vocabulary for the statements about trimming *)

(** [s] starts with a run of bytes that [strip] removes. *)
Definition leads (p1 : ascii -> bool) (p2 : ascii -> ascii -> bool)
    (p3 : ascii -> ascii -> ascii -> bool) (s : gostring) : bool :=
  match s with
  | [] => false
  | a :: t =>
      p1 a || match t with
              | [] => false
              | b :: t2 =>
                  p2 a b || match t2 with
                            | [] => false
                            | c :: _ => p3 a b c
                            end
              end
  end.

(** No run recognised by [p2] or [p3] goes on into the byte [x]. *)
Definition stops (p2 : ascii -> ascii -> bool)
    (p3 : ascii -> ascii -> ascii -> bool) (x : ascii) : Prop :=
  (forall a, p2 a x = false) /\ (forall a c, p3 a x c = false)
  /\ (forall a b, p3 a b x = false).

Definition leadsL : gostring -> bool := leads asciiSpace space2 space3.

Definition leadsR : gostring -> bool :=
  leads asciiSpace (fun b a => space2 a b) (fun c b a => space3 a b c).

(** [l] neither starts nor ends with white space. *)
Definition trimmed (l : gostring) : Prop :=
  leadsL l = false /\ leadsR (rev l) = false.

(** [l] has no line feed. *)
Definition noNL (l : gostring) : Prop :=
  Forall (fun a => isNewline a = false) l.

(** [s] consists only of white space (line feeds included). *)
Inductive WhiteSpace : gostring -> Prop :=
  | ws_nil : WhiteSpace []
  | ws_ascii a s : asciiSpace a = true -> WhiteSpace s -> WhiteSpace (a :: s)
  | ws_two a b s :
      space2 a b = true -> WhiteSpace s -> WhiteSpace (a :: b :: s)
  | ws_three a b c s :
      space3 a b c = true -> WhiteSpace s -> WhiteSpace (a :: b :: c :: s).

(** The encoding of one white space character. *)
Inductive spaceRun : gostring -> Prop :=
  | run_one a : asciiSpace a = true -> spaceRun [a]
  | run_two a b : space2 a b = true -> spaceRun [a; b]
  | run_three a b c : space3 a b c = true -> spaceRun [a; b; c].

(** An ASCII byte that is not white space. *)
Definition plain (a : ascii) : bool :=
  (code a <? 128)%N && negb (asciiSpace a).

End gostrings.

(* ================================================================== *)
(** ** internal/utils/text.go *)

Module utils.
Import gostrings.

(** The loop state of [SplitMessage]: [result] and [currentPart]. *)
Definition loopState : Type := list gostring * gostring.

(** One iteration of the loop over [lines]. *)
Definition loopBody (limit : Z) (st : loopState) (line : gostring)
    : loopState :=
  let '(result, currentPart) := st in
  let line := TrimSpace line in
  if isEmpty line then st
  else if (addInt (addInt (len currentPart) (len line)) 1 >? limit)
          && negb (isEmpty currentPart)
  then (result ++ [TrimSpace currentPart], line)
  else (result,
        (if negb (isEmpty currentPart)
         then currentPart ++ [newline] else currentPart) ++ line).

Definition SplitMessage (text : gostring) (limit : Z) : list gostring :=
  let lines := Split (TrimSpace text) in
  let '(result, currentPart) := fold_left (loopBody limit) lines ([], []) in
  if negb (isEmpty (TrimSpace currentPart))
  then result ++ [TrimSpace currentPart]
  else result.

(** *** Vocabulary for the statements about [SplitMessage] *)

(** The lines that are not blank (empty or white space only). *)
Definition removeBlank (ls : list gostring) : list gostring :=
  filter (fun l => isEmpty (TrimSpace l) = false) ls.

(** The lines of [text], each trimmed, without the blank ones. *)
Definition trimmedLines (text : gostring) : list gostring :=
  removeBlank (map TrimSpace (Split text)).

(** A line as a chunk holds it: not empty, trimmed, without line feed. *)
Definition cleanLine (l : gostring) : Prop :=
  l <> [] /\ trimmed l /\ noNL l.

(** The lines [g] of one chunk: at least one, and more than one only
    when their join is within the limit. *)
Definition fits (limit : Z) (g : list gostring) : Prop :=
  g <> [] /\ (length g = 1%nat \/ len (Join g) <= limit).

(** The length of the joined lines, one separator counted per line. *)
Definition joinLen (ls : list gostring) : Z :=
  fold_right (fun l n => len l + 1 + n) 0 ls.

Definition example_lines : list gostring :=
  [str "a"; []; str "b"; str "xxxxxxxxxx"].

(** Spaces, line feeds, a tab, a carriage return, U+00A0 and U+2003. *)
Definition blank_text : gostring :=
  str "  " ++ [newline; "009"%char; newline; "013"%char]
    ++ ["194"%char; "160"%char] ++ ["226"%char; "128"%char; "131"%char]
    ++ [newline].

(** The chunks as groups of lines: a line is added to the group at hand
    while the join stays within the limit; a line that does not fit
    closes the group and opens the next one. *)
Fixpoint packLines (limit : Z) (cur : list gostring) (ls : list gostring)
    : list (list gostring) :=
  match ls with
  | [] => match cur with [] => [] | _ :: _ => [cur] end
  | l :: ls' =>
      match cur with
      | [] => packLines limit [l] ls'
      | _ :: _ =>
          if len (Join cur) + len l + 1 >? limit
          then cur :: packLines limit [l] ls'
          else packLines limit (cur ++ [l]) ls'
      end
  end.

End utils.

(* ================================================================== *)
(** ** internal/fetcher *)

(** What the fetcher uses of [net/http]. A request is a GET request and
    is identified by its URL. The context argument only bounds the time a
    call may take; a call that exceeds it is a transport error of [Do]. *)
Module http.

Record Response := { StatusCode : Z; Body : gostring }.

Record Client := {
  NewRequestWithContext : gostring -> Result gostring;
  Do : gostring -> Result Response
}.

Definition StatusOK : Z := 200.
Definition StatusBadRequest : Z := 400.
Definition StatusNotFound : Z := 404.

End http.

(** [json.NewDecoder(body).Decode(&xs)] for a slice [xs] of records of
    type [T]: the decoded records, or the decoder's error. *)
Class JSONArray (T : Type) := Decode : gostring -> Result (list T).

Module Follow.
Record t := {
  ID : gostring; DisplayName : gostring; Login : gostring;
  Avatar : gostring; FollowedAt : gostrings.Time; IsLive : bool
}.
End Follow.

Module Mod.
Record t := {
  ID : gostring; DisplayName : gostring; Login : gostring;
  Avatar : gostring; GrantedAt : gostrings.Time; Banned : bool
}.
End Mod.

Module Vip.
Record t := {
  ID : gostring; DisplayName : gostring; Login : gostring;
  Avatar : gostring; GrantedAt : gostrings.Time; Banned : bool
}.
End Vip.

Module Founders.
Record t := {
  ID : gostring; DisplayName : gostring; Login : gostring;
  FirstMonth : gostrings.Time; IsSubscribed : bool;
  Avatar : gostring; Banned : bool
}.
End Founders.

Module fetcher.
Import gostrings http.

Record Fetcher := { client : http.Client }.

(** [NewFetcher]: the fetcher over the HTTP client that it configures
    (with a timeout of ten seconds); the client is what [net/http]
    provides. *)
Definition NewFetcher (client : http.Client) : Fetcher :=
  {| client := client |}.

Definition FetchFollows `{!JSONArray Follow.t} (f : Fetcher)
    (username : gostring) : Result (list Follow.t) :=
  let url := str "https://tools.2807.eu/api/getfollows/" ++ username in
  match NewRequestWithContext (client f) url with
  | Err err => Err (str "failed to create request: " ++ err)
  | Ok req =>
      match Do (client f) req with
      | Err err => Err (str "failed to fetch follows: " ++ err)
      | Ok resp =>
          if negb (StatusCode resp =? StatusOK) then
            if StatusCode resp =? StatusBadRequest then
              Err (str "the user does not follow any channel")
            else if StatusCode resp =? StatusNotFound then
              Err (str "user not found")
            else
              Err (str "unexpected status code: " ++ Itoa (StatusCode resp))
          else
            match Decode (Body resp) with
            | Err err => Err (str "failed to decode response: " ++ err)
            | Ok follows => Ok follows
            end
      end
  end.

Definition FetchMods `{!JSONArray Mod.t} (f : Fetcher)
    (username : gostring) : Result (list Mod.t) :=
  let url := str "https://tools.2807.eu/api/getmods/" ++ username in
  match NewRequestWithContext (client f) url with
  | Err err => Err (str "failed to create request: " ++ err)
  | Ok req =>
      match Do (client f) req with
      | Err err => Err (str "failed to fetch mods: " ++ err)
      | Ok resp =>
          if negb (StatusCode resp =? StatusOK) then
            if StatusCode resp =? StatusBadRequest then
              Err (str "the user does not have any moderators on their channel")
            else if StatusCode resp =? StatusNotFound then
              Err (str "user not found")
            else
              Err (str "unexpected status code: " ++ Itoa (StatusCode resp))
          else
            match Decode (Body resp) with
            | Err err => Err (str "failed to decode response: " ++ err)
            | Ok mods => Ok mods
            end
      end
  end.

Definition FetchVips `{!JSONArray Vip.t} (f : Fetcher)
    (username : gostring) : Result (list Vip.t) :=
  let url := str "https://tools.2807.eu/api/getvips/" ++ username in
  match NewRequestWithContext (client f) url with
  | Err err => Err (str "failed to create request: " ++ err)
  | Ok req =>
      match Do (client f) req with
      | Err err => Err (str "failed to fetch vips: " ++ err)
      | Ok resp =>
          if negb (StatusCode resp =? StatusOK) then
            if StatusCode resp =? StatusBadRequest then
              Err (str "the user does not have any VIPs on their channel")
            else if StatusCode resp =? StatusNotFound then
              Err (str "user not found")
            else
              Err (str "unexpected status code: " ++ Itoa (StatusCode resp))
          else
            match Decode (Body resp) with
            | Err err => Err (str "failed to decode response: " ++ err)
            | Ok vips => Ok vips
            end
      end
  end.

Definition FetchFounders `{!JSONArray Founders.t} (f : Fetcher)
    (username : gostring) : Result (list Founders.t) :=
  let url := str "https://tools.2807.eu/api/getfounders/" ++ username in
  match NewRequestWithContext (client f) url with
  | Err err => Err (str "failed to create request: " ++ err)
  | Ok req =>
      match Do (client f) req with
      | Err err => Err (str "failed to fetch founders: " ++ err)
      | Ok resp =>
          if negb (StatusCode resp =? StatusOK) then
            if StatusCode resp =? StatusBadRequest then
              Err (str "the user does not have any founders on their channel")
            else if StatusCode resp =? StatusNotFound then
              Err (str "user not found")
            else
              Err (str "unexpected status code: " ++ Itoa (StatusCode resp))
          else
            match Decode (Body resp) with
            | Err err => Err (str "failed to decode response: " ++ err)
            | Ok founders => Ok founders
            end
      end
  end.

(** *** Vocabulary for the statements about the fetch operations *)

Inductive Kind := KFollows | KMods | KVips | KFounders.

Definition endpoint (k : Kind) : gostring :=
  match k with
  | KFollows => str "https://tools.2807.eu/api/getfollows/"
  | KMods => str "https://tools.2807.eu/api/getmods/"
  | KVips => str "https://tools.2807.eu/api/getvips/"
  | KFounders => str "https://tools.2807.eu/api/getfounders/"
  end.

Definition noEntries (k : Kind) : gostring :=
  match k with
  | KFollows => str "the user does not follow any channel"
  | KMods => str "the user does not have any moderators on their channel"
  | KVips => str "the user does not have any VIPs on their channel"
  | KFounders => str "the user does not have any founders on their channel"
  end.

(** The error of a result, [nil] ([None]) when there is none. *)
Definition errorOf {A} (r : Result A) : option gostring :=
  match r with Ok _ => None | Err msg => Some msg end.

Definition fetchError `{!JSONArray Follow.t, !JSONArray Mod.t,
    !JSONArray Vip.t, !JSONArray Founders.t}
    (k : Kind) (f : Fetcher) (username : gostring) : option gostring :=
  match k with
  | KFollows => errorOf (FetchFollows f username)
  | KMods => errorOf (FetchMods f username)
  | KVips => errorOf (FetchVips f username)
  | KFounders => errorOf (FetchFounders f username)
  end.

Definition decodeError `{!JSONArray Follow.t, !JSONArray Mod.t,
    !JSONArray Vip.t, !JSONArray Founders.t}
    (k : Kind) (body : gostring) : option gostring :=
  match k with
  | KFollows => errorOf (Decode (T := Follow.t) body)
  | KMods => errorOf (Decode (T := Mod.t) body)
  | KVips => errorOf (Decode (T := Vip.t) body)
  | KFounders => errorOf (Decode (T := Founders.t) body)
  end.

(** The request for [url] is built and the server answers [resp]. *)
Definition answers (f : Fetcher) (url : gostring) (resp : Response) : Prop :=
  exists req, NewRequestWithContext (client f) url = Ok req
              /\ Do (client f) req = Ok resp.

(** A decoder that accepts no body, and a server with one answer. *)
Definition rejectJSON (T : Type) : JSONArray T :=
  fun _ => Err (str "unexpected end of JSON input").

Definition serverAnswering (status : Z) (body : gostring) : Fetcher :=
  {| client :=
       {| NewRequestWithContext := fun url => Ok url;
          Do := fun _ => Ok {| StatusCode := status; Body := body |} |} |}.

(** The word of the kind in the message of a transport error. *)
Definition kindWord (k : Kind) : gostring :=
  match k with
  | KFollows => str "follows"
  | KMods => str "mods"
  | KVips => str "vips"
  | KFounders => str "founders"
  end.

(** The records of an answer, with their kind. *)
Inductive Records :=
  | RFollows (rs : list Follow.t)
  | RMods (rs : list Mod.t)
  | RVips (rs : list Vip.t)
  | RFounders (rs : list Founders.t).

Definition kindOf (r : Records) : Kind :=
  match r with
  | RFollows _ => KFollows
  | RMods _ => KMods
  | RVips _ => KVips
  | RFounders _ => KFounders
  end.

(** The body decodes to the records [r]. *)
Definition decodes `{!JSONArray Follow.t, !JSONArray Mod.t,
    !JSONArray Vip.t, !JSONArray Founders.t}
    (body : gostring) (r : Records) : Prop :=
  match r with
  | RFollows rs => Decode body = Ok rs
  | RMods rs => Decode body = Ok rs
  | RVips rs => Decode body = Ok rs
  | RFounders rs => Decode body = Ok rs
  end.

(** A client that cannot build the request, and a client without
    network. *)
Definition strictClient : Client :=
  {| NewRequestWithContext := fun _ =>
       Err (str "net/url: invalid control character in URL");
     Do := fun _ => Ok {| StatusCode := 200; Body := [] |} |}.

Definition offlineClient : Client :=
  {| NewRequestWithContext := fun url => Ok url;
     Do := fun _ => Err (str "dial tcp: connection refused") |}.

(** A decoder that gives the same records for every body; the answer
    about one VIP, and decoders that give it. *)
Definition fixedJSON {T : Type} (xs : list T) : JSONArray T :=
  fun _ => Ok xs.

Definition example_vip : Vip.t :=
  {| Vip.ID := str "1"; Vip.DisplayName := str "Ann"; Vip.Login := str "ann";
     Vip.Avatar := []; Vip.Banned := false;
     Vip.GrantedAt := {| Year := 2021; Month := 12; Day := 3 |} |}.

Definition example_vips : Records := RVips [example_vip].

Definition exampleFollowsJSON : JSONArray Follow.t := fixedJSON [].
Definition exampleModsJSON : JSONArray Mod.t := fixedJSON [].
Definition exampleVipsJSON : JSONArray Vip.t := fixedJSON [example_vip].
Definition exampleFoundersJSON : JSONArray Founders.t := fixedJSON [].

End fetcher.

(* ================================================================== *)
(** ** internal/formatter/formatter.go *)

Module formatter.
Import gostrings.

(** Each formatter's loop is a fold over the records whose state is the
    index [i] of the record at hand (the [range] clause counts it up) and
    the [response] built so far; [Sprintf] with [%s] and [%d] is
    concatenation, and the number printed is the Go sum [i+1]. *)
Definition FormatFollows (username : gostring) (follows : list Follow.t)
    : gostring :=
  let response :=
    str "<a href=" ++ dquote ++ str "https://twitch.tv/" ++ username
      ++ dquote ++ str ">" ++ username ++ str "</a> is following:"
      ++ [newline] in
  snd (fold_left
    (fun '(i, response) follow =>
       let twitchURL := str "https://twitch.tv/" ++ Follow.Login follow in
       let formattedDate := FormatDate (Follow.FollowedAt follow) in
       (i + 1,
        response ++ Itoa (addInt i 1) ++ str ". <a href=" ++ dquote ++ twitchURL
          ++ dquote ++ str ">" ++ Follow.DisplayName follow
          ++ str "</a> (followed at " ++ formattedDate ++ str ")"
          ++ [newline]))
    follows (0, response)).

Definition FormatMods (username : gostring) (mods : list Mod.t)
    : gostring :=
  let response :=
    str "<a href=" ++ dquote ++ str "https://twitch.tv/" ++ username
      ++ dquote ++ str ">" ++ username
      ++ str "</a>'s list of channel moders:" ++ [newline] in
  snd (fold_left
    (fun '(i, response) moder =>
       let twitchURL := str "https://twitch.tv/" ++ Mod.Login moder in
       let formattedDate := FormatDate (Mod.GrantedAt moder) in
       (i + 1,
        response ++ Itoa (addInt i 1) ++ str ". <a href=" ++ dquote ++ twitchURL
          ++ dquote ++ str ">" ++ Mod.DisplayName moder
          ++ str "</a> (moded at " ++ formattedDate ++ str ")"
          ++ [newline]))
    mods (0, response)).

Definition FormatVips (username : gostring) (vips : list Vip.t)
    : gostring :=
  let response :=
    str "<a href=" ++ dquote ++ str "https://twitch.tv/" ++ username
      ++ dquote ++ str ">" ++ username
      ++ str "</a>'s list of channel vips:" ++ [newline] in
  snd (fold_left
    (fun '(i, response) vip =>
       let twitchURL := str "https://twitch.tv/" ++ Vip.Login vip in
       let formattedDate := FormatDate (Vip.GrantedAt vip) in
       (i + 1,
        response ++ Itoa (addInt i 1) ++ str ". <a href=" ++ dquote ++ twitchURL
          ++ dquote ++ str ">" ++ Vip.DisplayName vip
          ++ str "</a> (viped at " ++ formattedDate ++ str ")"
          ++ [newline]))
    vips (0, response)).

Definition FormatFounders (username : gostring)
    (founders : list Founders.t) : gostring :=
  let response :=
    str "<a href=" ++ dquote ++ str "https://twitch.tv/" ++ username
      ++ dquote ++ str ">" ++ username
      ++ str "</a>'s list of channel founders:" ++ [newline] in
  snd (fold_left
    (fun '(i, response) founder =>
       let twitchURL := str "https://twitch.tv/" ++ Founders.Login founder in
       let formattedDate := FormatDate (Founders.FirstMonth founder) in
       (i + 1,
        response ++ Itoa (addInt i 1) ++ str ". <a href=" ++ dquote ++ twitchURL
          ++ dquote ++ str ">" ++ Founders.DisplayName founder
          ++ str "</a> (founded at " ++ formattedDate ++ str ")"
          ++ [newline]))
    founders (0, response)).

(** *** Vocabulary for the statements about the formatters *)

(** A link to the channel [login] that shows [text]. *)
Definition htmlLink (login text : gostring) : gostring :=
  str "<a href=" ++ dquote ++ str "https://twitch.tv/" ++ login ++ dquote
    ++ str ">" ++ text ++ str "</a>".

(** The line of a record: its number, the link to its channel, and the
    date after the word of the kind. *)
Definition numberedLine (n : Z) (login displayName word : gostring)
    (date : Time) : gostring :=
  Itoa n ++ str ". " ++ htmlLink login displayName ++ str " (" ++ word
    ++ str " at " ++ FormatDate date ++ str ")" ++ [newline].

(** The header of an answer and the line of a record, without their
    line feeds. *)
Definition headerLine (username title : gostring) : gostring :=
  htmlLink username username ++ title.

Definition recordLine (n : Z) (login displayName word : gostring)
    (date : Time) : gostring :=
  Itoa n ++ str ". " ++ htmlLink login displayName ++ str " (" ++ word
    ++ str " at " ++ FormatDate date ++ str ")".

(** The formatter of the kind of the records. *)
Definition formatText (username : gostring) (r : fetcher.Records)
    : gostring :=
  match r with
  | fetcher.RFollows rs => FormatFollows username rs
  | fetcher.RMods rs => FormatMods username rs
  | fetcher.RVips rs => FormatVips username rs
  | fetcher.RFounders rs => FormatFounders username rs
  end.

(** The lines of an answer: the header, then one line per record,
    numbered from 1. *)
Definition answerLines (username : gostring) (r : fetcher.Records)
    : list gostring :=
  match r with
  | fetcher.RFollows rs =>
      headerLine username (str " is following:")
      :: imap (fun i r =>
           recordLine (Z.of_nat i + 1) (Follow.Login r) (Follow.DisplayName r)
             (str "followed") (Follow.FollowedAt r)) rs
  | fetcher.RMods rs =>
      headerLine username (str "'s list of channel moders:")
      :: imap (fun i r =>
           recordLine (Z.of_nat i + 1) (Mod.Login r) (Mod.DisplayName r)
             (str "moded") (Mod.GrantedAt r)) rs
  | fetcher.RVips rs =>
      headerLine username (str "'s list of channel vips:")
      :: imap (fun i r =>
           recordLine (Z.of_nat i + 1) (Vip.Login r) (Vip.DisplayName r)
             (str "viped") (Vip.GrantedAt r)) rs
  | fetcher.RFounders rs =>
      headerLine username (str "'s list of channel founders:")
      :: imap (fun i r =>
           recordLine (Z.of_nat i + 1) (Founders.Login r)
             (Founders.DisplayName r) (str "founded")
             (Founders.FirstMonth r)) rs
  end.

(** No login and no display name of the records has a line feed. *)
Definition plainNames (r : fetcher.Records) : Prop :=
  match r with
  | fetcher.RFollows rs =>
      Forall (fun r => noNL (Follow.Login r) /\ noNL (Follow.DisplayName r)) rs
  | fetcher.RMods rs =>
      Forall (fun r => noNL (Mod.Login r) /\ noNL (Mod.DisplayName r)) rs
  | fetcher.RVips rs =>
      Forall (fun r => noNL (Vip.Login r) /\ noNL (Vip.DisplayName r)) rs
  | fetcher.RFounders rs =>
      Forall (fun r => noNL (Founders.Login r)
                       /\ noNL (Founders.DisplayName r)) rs
  end.

End formatter.

(* ================================================================== *)
(** ** pkg/config/config.go *)

Module config.

Record Config := { TelegramToken : gostring }.

(** What [Load] reads of the process: its environment variables, and
    what [godotenv] gets from reading and parsing the file [.env] of
    the working directory (an error when the file cannot be opened or
    parsed, its key/value pairs otherwise). *)
Record Process := {
  environ : gmap gostring gostring;
  dotenv : Result (gmap gostring gostring)
}.

(** [os.Getenv]: the value of the variable, empty when it is not set. *)
Definition Getenv (env : gmap gostring gostring) (key : gostring)
    : gostring :=
  default [] (env !! key).

(** [godotenv.Load()]: reads [.env] and sets every variable of the file
    that the environment does not have yet; a variable that is already
    set keeps its value. *)
Definition godotenv_Load (p : Process)
    : Result (gmap gostring gostring) :=
  match dotenv p with
  | Err err => Err err
  | Ok envMap => Ok (environ p ∪ envMap)
  end.

(** [validate] returns [nil] ([None]) or an error. *)
Definition validate (c : Config) : option gostring :=
  if isEmpty (TelegramToken c)
  then Some (str "TELEGRAM_TOKEN is required")
  else None.

Definition Load (p : Process) : Result Config :=
  match godotenv_Load p with
  | Err err => Err err
  | Ok env =>
      let cfg := {| TelegramToken := Getenv env (str "TELEGRAM_TOKEN") |} in
      match validate cfg with
      | Some err => Err err
      | None => Ok cfg
      end
  end.

(** *** Vocabulary for the statements about [Load] *)

Definition tokenKey : gostring := str "TELEGRAM_TOKEN".

(** The token is available: set to a non-empty value in the process
    environment, or supplied with a non-empty value by the file. *)
Definition tokenAvailable (p : Process) : Prop :=
  (exists v, environ p !! tokenKey = Some v /\ v <> [])
  \/ (exists envMap v, dotenv p = Ok envMap
                       /\ envMap !! tokenKey = Some v /\ v <> []).

(** The token is set in the environment and there is no file [.env]. *)
Definition processWithoutFile : Process :=
  {| environ := {[ tokenKey := str "123456:ABC-DEF" ]};
     dotenv := Err (str "open .env: no such file or directory") |}.

(** The token is supplied by the file [.env] alone. *)
Definition processWithFile : Process :=
  {| environ := ∅;
     dotenv := Ok {[ tokenKey := str "123456:ABC-DEF" ]} |}.

(** What [Load] returns when [TELEGRAM_TOKEN] has the value [v]. *)
Definition tokenResult (v : gostring) : Result Config :=
  if isEmpty v then Err (str "TELEGRAM_TOKEN is required")
  else Ok {| TelegramToken := v |}.

End config.

(* ================================================================== *)
(** ** The Telegram client library, as far as the bot uses it *)

(** A Go [error] value: [nil] is [None], an error carries its message. *)
Abbreviation error := (option gostring).

Module tgbotapi.

Module User.
Record t := { ID : Z }.
End User.

Module Chat.
Record t := { ID : Z }.
End Chat.

Module MessageEntity.
Record t := { Type_ : gostring; Offset : Z; Length : Z }.
Definition IsCommand (e : t) : bool :=
  bool_decide (Type_ e = str "bot_command").
End MessageEntity.

(** [From] and [Chat] are pointers in the library: [nil] is [None]. *)
Module Message.
Record t := {
  From : option User.t;
  Chat : option Chat.t;
  Text : gostring;
  Entities : list MessageEntity.t
}.

Definition IsCommand (m : t) : bool :=
  match Entities m with
  | [] => false
  | entity :: _ =>
      (MessageEntity.Offset entity =? 0) && MessageEntity.IsCommand entity
  end.
End Message.

Module CallbackQuery.
Record t := {
  ID : gostring;
  Message : option Message.t;
  Data : gostring
}.
End CallbackQuery.

Module Update.
Record t := {
  Message : option Message.t;
  CallbackQuery : option CallbackQuery.t
}.
End Update.

Record InlineKeyboardButton := {
  ButtonText : gostring;
  CallbackData : gostring
}.

Definition NewInlineKeyboardButtonData (text data : gostring)
    : InlineKeyboardButton :=
  {| ButtonText := text; CallbackData := data |}.

(** An inline keyboard is a list of rows of buttons. *)
Definition NewInlineKeyboardRow (buttons : list InlineKeyboardButton)
    : list InlineKeyboardButton := buttons.

Definition NewInlineKeyboardMarkup (rows : list (list InlineKeyboardButton))
    : list (list InlineKeyboardButton) := rows.

Record MessageConfig := {
  ChatID : Z;
  Text : gostring;
  ParseMode : gostring;
  DisableWebPagePreview : bool;
  ReplyMarkup : option (list (list InlineKeyboardButton))
}.

Definition NewMessage (chatID : Z) (text : gostring) : MessageConfig :=
  {| ChatID := chatID; Text := text; ParseMode := [];
     DisableWebPagePreview := false; ReplyMarkup := None |}.

Definition ModeHTML : gostring := str "HTML".

Record CallbackConfig := {
  CallbackQueryID : gostring;
  CallbackText : gostring
}.

Definition NewCallback (id text : gostring) : CallbackConfig :=
  {| CallbackQueryID := id; CallbackText := text |}.

(** The bot API: what the two calls answer. The answer of Telegram to a
    call is outside the program; here it is the error, if any, that the
    call returns. *)
Record BotAPI := {
  Send : MessageConfig -> error;
  Request : CallbackConfig -> error
}.

End tgbotapi.

(* ================================================================== *)
(** ** internal/bot *)

Module bot.
Import gostrings tgbotapi.

Record UserState := {
  AwaitingUsername : bool;
  PressedButton : gostring
}.

Record Fetcher := {
  FetchFollows : gostring -> Result (list Follow.t);
  FetchMods : gostring -> Result (list Mod.t);
  FetchVips : gostring -> Result (list Vip.t);
  FetchFounders : gostring -> Result (list Founders.t)
}.

(** What the bot does to the outside, in the order it does it: calls of
    the bot API, calls of the fetcher, and lines written to the log. *)
Inductive Event :=
  | EvRequest (c : CallbackConfig)
  | EvSend (m : MessageConfig)
  | EvFetchFollows (username : gostring)
  | EvFetchMods (username : gostring)
  | EvFetchVips (username : gostring)
  | EvFetchFounders (username : gostring)
  | EvLog (line : gostring).

(** A computation either returns or panics with a value. *)
Inductive Res (A : Type) : Type :=
  | Normal (a : A)
  | Panic (v : gostring).
Arguments Normal {A} a.
Arguments Panic {A} v.

(** Code with effects: it extends the trace of events and returns or
    panics. *)
Definition M (A : Type) : Type := list Event -> Res A * list Event.

Definition ret {A} (a : A) : M A := fun w => (Normal a, w).

Definition bind {A B} (c : M A) (k : A -> M B) : M B :=
  fun w =>
    match c w with
    | (Normal a, w') => k a w'
    | (Panic v, w') => (Panic v, w')
    end.

Definition emit (e : Event) : M unit := fun w => (Normal tt, w ++ [e]).

Definition panic {A} (v : gostring) : M A := fun w => (Panic v, w).

(** Following a pointer: a panic when it is [nil]. *)
Definition deref {A} (p : option A) : M A :=
  match p with
  | Some a => ret a
  | None =>
      panic (str "runtime error: invalid memory address or nil pointer dereference")
  end.

#[local] Notation "x <- c ;; k" := (bind c (fun x => k))
  (at level 100, c at next level, right associativity).

(** [m.Command()] of the library: the text of the leading command
    entity without its slash, cut at the first [@]. The slice
    expression [m.Text[1:entity.Length]] panics when the bounds are out
    of range. *)
Definition CommandWithAt (m : Message.t) : M gostring :=
  if negb (Message.IsCommand m) then ret []
  else
    match Message.Entities m with
    | [] => ret []
    | entity :: _ =>
        let hi := MessageEntity.Length entity in
        if (1 <=? hi) && (hi <=? len (Message.Text m))
        then ret (drop 1 (take (Z.to_nat hi) (Message.Text m)))
        else panic (str "runtime error: slice bounds out of range")
    end.

Definition Command (m : Message.t) : M gostring :=
  command <- CommandWithAt m ;;
  match IndexAt command with
  | Some i => ret (take i command)
  | None => ret command
  end.

(** [ViewFunc]: a handler gets the bot API and the update. *)
Definition ViewFunc : Type := BotAPI -> Update.t -> M error.

Record Bot := {
  api : BotAPI;
  cmdViewMap : gmap gostring ViewFunc;
  userState : gmap Z UserState;
  fetcher : Fetcher
}.

Definition telegramMessageLimit : Z := 4096.

Definition New (api : BotAPI) (fetcher : Fetcher) : Bot :=
  {| api := api; cmdViewMap := ∅; userState := ∅; fetcher := fetcher |}.

Definition RegisterCommand (b : Bot) (name : gostring) (view : ViewFunc)
    : Bot :=
  {| api := api b; cmdViewMap := <[name := view]> (cmdViewMap b);
     userState := userState b; fetcher := fetcher b |}.

(** [b.userState[chatID] = st] and [delete(b.userState, chatID)]. *)
Definition setUserState (b : Bot) (chatID : Z) (st : UserState) : Bot :=
  {| api := api b; cmdViewMap := cmdViewMap b;
     userState := <[chatID := st]> (userState b); fetcher := fetcher b |}.

Definition deleteUserState (b : Bot) (chatID : Z) : Bot :=
  {| api := api b; cmdViewMap := cmdViewMap b;
     userState := delete chatID (userState b); fetcher := fetcher b |}.

(** [api.Send(msg)] and [api.Request(cb)]: the call is made, and its
    error (or [nil]) comes back. *)
Definition apiSend (a : BotAPI) (msg : MessageConfig) : M error :=
  _ <- emit (EvSend msg) ;; ret (Send a msg).

Definition apiRequest (a : BotAPI) (cb : CallbackConfig) : M error :=
  _ <- emit (EvRequest cb) ;; ret (Request a cb).

Definition logPrintf (line : gostring) : M unit := emit (EvLog line).

(** views.go *)
Definition ViewCmdStart : ViewFunc := fun bot update =>
  let inlineKeyboard :=
    NewInlineKeyboardMarkup
      [ NewInlineKeyboardRow
          [ NewInlineKeyboardButtonData (str "follows") (str "follows");
            NewInlineKeyboardButtonData (str "moders") (str "moders") ];
        NewInlineKeyboardRow
          [ NewInlineKeyboardButtonData (str "vips") (str "vips");
            NewInlineKeyboardButtonData (str "founders") (str "founders") ] ] in
  message <- deref (Update.Message update) ;;
  chat <- deref (Message.Chat message) ;;
  let msg := NewMessage (Chat.ID chat) (str "Select the option:") in
  let msg :=
    {| ChatID := ChatID msg; Text := Text msg; ParseMode := ParseMode msg;
       DisableWebPagePreview := DisableWebPagePreview msg;
       ReplyMarkup := Some inlineKeyboard |} in
  err <- apiSend bot msg ;;
  match err with
  | Some err => ret (Some (str "failed to send message: " ++ err))
  | None => ret None
  end.

Definition sendStartKeyboard (b : Bot) (update : Update.t) : M unit :=
  let view := ViewCmdStart in
  err <- view (api b) update ;;
  match err with
  | Some err =>
      logPrintf (str "bot.handleUpdate: failed to send inline keyboard: " ++ err)
  | None => ret tt
  end.

Definition sendError (b : Bot) (chatID : Z) (message : gostring)
    (err : gostring) : M unit :=
  let msg := NewMessage chatID (message ++ str ": " ++ err ++ str ".") in
  err <- apiSend (api b) msg ;;
  match err with
  | Some err =>
      logPrintf (str "bot.handleUpdate: failed to send error message: " ++ err)
  | None => ret tt
  end.

(** [processRequest] returns a pair of a string and an error. *)
Definition processRequest (b : Bot) (username button : gostring)
    : M (gostring * error) :=
  if decide (button = str "follows") then
    _ <- emit (EvFetchFollows username) ;;
    match FetchFollows (fetcher b) username with
    | Err err => ret ([], Some err)
    | Ok follows => ret (formatter.FormatFollows username follows, None)
    end
  else if decide (button = str "moders") then
    _ <- emit (EvFetchMods username) ;;
    match FetchMods (fetcher b) username with
    | Err err => ret ([], Some err)
    | Ok mods => ret (formatter.FormatMods username mods, None)
    end
  else if decide (button = str "vips") then
    _ <- emit (EvFetchVips username) ;;
    match FetchVips (fetcher b) username with
    | Err err => ret ([], Some err)
    | Ok vips => ret (formatter.FormatVips username vips, None)
    end
  else if decide (button = str "founders") then
    _ <- emit (EvFetchFounders username) ;;
    match FetchFounders (fetcher b) username with
    | Err err => ret ([], Some err)
    | Ok founders => ret (formatter.FormatFounders username founders, None)
    end
  else
    ret ([], Some (str "unknown button: " ++ button)).

Definition isAwaitingUsername (b : Bot) (chatID : Z) : bool :=
  match userState b !! chatID with
  | Some state => AwaitingUsername state
  | None => false
  end.

Definition handleCallback (b : Bot) (callback : CallbackQuery.t) : M Bot :=
  let cb := NewCallback (CallbackQuery.ID callback)
                        (CallbackQuery.Data callback) in
  err <- apiRequest (api b) cb ;;
  _ <- match err with
       | Some err =>
           logPrintf (str "bot.handleCallback: failed to send callback: " ++ err)
       | None => ret tt
       end ;;
  message <- deref (CallbackQuery.Message callback) ;;
  chat <- deref (Message.Chat message) ;;
  let b := setUserState b (Chat.ID chat)
             {| AwaitingUsername := true;
                PressedButton := CallbackQuery.Data callback |} in
  let msg := NewMessage (Chat.ID chat) (str "Enter the channel name:") in
  _ <- apiSend (api b) msg ;;
  ret b.

Definition handleCommand (b : Bot) (update : Update.t) : M unit :=
  message <- deref (Update.Message update) ;;
  cmd <- Command message ;;
  match cmdViewMap b !! cmd with
  | None =>
      chat <- deref (Message.Chat message) ;;
      let msg := NewMessage (Chat.ID chat) (str "Unknown command.") in
      _ <- apiSend (api b) msg ;;
      sendStartKeyboard b update
  | Some cmdView =>
      err <- cmdView (api b) update ;;
      match err with
      | Some err => logPrintf (str "bot.handleCommand: " ++ err)
      | None => ret tt
      end
  end.

(** The loop that sends one message per part. *)
Fixpoint sendParts (b : Bot) (chatID : Z) (messages : list gostring)
    : M unit :=
  match messages with
  | [] => ret tt
  | part :: rest =>
      let msg := NewMessage chatID part in
      let msg :=
        {| ChatID := ChatID msg; Text := Text msg; ParseMode := ModeHTML;
           DisableWebPagePreview := true; ReplyMarkup := ReplyMarkup msg |} in
      _ <- apiSend (api b) msg ;;
      sendParts b chatID rest
  end.

(** A missing key of [b.userState] reads as the zero [UserState]. *)
Definition handleUserInput (b : Bot) (update : Update.t) : M Bot :=
  message <- deref (Update.Message update) ;;
  let username := Message.Text message in
  from <- deref (Message.From message) ;;
  let state :=
    default {| AwaitingUsername := false; PressedButton := [] |}
            (userState b !! User.ID from) in
  chat <- deref (Message.Chat message) ;;
  let b := deleteUserState b (Chat.ID chat) in
  r <- processRequest b username (PressedButton state) ;;
  let '(response, err) := r in
  match err with
  | Some err =>
      _ <- sendError b (Chat.ID chat) (str "Failed to fetch data") err ;;
      _ <- sendStartKeyboard b update ;;
      ret b
  | None =>
      let messages := utils.SplitMessage response telegramMessageLimit in
      _ <- sendParts b (Chat.ID chat) messages ;;
      _ <- sendStartKeyboard b update ;;
      ret b
  end.

(** The body of [handleUpdate], before its deferred function runs. *)
Definition handleUpdateBody (b : Bot) (update : Update.t) : M Bot :=
  match Update.CallbackQuery update with
  | Some callback => handleCallback b callback
  | None =>
      match Update.Message update with
      | None => ret b
      | Some message =>
          from <- deref (Message.From message) ;;
          if isAwaitingUsername b (User.ID from) then
            handleUserInput b update
          else if Message.IsCommand message then
            _ <- handleCommand b update ;; ret b
          else
            _ <- sendStartKeyboard b update ;; ret b
      end
  end.

(** What an update leaves behind: the bot goes on with a new state, or
    the process has exited ([log.Fatalf] prints and calls [os.Exit(1)]). *)
Inductive Outcome :=
  | Continue (b : Bot)
  | Exit (status : Z).

(** [handleUpdate]: the deferred function recovers a panic of the body
    and calls [log.Fatalf]. *)
Definition handleUpdate (b : Bot) (update : Update.t)
    : list Event -> Outcome * list Event :=
  fun w =>
    match handleUpdateBody b update w with
    | (Normal b', w') => (Continue b', w')
    | (Panic p, w') =>
        (Exit 1, w' ++ [EvLog (str "panic recovered: " ++ p)])
    end.

(** How a run of [Start] ends: it returns its error when the context is
    done, or the process has exited. *)
Inductive Ending :=
  | Returned (b : Bot) (err : gostring)
  | Exited (status : Z).

(** [Start]: the updates of the channel are handled one after the
    other; [updates] are those that arrive before the context is done. *)
Fixpoint Start (b : Bot) (updates : list Update.t) (w : list Event)
    : Ending * list Event :=
  match updates with
  | [] => (Returned b (str "bot.Start: context done"), w)
  | update :: rest =>
      match handleUpdate b update w with
      | (Continue b', w') => Start b' rest w'
      | (Exit status, w') => (Exited status, w')
      end
  end.

(** The messages sent and the fetch calls made in a trace. *)
Definition sent (w : list Event) : list MessageConfig :=
  omap (fun e => match e with EvSend m => Some m | _ => None end) w.

Definition isFetch (e : Event) : bool :=
  match e with
  | EvFetchFollows _ | EvFetchMods _ | EvFetchVips _ | EvFetchFounders _ =>
      true
  | _ => false
  end.

Definition fetched (w : list Event) : list Event := filter isFetch w.

(** *** Vocabulary for the statements about the controller *)

(** The message with the menu of four buttons. *)
Definition startMenu (chatID : Z) : MessageConfig :=
  {| ChatID := chatID; Text := str "Select the option:"; ParseMode := [];
     DisableWebPagePreview := false;
     ReplyMarkup := Some
       [ [ {| ButtonText := str "follows"; CallbackData := str "follows" |};
           {| ButtonText := str "moders"; CallbackData := str "moders" |} ];
         [ {| ButtonText := str "vips"; CallbackData := str "vips" |};
           {| ButtonText := str "founders";
              CallbackData := str "founders" |} ] ] |}.

(** One part of a formatted answer. *)
Definition htmlMessage (chatID : Z) (part : gostring) : MessageConfig :=
  {| ChatID := chatID; Text := part; ParseMode := str "HTML";
     DisableWebPagePreview := true; ReplyMarkup := None |}.

(** A text message without entities sent by user [from] in chat [chat]. *)
Definition textMessage (from chat : Z) (text : gostring) : Update.t :=
  {| Update.Message := Some
       {| Message.From := Some {| User.ID := from |};
          Message.Chat := Some {| Chat.ID := chat |};
          Message.Text := text; Message.Entities := [] |};
     Update.CallbackQuery := None |}.

(** A press of the button with payload [data] under a message that the
    bot (user [botUser]) sent in chat [chat]. *)
Definition buttonPress (id : gostring) (botUser chat : Z) (data : gostring)
    : Update.t :=
  {| Update.Message := None;
     Update.CallbackQuery := Some
       {| CallbackQuery.ID := id;
          CallbackQuery.Message := Some
            {| Message.From := Some {| User.ID := botUser |};
               Message.Chat := Some {| Chat.ID := chat |};
               Message.Text := str "Select the option:";
               Message.Entities := [] |};
          CallbackQuery.Data := data |} |}.

(** A press of a button under a message sent via the bot in inline mode:
    Telegram sends no message with such a callback query. *)
Definition inlineButtonPress (id data : gostring) : Update.t :=
  {| Update.Message := None;
     Update.CallbackQuery := Some
       {| CallbackQuery.ID := id; CallbackQuery.Message := None;
          CallbackQuery.Data := data |} |}.

(** [c] returns [a], sends the messages [s] and makes the fetch calls
    [f], whatever happened before. *)
Definition Runs {A} (c : M A) (a : A) (s : list MessageConfig)
    (f : list Event) : Prop :=
  forall w, exists w',
    c w = (Normal a, w') /\ sent w' = sent w ++ s
    /\ fetched w' = fetched w ++ f.

(** The payloads that [processRequest] knows. *)
Definition knownButtons : list gostring :=
  [str "follows"; str "moders"; str "vips"; str "founders"].

(** What the bot answers to the user name [username] after the button
    [vips]: the parts of the formatted list, or the error message. *)
Definition vipsReply (f : Fetcher) (chat : Z) (username : gostring)
    : list MessageConfig :=
  match FetchVips f username with
  | Ok vips =>
      map (htmlMessage chat)
        (utils.SplitMessage (formatter.FormatVips username vips)
           telegramMessageLimit)
  | Err err =>
      [NewMessage chat (str "Failed to fetch data: " ++ err ++ str ".")]
  end.

(** A bot API whose calls all succeed, a fetcher without entries, a bot
    that waits for a user name after an unknown button, and the
    identifier of a group chat. *)
Definition silentAPI : BotAPI :=
  {| Send := fun _ => None; Request := fun _ => None |}.

Definition emptyFetcher : Fetcher :=
  {| FetchFollows := fun _ => Ok [];
     FetchMods := fun _ => Ok [];
     FetchVips := fun _ => Ok [];
     FetchFounders := fun _ => Ok [] |}.

Definition pendingBot : Bot :=
  setUserState (New silentAPI emptyFetcher) 7
    {| AwaitingUsername := true; PressedButton := str "subs" |}.

Definition groupChat : Z := -1001234567890.

(** The payload of the button of a kind. *)
Definition button (k : fetcher.Kind) : gostring :=
  match k with
  | fetcher.KFollows => str "follows"
  | fetcher.KMods => str "moders"
  | fetcher.KVips => str "vips"
  | fetcher.KFounders => str "founders"
  end.

(** The fetch call of a kind, as the trace records it. *)
Definition fetchCall (k : fetcher.Kind) (username : gostring) : Event :=
  match k with
  | fetcher.KFollows => EvFetchFollows username
  | fetcher.KMods => EvFetchMods username
  | fetcher.KVips => EvFetchVips username
  | fetcher.KFounders => EvFetchFounders username
  end.

(** What the fetcher and the formatter of a kind give for [username]:
    the formatted list, or the error of the fetcher. *)
Definition fetchText (f : Fetcher) (k : fetcher.Kind) (username : gostring)
    : Result gostring :=
  match k with
  | fetcher.KFollows =>
      match FetchFollows f username with
      | Ok xs => Ok (formatter.FormatFollows username xs)
      | Err err => Err err
      end
  | fetcher.KMods =>
      match FetchMods f username with
      | Ok xs => Ok (formatter.FormatMods username xs)
      | Err err => Err err
      end
  | fetcher.KVips =>
      match FetchVips f username with
      | Ok xs => Ok (formatter.FormatVips username xs)
      | Err err => Err err
      end
  | fetcher.KFounders =>
      match FetchFounders f username with
      | Ok xs => Ok (formatter.FormatFounders username xs)
      | Err err => Err err
      end
  end.

(** The messages that answer a user name: the parts of the formatted
    list, or the error message. *)
Definition replyTo (chat : Z) (r : Result gostring) : list MessageConfig :=
  match r with
  | Ok response =>
      map (htmlMessage chat) (utils.SplitMessage response telegramMessageLimit)
  | Err err =>
      [NewMessage chat (str "Failed to fetch data: " ++ err ++ str ".")]
  end.

(** The chat whose session an update can touch: the chat of the message
    under the pressed button, or the chat of the message. *)
Definition updateChat (update : Update.t) : option Z :=
  match Update.CallbackQuery update with
  | Some callback =>
      match CallbackQuery.Message callback with
      | Some m => option_map Chat.ID (Message.Chat m)
      | None => None
      end
  | None =>
      match Update.Message update with
      | Some m => option_map Chat.ID (Message.Chat m)
      | None => None
      end
  end.

(** A message of user [from] in chat [chat] whose text starts with a
    command of [length] bytes (the slash included). *)
Definition commandMessage (from chat : Z) (text : gostring) (length : Z)
    : Update.t :=
  {| Update.Message := Some
       {| Message.From := Some {| User.ID := from |};
          Message.Chat := Some {| Chat.ID := chat |};
          Message.Text := text;
          Message.Entities :=
            [ {| MessageEntity.Type_ := str "bot_command";
                 MessageEntity.Offset := 0;
                 MessageEntity.Length := length |} ] |};
     Update.CallbackQuery := None |}.

(** Partial correctness: when [c] returns, what it returns satisfies [P]. *)
Definition Post {A} (c : M A) (P : A -> Prop) : Prop :=
  forall w r w', c w = (Normal r, w') -> P r.

(** [c] returns, whatever happened before. *)
Definition Returns {A} (c : M A) : Prop :=
  forall w, exists a w', c w = (Normal a, w').

(** [b'] is [b] but for the session of the chat [c]. *)
Definition sameBut (c : option Z) (b b' : Bot) : Prop :=
  api b' = api b /\ cmdViewMap b' = cmdViewMap b /\ fetcher b' = fetcher b
  /\ forall c', c <> Some c' -> userState b' !! c' = userState b !! c'.

(** The pointers that the handling of an update follows are set: the
    message under the pressed button and its chat, or the sender and
    the chat of the message. *)
Definition pointersSet (update : Update.t) : Prop :=
  match Update.CallbackQuery update with
  | Some callback =>
      exists m chat, CallbackQuery.Message callback = Some m
                     /\ Message.Chat m = Some chat
  | None =>
      match Update.Message update with
      | None => True
      | Some m =>
          exists from chat, Message.From m = Some from
                            /\ Message.Chat m = Some chat
      end
  end.

(** [c] panics, whatever happened before. *)
Definition Panics {A} (c : M A) : Prop :=
  forall w, exists p w', c w = (Panic p, w').
End bot.

(* ================================================================== *)
(** ** cmd/main.go *)

Module main.
Import gostrings tgbotapi bot.

(** A [*fetcher.Fetcher] is a [bot.Fetcher] by its four methods. *)
Definition asBotFetcher `{!JSONArray Follow.t, !JSONArray Mod.t,
    !JSONArray Vip.t, !JSONArray Founders.t} (f : fetcher.Fetcher)
    : bot.Fetcher :=
  {| FetchFollows := fetcher.FetchFollows f;
     FetchMods := fetcher.FetchMods f;
     FetchVips := fetcher.FetchVips f;
     FetchFounders := fetcher.FetchFounders f |}.

(** The bot that [main] builds and starts. *)
Definition mainBot `{!JSONArray Follow.t, !JSONArray Mod.t,
    !JSONArray Vip.t, !JSONArray Founders.t}
    (botAPI : BotAPI) (client : http.Client) : Bot :=
  let fetcher := fetcher.NewFetcher client in
  let tgBot := New botAPI (asBotFetcher fetcher) in
  RegisterCommand tgBot (str "start") ViewCmdStart.

(** [main]: the exit status of the process and what it did. [NewBotAPI]
    is the call that checks the token with Telegram; [updates] are the
    updates that arrive before the process is told to stop. A return
    from [main] is the exit status 0, [log.Fatalf] is the exit status 1. *)
Definition main `{!JSONArray Follow.t, !JSONArray Mod.t,
    !JSONArray Vip.t, !JSONArray Founders.t}
    (p : config.Process) (NewBotAPI : gostring -> Result BotAPI)
    (client : http.Client) (updates : list Update.t) : Z * list Event :=
  match config.Load p with
  | Err err => (1, [EvLog (str "failed to load configuration: " ++ err)])
  | Ok cfg =>
      match NewBotAPI (config.TelegramToken cfg) with
      | Err err => (0, [EvLog (str "failed to initialize bot: " ++ err)])
      | Ok botAPI =>
          match Start (mainBot botAPI client) updates [] with
          | (Returned _ err, w) =>
              (0, w ++ [EvLog (str "failed to start bot: " ++ err)])
          | (Exited status, w) => (status, w)
          end
      end
  end.

End main.

(* ================================================================== *)
(** * Theorems *)

(** ** The text chunker *)

Section Chunker.
Import gostrings utils.

(** *** Removing runs of bytes from the front *)


Section StripTheory.
Variables (p1 : ascii -> bool) (p2 : ascii -> ascii -> bool)
          (p3 : ascii -> ascii -> ascii -> bool).

Local Abbreviation strip' := (strip p1 p2 p3).
Local Abbreviation leads' := (leads p1 p2 p3).

Lemma strip_cases (P : gostring -> Prop) :
  (forall s, leads' s = false -> P s) ->
  (forall a t, p1 a = true -> P t -> P (a :: t)) ->
  (forall a b t, p1 a = false -> p2 a b = true -> P t -> P (a :: b :: t)) ->
  (forall a b c t, p1 a = false -> p2 a b = false -> p3 a b c = true ->
                   P t -> P (a :: b :: c :: t)) ->
  forall s, P s.
Proof.
  intros Hbase H1 H2 H3 s.
  remember (length s) as n eqn:Hn.
  revert s Hn. induction n as [n IH] using lt_wf_ind. intros s Hn.
  destruct s as [|a [|b [|c t]]].
  - apply Hbase. reflexivity.
  - destruct (p1 a) eqn:E1.
    + apply H1; [done|]. apply Hbase. reflexivity.
    + apply Hbase. simpl. rewrite E1. reflexivity.
  - destruct (p1 a) eqn:E1.
    + apply H1; [done|]. eapply IH; cycle 1; [reflexivity | simpl in Hn |- *; lia].
    + destruct (p2 a b) eqn:E2.
      * apply H2; try done. apply Hbase. reflexivity.
      * apply Hbase. simpl. rewrite E1, E2. reflexivity.
  - destruct (p1 a) eqn:E1.
    + apply H1; [done|]. eapply IH; cycle 1; [reflexivity | simpl in Hn |- *; lia].
    + destruct (p2 a b) eqn:E2.
      * apply H2; try done. eapply IH; cycle 1; [reflexivity | simpl in Hn |- *; lia].
      * destruct (p3 a b c) eqn:E3.
        -- apply H3; try done. eapply IH; cycle 1; [reflexivity | simpl in Hn |- *; lia].
        -- apply Hbase. simpl. rewrite E1, E2, E3. reflexivity.
Qed.

Lemma strip_fixed s : leads' s = false -> strip' s = s.
Proof.
  destruct s as [|a [|b [|c t]]]; simpl; try done.
  - destruct (p1 a); simpl; [done|done].
  - destruct (p1 a); simpl; [done|]. destruct (p2 a b); simpl; done.
  - destruct (p1 a); simpl; [done|]. destruct (p2 a b); simpl; [done|].
    destruct (p3 a b c); done.
Qed.

Lemma strip_step1 a t : p1 a = true -> strip' (a :: t) = strip' t.
Proof. intros H. simpl. rewrite H. reflexivity. Qed.

Lemma strip_step2 a b t :
  p1 a = false -> p2 a b = true -> strip' (a :: b :: t) = strip' t.
Proof. intros H1 H2. simpl. rewrite H1, H2. reflexivity. Qed.

Lemma strip_step3 a b c t :
  p1 a = false -> p2 a b = false -> p3 a b c = true ->
  strip' (a :: b :: c :: t) = strip' t.
Proof. intros H1 H2 H3. simpl. rewrite H1, H2, H3. reflexivity. Qed.

Lemma leads_strip s : leads' (strip' s) = false.
Proof.
  induction s using strip_cases.
  - rewrite strip_fixed; done.
  - rewrite strip_step1; done.
  - rewrite strip_step2; done.
  - rewrite strip_step3; done.
Qed.

Lemma strip_idem s : strip' (strip' s) = strip' s.
Proof. apply strip_fixed, leads_strip. Qed.

Lemma strip_suffix s : exists w, s = w ++ strip' s.
Proof.
  induction s using strip_cases.
  - exists []. rewrite strip_fixed; done.
  - destruct IHs as [w Hw]. exists (a :: w).
    rewrite strip_step1 by done. simpl. congruence.
  - destruct IHs as [w Hw]. exists (a :: b :: w).
    rewrite strip_step2 by done. simpl. congruence.
  - destruct IHs as [w Hw]. exists (a :: b :: c :: w).
    rewrite strip_step3 by done. simpl. congruence.
Qed.

Lemma leads_app v w : leads' v = true -> leads' (v ++ w) = true.
Proof.
  destruct v as [|a [|b [|c t]]]; simpl; try done.
  - rewrite orb_false_r. intros ->. reflexivity.
  - rewrite orb_false_r. intros H. apply orb_true_iff in H as [->| ->]; [done|].
    rewrite orb_true_r. reflexivity.
Qed.

Lemma leads_app_stop l x r :
  stops p2 p3 x -> l <> [] -> leads' l = false ->
  leads' (l ++ x :: r) = false.
Proof.
  intros (S2 & S3 & S3') Hne.
  destruct l as [|a [|b [|c t]]]; simpl; try done.
  - rewrite S2. rewrite orb_false_r. intros ->. simpl.
    destruct r; [done|]. apply S3.
  - rewrite orb_false_r. intros H. apply orb_false_iff in H as [-> ->].
    simpl. apply S3'.
Qed.

Lemma strip_app_stop l x r :
  stops p2 p3 x -> strip' l <> [] ->
  strip' (l ++ x :: r) = strip' l ++ x :: r.
Proof.
  intros Hx. induction l using strip_cases; intros HH.
  - rewrite (strip_fixed l) in * by done.
    apply strip_fixed, leads_app_stop; done.
  - rewrite <- !app_comm_cons, !strip_step1 by done.
    rewrite strip_step1 in HH by done. exact (IHl HH).
  - rewrite <- !app_comm_cons, !strip_step2 by done.
    rewrite strip_step2 in HH by done. exact (IHl HH).
  - rewrite <- !app_comm_cons, !strip_step3 by done.
    rewrite strip_step3 in HH by done. exact (IHl HH).
Qed.

Lemma strip_app_all l w : strip' l = [] -> strip' (l ++ w) = strip' w.
Proof.
  induction l using strip_cases; intros HH.
  - rewrite strip_fixed in HH by done. subst. reflexivity.
  - rewrite <- !app_comm_cons, !strip_step1 by done.
    rewrite strip_step1 in HH by done. exact (IHl HH).
  - rewrite <- !app_comm_cons, !strip_step2 by done.
    rewrite strip_step2 in HH by done. exact (IHl HH).
  - rewrite <- !app_comm_cons, !strip_step3 by done.
    rewrite strip_step3 in HH by done. exact (IHl HH).
Qed.

End StripTheory.

(** *** The bytes of white space *)

Lemma asciiSpace_spec a : asciiSpace a = true -> (code a < 128)%N.
Proof.
  unfold asciiSpace.
  rewrite orb_true_iff, andb_true_iff, !N.leb_le, N.eqb_eq. lia.
Qed.

Lemma space2_spec a b :
  space2 a b = true -> (192 <= code a)%N /\ (128 <= code b < 192)%N.
Proof.
  unfold space2.
  rewrite andb_true_iff, orb_true_iff, !N.eqb_eq. lia.
Qed.

Lemma space3_spec a b c :
  space3 a b c = true ->
  (192 <= code a)%N /\ (128 <= code b < 192)%N /\ (128 <= code c < 192)%N.
Proof.
  unfold space3.
  rewrite !orb_true_iff, !andb_true_iff, !orb_true_iff, !andb_true_iff,
    !N.eqb_eq, !N.leb_le. lia.
Qed.

Lemma isNewline_code a : isNewline a = true -> code a = 10%N.
Proof. unfold isNewline. apply N.eqb_eq. Qed.

Lemma isNewline_eq a : isNewline a = true -> a = newline.
Proof.
  intros H. apply isNewline_code in H. unfold code in H.
  rewrite <- (ascii_N_embedding a), H. reflexivity.
Qed.

Lemma high_not_newline a : (128 <= code a)%N -> isNewline a = false.
Proof.
  intros H. destruct (isNewline a) eqn:E; [|done].
  apply isNewline_code in E. lia.
Qed.

Lemma high_not_space a : (128 <= code a)%N -> asciiSpace a = false.
Proof.
  intros H. destruct (asciiSpace a) eqn:E; [|done].
  apply asciiSpace_spec in E. lia.
Qed.

Lemma newline_space : asciiSpace newline = true.
Proof. reflexivity. Qed.

(** A byte that is no continuation byte ends every encoding before it. *)
Lemma stops_left x :
  ~ (128 <= code x < 192)%N -> stops space2 space3 x.
Proof.
  intros Hx. repeat split; intros.
  - destruct (space2 a x) eqn:E; [|done]. apply space2_spec in E. lia.
  - destruct (space3 a x c) eqn:E; [|done]. apply space3_spec in E. lia.
  - destruct (space3 a b x) eqn:E; [|done]. apply space3_spec in E. lia.
Qed.

Lemma stops_right x :
  (code x < 128)%N ->
  stops (fun b a => space2 a b) (fun c b a => space3 a b c) x.
Proof.
  intros Hx. repeat split; intros.
  - destruct (space2 x a) eqn:E; [|done]. apply space2_spec in E. lia.
  - destruct (space3 c x a) eqn:E; [|done]. apply space3_spec in E. lia.
  - destruct (space3 x b a) eqn:E; [|done]. apply space3_spec in E. lia.
Qed.

(** *** Trimming *)

Lemma TrimLeft_fixed l : leadsL l = false -> TrimLeft l = l.
Proof. apply strip_fixed. Qed.

Lemma TrimRight_fixed l : leadsR (rev l) = false -> TrimRight l = l.
Proof.
  intros H. unfold TrimRight. rewrite strip_fixed by exact H.
  apply rev_involutive.
Qed.

Lemma trimmed_TrimSpace l : trimmed l -> TrimSpace l = l.
Proof.
  intros [HL HR]. unfold TrimSpace.
  rewrite TrimLeft_fixed by done. apply TrimRight_fixed, HR.
Qed.

Lemma TrimRight_prefix s : exists w, s = TrimRight s ++ w.
Proof.
  unfold TrimRight.
  destruct (strip_suffix asciiSpace (fun b a => space2 a b)
              (fun c b a => space3 a b c) (rev s)) as [w Hw].
  exists (rev w). rewrite <- rev_app_distr, <- Hw. symmetry. apply rev_involutive.
Qed.

Lemma TrimLeft_suffix s : exists w, s = w ++ TrimLeft s.
Proof. apply strip_suffix. Qed.

Lemma TrimSpace_trimmed s : trimmed (TrimSpace s).
Proof.
  unfold TrimSpace. split.
  - destruct (leadsL (TrimRight (TrimLeft s))) eqn:E; [|done].
    destruct (TrimRight_prefix (TrimLeft s)) as [w Hw].
    apply (leads_app _ _ _ _ w) in E. fold leadsL in E. rewrite <- Hw in E.
    unfold leadsL, TrimLeft in E. rewrite leads_strip in E. done.
  - unfold TrimRight. rewrite rev_involutive. apply leads_strip.
Qed.

Lemma TrimSpace_infix s : exists u v, s = u ++ TrimSpace s ++ v.
Proof.
  destruct (TrimLeft_suffix s) as [u Hu].
  destruct (TrimRight_prefix (TrimLeft s)) as [v Hv].
  exists u, v. unfold TrimSpace. rewrite <- Hv. exact Hu.
Qed.

Lemma TrimSpace_noNL s : noNL s -> noNL (TrimSpace s).
Proof.
  intros H. destruct (TrimSpace_infix s) as (u & v & E).
  unfold noNL in *. rewrite E in H.
  apply Forall_app in H as [_ H]. apply Forall_app in H as [H _]. exact H.
Qed.

Lemma TrimSpace_nil : TrimSpace [] = [].
Proof. reflexivity. Qed.

Lemma WhiteSpace_TrimLeft s : WhiteSpace s -> TrimLeft s = [].
Proof.
  unfold TrimLeft. induction 1 as [|a s Ha _ IH|a b s Hab _ IH|a b c s Habc _ IH].
  - reflexivity.
  - rewrite strip_step1; done.
  - pose proof (space2_spec _ _ Hab).
    rewrite strip_step2; try done. apply high_not_space. lia.
  - pose proof (space3_spec _ _ _ Habc).
    destruct (space2 a b) eqn:E2.
    + rewrite strip_step2; try done; [|apply high_not_space; lia].
      pose proof (space2_spec _ _ E2). 
      (* a = 194 contradicts space3 *) 
      exfalso. revert Habc E2. unfold space2, space3.
      rewrite !orb_true_iff, !andb_true_iff, !orb_true_iff, !andb_true_iff,
        !N.eqb_eq, !N.leb_le. lia.
    + rewrite strip_step3; try done. apply high_not_space. lia.
Qed.

Lemma WhiteSpace_TrimSpace s : WhiteSpace s -> TrimSpace s = [].
Proof. intros H. unfold TrimSpace. rewrite WhiteSpace_TrimLeft; done. Qed.

Lemma TrimLeft_WhiteSpace s : TrimLeft s = [] -> WhiteSpace s.
Proof.
  unfold TrimLeft. induction s using (strip_cases asciiSpace space2 space3).
  - rewrite strip_fixed by done. intros ->. constructor.
  - rewrite strip_step1 by done. intros. apply ws_ascii; auto.
  - rewrite strip_step2 by done. intros. apply ws_two; auto.
  - rewrite strip_step3 by done. intros. apply ws_three; auto.
Qed.

(** *** [Split] and [Join] *)

Lemma Split_nonempty s : Split s <> [].
Proof.
  destruct s as [|a t]; simpl; [done|].
  destruct (isNewline a); [done|]. destruct (Split t); done.
Qed.

Lemma Split_cons a t :
  isNewline a = false ->
  exists l ls, Split t = l :: ls /\ Split (a :: t) = (a :: l) :: ls.
Proof.
  intros H. simpl. rewrite H.
  destruct (Split t) as [|l ls] eqn:E; [by apply Split_nonempty in E|].
  eauto.
Qed.

Lemma Split_newline a t : isNewline a = true -> Split (a :: t) = [] :: Split t.
Proof. intros H. simpl. rewrite H. reflexivity. Qed.

Lemma Split_noNL s : Forall noNL (Split s).
Proof.
  induction s as [|a t IH]; simpl.
  - repeat constructor.
  - destruct (isNewline a) eqn:E.
    + constructor; [constructor|done].
    + destruct (Split t) as [|l ls]; [repeat constructor; done|].
      inversion IH; subst. constructor; [constructor|]; done.
Qed.

Lemma Split_noNL_id l : noNL l -> Split l = [l].
Proof.
  induction 1 as [|a l Ha _ IH]; simpl; [done|]. rewrite Ha, IH. reflexivity.
Qed.

Lemma Split_app_noNL w t :
  noNL w ->
  exists l ls, Split t = l :: ls /\ Split (w ++ t) = (w ++ l) :: ls.
Proof.
  induction 1 as [|a w Ha _ IH]; simpl.
  - destruct (Split t) as [|l ls] eqn:E; [by apply Split_nonempty in E|]. eauto.
  - destruct IH as (l & ls & E1 & E2). rewrite Ha, E2. eauto.
Qed.

Lemma Split_app_newline u v :
  Split (u ++ newline :: v) = Split u ++ Split v.
Proof.
  induction u as [|a u IH]; simpl; [done|].
  destruct (isNewline a); [by rewrite IH|].
  rewrite IH. destruct (Split u) as [|l ls] eqn:E; [by apply Split_nonempty in E|].
  reflexivity.
Qed.

Lemma Split_snoc_noNL u w :
  noNL w ->
  exists ls l, Split u = ls ++ [l] /\ Split (u ++ w) = ls ++ [l ++ w].
Proof.
  intros Hw. induction u as [|a u IH].
  - exists [], []. simpl. rewrite Split_noNL_id by done. done.
  - destruct IH as (ls & l & E1 & E2). rewrite <- app_comm_cons.
    destruct (isNewline a) eqn:E.
    + rewrite !Split_newline by done. exists ([] :: ls), l.
      rewrite E1, E2. done.
    + simpl. rewrite E, E1, E2.
      destruct ls as [|l0 ls]; simpl.
      * exists [], (a :: l). done.
      * exists ((a :: l0) :: ls), l. done.
Qed.

Lemma Join_cons l g : g <> [] -> Join (l :: g) = l ++ newline :: Join g.
Proof. destruct g; done. Qed.

Lemma Join_snoc g l : g <> [] -> Join (g ++ [l]) = Join g ++ newline :: l.
Proof.
  induction g as [|l0 g IH]; [done|]. intros _.
  destruct g as [|l1 g]; [done|].
  rewrite <- app_comm_cons. rewrite Join_cons by done.
  rewrite IH by done. rewrite (Join_cons l0) by done.
  rewrite <- app_assoc. reflexivity.
Qed.

Lemma Split_Join g : g <> [] -> Forall noNL g -> Split (Join g) = g.
Proof.
  induction g as [|l g IH]; [done|]. intros _ H. inversion H; subst.
  destruct g as [|l1 g]; [by apply Split_noNL_id|].
  rewrite Join_cons by done. rewrite Split_app_newline.
  rewrite Split_noNL_id by done. rewrite IH by done. reflexivity.
Qed.

Lemma Join_app g1 g2 :
  g1 <> [] -> g2 <> [] -> Join (g1 ++ g2) = Join g1 ++ newline :: Join g2.
Proof.
  intros H1 H2. induction g1 as [|l g1 IH]; [done|].
  destruct g1 as [|l1 g1].
  - simpl app. rewrite Join_cons by done. done.
  - rewrite <- app_comm_cons. rewrite Join_cons by done.
    rewrite IH by done. rewrite (Join_cons l) by done.
    rewrite <- app_assoc. reflexivity.
Qed.

(** *** Trimming a text does not change its trimmed lines *)

Lemma removeBlank_cons_blank l ls :
  TrimSpace l = [] -> removeBlank (l :: ls) = removeBlank ls.
Proof.
  intros H. unfold removeBlank. rewrite filter_cons.
  rewrite H. simpl. destruct (decide (true = false)); done.
Qed.

Lemma space2_not_space3 a b c : space2 a b = true -> space3 a b c = true -> False.
Proof.
  unfold space2, space3.
  rewrite !orb_true_iff, !andb_true_iff, !orb_true_iff, !andb_true_iff,
    !N.eqb_eq, !N.leb_le. lia.
Qed.

Lemma spaceRun_TrimLeft w t : spaceRun w -> TrimLeft (w ++ t) = TrimLeft t.
Proof.
  unfold TrimLeft. destruct 1 as [a Ha|a b Hab|a b c Habc]; cbn [app].
  - apply strip_step1; done.
  - pose proof (space2_spec _ _ Hab).
    apply strip_step2; [apply high_not_space; lia|done].
  - pose proof (space3_spec _ _ _ Habc).
    apply strip_step3; [apply high_not_space; lia| |done].
    destruct (space2 a b) eqn:E; [|done].
    destruct (space2_not_space3 a b c); done.
Qed.

Lemma spaceRun_TrimRight u w : spaceRun w -> TrimRight (u ++ w) = TrimRight u.
Proof.
  unfold TrimRight. rewrite rev_app_distr.
  destruct 1 as [a Ha|a b Hab|a b c Habc]; cbn [rev app].
  - rewrite strip_step1; done.
  - pose proof (space2_spec _ _ Hab).
    rewrite strip_step2; [done|apply high_not_space; lia|done].
  - pose proof (space3_spec _ _ _ Habc).
    rewrite strip_step3; [done|apply high_not_space; lia| |done].
    destruct (space2 b c) eqn:E; [|done]. apply space2_spec in E. lia.
Qed.

Lemma spaceRun_head w :
  spaceRun w -> exists x w', w = x :: w' /\ ~ (128 <= code x < 192)%N.
Proof.
  destruct 1 as [a Ha|a b Hab|a b c Habc].
  - apply asciiSpace_spec in Ha. exists a, []. split; [done|lia].
  - apply space2_spec in Hab. exists a, [b]. split; [done|lia].
  - apply space3_spec in Habc. exists a, [b; c]. split; [done|lia].
Qed.

Lemma spaceRun_TrimSpace l w : spaceRun w -> TrimSpace (l ++ w) = TrimSpace l.
Proof.
  intros Hw. unfold TrimSpace.
  destruct (TrimLeft l) as [|x0 l0] eqn:E.
  - unfold TrimLeft in *. rewrite strip_app_all by done.
    fold (TrimLeft w). rewrite <- (app_nil_r w).
    rewrite spaceRun_TrimLeft by done. reflexivity.
  - destruct (spaceRun_head w Hw) as (x & w' & -> & Hx).
    unfold TrimLeft in *. rewrite strip_app_stop.
    + rewrite E. apply spaceRun_TrimRight, Hw.
    + apply stops_left, Hx.
    + rewrite E. done.
Qed.

Lemma spaceRun_newline_or_noNL w :
  spaceRun w -> w = [newline] \/ noNL w.
Proof.
  destruct 1 as [a Ha|a b Hab|a b c Habc].
  - destruct (isNewline a) eqn:E.
    + left. f_equal. by apply isNewline_eq.
    + right. repeat constructor. done.
  - apply space2_spec in Hab. right.
    repeat constructor; apply high_not_newline; lia.
  - apply space3_spec in Habc. right.
    repeat constructor; apply high_not_newline; lia.
Qed.

Lemma trimmedLines_run_l w t : spaceRun w -> trimmedLines (w ++ t) = trimmedLines t.
Proof.
  intros Hw. unfold trimmedLines.
  destruct (spaceRun_newline_or_noNL w Hw) as [-> | Hn].
  - simpl. by rewrite removeBlank_cons_blank.
  - destruct (Split_app_noNL w t Hn) as (l & ls & -> & ->). simpl.
    f_equal. f_equal. unfold TrimSpace. rewrite spaceRun_TrimLeft; done.
Qed.

Lemma trimmedLines_run_r u w : spaceRun w -> trimmedLines (u ++ w) = trimmedLines u.
Proof.
  intros Hw. unfold trimmedLines.
  destruct (spaceRun_newline_or_noNL w Hw) as [-> | Hn].
  - rewrite Split_app_newline. simpl. rewrite map_app. unfold removeBlank.
    rewrite filter_app. simpl. rewrite filter_cons. simpl.
    destruct (decide (true = false)); [done|]. rewrite filter_nil. apply app_nil_r.
  - destruct (Split_snoc_noNL u w Hn) as (ls & l & -> & ->).
    rewrite !map_app. simpl. rewrite spaceRun_TrimSpace; done.
Qed.

Lemma trimmedLines_TrimLeft s : trimmedLines (TrimLeft s) = trimmedLines s.
Proof.
  unfold TrimLeft. induction s using (strip_cases asciiSpace space2 space3).
  - rewrite strip_fixed; done.
  - rewrite strip_step1 by done. rewrite IHs.
    symmetry. apply (trimmedLines_run_l [a]). by constructor.
  - rewrite strip_step2 by done. rewrite IHs.
    symmetry. apply (trimmedLines_run_l [a; b]). by constructor.
  - rewrite strip_step3 by done. rewrite IHs.
    symmetry. apply (trimmedLines_run_l [a; b; c]). by constructor.
Qed.

Lemma trimmedLines_TrimRight s : trimmedLines (TrimRight s) = trimmedLines s.
Proof.
  unfold TrimRight. rewrite <- (rev_involutive s) at 2.
  generalize (rev s). clear s. intros r.
  induction r using (strip_cases asciiSpace (fun b a => space2 a b)
                       (fun c b a => space3 a b c)).
  - rewrite strip_fixed; done.
  - rewrite strip_step1 by done. rewrite IHr. cbn [rev].
    symmetry. apply trimmedLines_run_r. by constructor.
  - rewrite strip_step2 by done. rewrite IHr. cbn [rev]. rewrite <- app_assoc.
    symmetry. apply trimmedLines_run_r. by constructor.
  - rewrite strip_step3 by done. rewrite IHr. cbn [rev]. rewrite <- !app_assoc.
    symmetry. apply trimmedLines_run_r. by constructor.
Qed.

Lemma trimmedLines_TrimSpace s : trimmedLines (TrimSpace s) = trimmedLines s.
Proof.
  unfold TrimSpace. rewrite trimmedLines_TrimRight. apply trimmedLines_TrimLeft.
Qed.

(** *** The loop of [SplitMessage] *)

Lemma isEmpty_true s : isEmpty s = true <-> s = [].
Proof. destruct s; simpl; split; done. Qed.

Lemma isEmpty_false s : isEmpty s = false <-> s <> [].
Proof. destruct s; simpl; split; done. Qed.

Lemma TrimSpace_idem s : TrimSpace (TrimSpace s) = TrimSpace s.
Proof. apply trimmed_TrimSpace, TrimSpace_trimmed. Qed.

Lemma newline_code : code newline = 10%N.
Proof. reflexivity. Qed.

Lemma Join_nonempty g : g <> [] -> Forall cleanLine g -> Join g <> [].
Proof.
  destruct g as [|l g]; [done|]. intros _ H. inversion H as [|? ? [Hl _] _]; subst.
  destruct g; [done|]. rewrite Join_cons by done.
  destruct l; done.
Qed.

Lemma Join_leadsL g : g <> [] -> Forall cleanLine g -> leadsL (Join g) = false.
Proof.
  destruct g as [|l g]; [done|]. intros _ H.
  inversion H as [|? ? (Hl & [HL _] & _) _]; subst.
  destruct g as [|l1 g]; [done|]. rewrite Join_cons by done.
  apply leads_app_stop; [|done|done].
  apply stops_left. rewrite newline_code. lia.
Qed.

Lemma Join_leadsR g :
  g <> [] -> Forall cleanLine g -> leadsR (rev (Join g)) = false.
Proof.
  destruct g as [|l g _] using rev_ind; [done|]. intros _ H.
  apply Forall_app in H as [_ H].
  inversion H as [|? ? (Hl & [_ HR] & _) _]; subst.
  destruct g as [|l1 g]; [done|].
  rewrite Join_snoc by done. rewrite rev_app_distr. cbn [rev].
  rewrite <- app_assoc. cbn [app].
  apply leads_app_stop; [|by destruct l using rev_ind; [|rewrite rev_app_distr]|done].
  apply stops_right. rewrite newline_code. lia.
Qed.

Lemma Join_trimmed g : g <> [] -> Forall cleanLine g -> trimmed (Join g).
Proof. intros. split; [by apply Join_leadsL|by apply Join_leadsR]. Qed.

Lemma Join_TrimSpace g : Forall cleanLine g -> TrimSpace (Join g) = Join g.
Proof.
  intros H. destruct (decide (g = [])) as [->|Hne]; [done|].
  by apply trimmed_TrimSpace, Join_trimmed.
Qed.

Lemma Join_isEmpty g : Forall cleanLine g -> isEmpty (Join g) = true -> g = [].
Proof.
  intros H E. destruct (decide (g = [])) as [->|Hne]; [done|].
  apply isEmpty_true in E. by apply Join_nonempty in E.
Qed.

Lemma TrimSpace_cleanLine l :
  noNL l -> TrimSpace l <> [] -> cleanLine (TrimSpace l).
Proof.
  intros Hn Hne. split; [done|]. split; [apply TrimSpace_trimmed|].
  by apply TrimSpace_noNL.
Qed.

Lemma removeBlank_TrimSpace_cons l ls :
  removeBlank (map TrimSpace (l :: ls)) =
  (if isEmpty (TrimSpace l) then [] else [TrimSpace l])
    ++ removeBlank (map TrimSpace ls).
Proof.
  unfold removeBlank. simpl. rewrite filter_cons, TrimSpace_idem.
  destruct (isEmpty (TrimSpace l)); destruct (decide _); done.
Qed.

Lemma len_app s t : len (s ++ t) = len s + len t.
Proof. unfold len. rewrite length_app. lia. Qed.

Lemma wrapInt_small z : - 2 ^ 63 <= z <= maxInt -> wrapInt z = z.
Proof.
  unfold wrapInt, maxInt. intros H. rewrite Z.mod_small; lia.
Qed.

Lemma addInt_len a b :
  0 <= a -> 0 <= b -> a + b + 1 <= maxInt -> addInt (addInt a b) 1 = a + b + 1.
Proof.
  intros Ha Hb H. unfold addInt, maxInt in *.
  rewrite (wrapInt_small (a + b)) by (unfold maxInt; lia).
  apply wrapInt_small. unfold maxInt. lia.
Qed.

Lemma len_nonneg s : 0 <= len s.
Proof. unfold len. lia. Qed.

Lemma joinLen_nonneg ls : 0 <= joinLen ls.
Proof.
  induction ls as [|l ls IH]; simpl; [lia|]. pose proof (len_nonneg l). lia.
Qed.

Lemma joinLen_app ls1 ls2 : joinLen (ls1 ++ ls2) = joinLen ls1 + joinLen ls2.
Proof. induction ls1 as [|l ls1 IH]; simpl; lia. Qed.

Lemma len_Join ls : ls <> [] -> len (Join ls) = joinLen ls - 1.
Proof.
  induction ls as [|l ls IH]; [done|]. intros _.
  destruct ls as [|l1 ls]; [simpl; lia|].
  rewrite Join_cons by done.
  change (l ++ newline :: Join (l1 :: ls))
    with (l ++ [newline] ++ Join (l1 :: ls)).
  rewrite !len_app, IH by done. change (len [newline]) with 1.
  change (joinLen (l :: l1 :: ls)) with (len l + 1 + joinLen (l1 :: ls)). lia.
Qed.

Lemma joinLen_Split s : joinLen (Split s) = len s + 1.
Proof.
  induction s as [|a t IH]; [reflexivity|]. simpl Split.
  change (len (a :: t)) with (Z.of_nat (S (length t))).
  unfold len in IH.
  destruct (isNewline a).
  - change (joinLen ([] :: Split t)) with (0 + 1 + joinLen (Split t)). lia.
  - destruct (Split t) as [|l ls] eqn:E; [by apply Split_nonempty in E|].
    simpl in *. unfold len in *. simpl. lia.
Qed.

Lemma len_TrimSpace l : len (TrimSpace l) <= len l.
Proof.
  destruct (TrimSpace_infix l) as (u & v & E). rewrite E at 2.
  rewrite !len_app. pose proof (len_nonneg u). pose proof (len_nonneg v). lia.
Qed.

Lemma joinLen_trimmed ls :
  joinLen (removeBlank (map TrimSpace ls)) <= joinLen ls.
Proof.
  induction ls as [|l ls IH]; [reflexivity|].
  rewrite removeBlank_TrimSpace_cons.
  pose proof (len_TrimSpace l). pose proof (len_nonneg l).
  destruct (isEmpty (TrimSpace l)); simpl; lia.
Qed.

Lemma joinLen_trimmedLines text : joinLen (trimmedLines text) <= len text + 1.
Proof.
  unfold trimmedLines. rewrite <- joinLen_Split. apply joinLen_trimmed.
Qed.

Lemma loop_groups limit lines :
  Forall noNL lines ->
  forall groups gcur,
    Forall (Forall cleanLine) groups -> Forall cleanLine gcur ->
    Forall (fits limit) groups -> (gcur = [] \/ fits limit gcur) ->
    joinLen gcur + joinLen (removeBlank (map TrimSpace lines)) <= maxInt + 1 ->
    exists groups' gcur',
      fold_left (loopBody limit) lines (map Join groups, Join gcur)
        = (map Join groups', Join gcur')
      /\ Forall (Forall cleanLine) groups' /\ Forall cleanLine gcur'
      /\ Forall (fits limit) groups' /\ (gcur' = [] \/ fits limit gcur')
      /\ concat groups' ++ gcur'
         = concat groups ++ gcur ++ removeBlank (map TrimSpace lines).
Proof.
  induction 1 as [|line lines Hline _ IH]; intros groups gcur Hg Hc Fg Fc HB.
  - exists groups, gcur. simpl. unfold removeBlank. rewrite filter_nil, app_nil_r. done.
  - cbn [fold_left]. rewrite removeBlank_TrimSpace_cons in HB |- *.
    unfold loopBody at 2.
    destruct (isEmpty (TrimSpace line)) eqn:El.
    { simpl app in *. apply IH; done. }
    apply isEmpty_false in El.
    pose proof (TrimSpace_cleanLine line Hline El) as Hcl.
    rewrite joinLen_app in HB.
    change (joinLen [TrimSpace line]) with (len (TrimSpace line) + 1 + 0) in HB.
    pose proof (joinLen_nonneg (removeBlank (map TrimSpace lines))) as Hrest.
    pose proof (len_nonneg (TrimSpace line)) as Hlen.
    destruct (isEmpty (Join gcur)) eqn:Ee.
    + rewrite andb_false_r. cbn [negb].
      apply Join_isEmpty in Ee; [|done]. subst gcur. simpl.
      destruct (IH groups [TrimSpace line]) as (g' & c' & E & ? & ? & ? & ? & Ecat);
        try done.
      * by constructor.
      * right. split; [done|]. by left.
      * exists g', c'. simpl in E. rewrite E. repeat split; try done.
    + assert (gcur <> []) as Hne by (intros ->; done).
      rewrite andb_true_r. cbn [negb].
      pose proof (len_Join gcur Hne) as HJ.
      rewrite addInt_len by (try apply len_nonneg; lia).
      destruct (len (Join gcur) + len (TrimSpace line) + 1 >? limit) eqn:Ec.
      * destruct Fc as [->|Fc]; [done|].
        rewrite Join_TrimSpace by done.
        destruct (IH (groups ++ [gcur]) [TrimSpace line])
          as (g' & c' & E & ? & ? & ? & ? & Ecat).
        -- apply Forall_app. split; [done|]. by constructor.
        -- by constructor.
        -- apply Forall_app. split; [done|]. by constructor.
        -- right. split; [done|]. by left.
        -- pose proof (joinLen_nonneg gcur). simpl. lia.
        -- exists g', c'. rewrite map_app in E. simpl in E. rewrite E.
           repeat split; try done. rewrite Ecat, concat_app. simpl.
           rewrite app_nil_r, <- !app_assoc. done.
      * rewrite Z.gtb_ltb, Z.ltb_ge in Ec.
        rewrite <- app_assoc. cbn [app].
        rewrite <- Join_snoc by done.
        assert (joinLen (gcur ++ [TrimSpace line])
                  + joinLen (removeBlank (map TrimSpace lines)) <= maxInt + 1)
          as HB' by (rewrite joinLen_app; simpl; lia).
        destruct (IH groups (gcur ++ [TrimSpace line]))
          as (g' & c' & E & ? & ? & ? & ? & Ecat); try done.
        -- apply Forall_app. split; [done|]. by constructor.
        -- right. split; [by destruct gcur|]. right.
           rewrite Join_snoc by done.
           change (Join gcur ++ newline :: TrimSpace line)
             with (Join gcur ++ [newline] ++ TrimSpace line).
           rewrite !len_app. change (len [newline]) with 1. lia.
        -- exists g', c'. rewrite E. repeat split; try done.
           rewrite Ecat, <- !app_assoc. done.
Qed.

Lemma SplitMessage_groups text limit :
  len text <= maxInt ->
  exists groups,
    SplitMessage text limit = map Join groups
    /\ concat groups = trimmedLines text
    /\ Forall (Forall cleanLine) groups
    /\ Forall (fits limit) groups.
Proof.
  intros Hlen. unfold SplitMessage.
  destruct (loop_groups limit (Split (TrimSpace text)) (Split_noNL _) [] [])
    as (g & c & E & Hg & Hc & Fg & Fc & Ecat); try done; [by left| |].
  { fold (trimmedLines (TrimSpace text)). rewrite trimmedLines_TrimSpace.
    pose proof (joinLen_trimmedLines text). simpl. lia. }
  simpl in E. rewrite E. simpl in Ecat.
  fold (trimmedLines (TrimSpace text)) in Ecat.
  rewrite trimmedLines_TrimSpace in Ecat.
  rewrite Join_TrimSpace by done.
  destruct (isEmpty (Join c)) eqn:Ee; cbn [negb].
  - apply Join_isEmpty in Ee; [|done]. subst c. rewrite app_nil_r in Ecat.
    exists g. done.
  - assert (c <> []) as Hne by (intros ->; done).
    destruct Fc as [->|Fc]; [done|].
    exists (g ++ [c]). rewrite map_app, concat_app. simpl. rewrite app_nil_r.
    repeat split; try done; apply Forall_app; split; try done; by constructor.
Qed.

(** *** What [SplitMessage] returns *)

Lemma cleanLine_not_blank l : cleanLine l -> isEmpty (TrimSpace l) = false.
Proof.
  intros (Hne & Ht & _). rewrite trimmed_TrimSpace by done. by apply isEmpty_false.
Qed.

Lemma removeBlank_clean ls : Forall cleanLine ls -> removeBlank ls = ls.
Proof.
  unfold removeBlank. induction 1 as [|l ls Hl _ IH]; [done|].
  rewrite filter_cons, IH. apply cleanLine_not_blank in Hl.
  destruct (decide _); done.
Qed.

Lemma trimmedLines_clean text : Forall cleanLine (trimmedLines text).
Proof.
  unfold trimmedLines, removeBlank. apply Forall_forall. intros l Hl.
  apply list_elem_of_filter in Hl as [Hb Hl].
  apply list_elem_of_fmap in Hl as (l0 & -> & Hl0).
  rewrite TrimSpace_idem in Hb. apply isEmpty_false in Hb.
  apply TrimSpace_cleanLine; [|done].
  pose proof (Split_noNL text) as H. rewrite Forall_forall in H. by apply H.
Qed.

Lemma Join_concat groups :
  Forall (fun g => g <> []) groups -> Join (map Join groups) = Join (concat groups).
Proof.
  induction 1 as [|g groups Hg Hgs IH]; [done|].
  destruct groups as [|g1 groups].
  - simpl. by rewrite app_nil_r.
  - rewrite map_cons. rewrite Join_cons by done. rewrite IH.
    change (concat (g :: g1 :: groups)) with (g ++ concat (g1 :: groups)).
    rewrite Join_app; [done|done|].
    inversion Hgs; subst. simpl. by destruct g1.
Qed.

Lemma WhiteSpace_not_trimmed c : c <> [] -> trimmed c -> ~ WhiteSpace c.
Proof.
  intros Hne Ht Hw. apply WhiteSpace_TrimSpace in Hw.
  rewrite trimmed_TrimSpace in Hw; done.
Qed.

Lemma SplitMessage_keeps_lines (text : gostring) (limit : Z) :
  len text <= maxInt ->
  removeBlank (Split (Join (SplitMessage text limit))) = trimmedLines text.
Proof.
  intros Hlen.
  destruct (SplitMessage_groups text limit Hlen) as (groups & -> & Ecat & Hc & Hf).
  rewrite <- Ecat.
  assert (Forall cleanLine (concat groups)) as Hcl
    by (rewrite Ecat; apply trimmedLines_clean).
  rewrite Join_concat by (eapply Forall_impl; [exact Hf|by intros g [? _]]).
  destruct (decide (concat groups = [])) as [->|Hne]; [done|].
  rewrite Split_Join; [by apply removeBlank_clean|done|].
  eapply Forall_impl; [exact Hcl|]. by intros l (_ & _ & ?).
Qed.

(** C2: for every input string and every limit that is at least the
    length of the longest trimmed line, the lines of the chunks joined
    with line feeds, without the blank ones, are the lines of the input,
    each trimmed, without the blank ones: same lines, same order, each
    once. (A Go string has at most [maxInt] bytes.) *)
Theorem SplitMessage_roundtrip (text : gostring) (limit : Z) :
  len text <= maxInt ->
  (forall l, l ∈ map TrimSpace (Split text) -> len l <= limit) ->
  removeBlank (Split (Join (SplitMessage text limit)))
    = removeBlank (map TrimSpace (Split text))
  /\ Join (removeBlank (Split (Join (SplitMessage text limit))))
     = Join (removeBlank (map TrimSpace (Split text))).
Proof.
  intros Hlen _. rewrite SplitMessage_keeps_lines by done. done.
Qed.

Lemma SplitMessage_roundtrip_witness :
  removeBlank (Split (Join (SplitMessage (Join example_lines) 10)))
    = removeBlank (map TrimSpace (Split (Join example_lines)))
  /\ Join (removeBlank (Split (Join (SplitMessage (Join example_lines) 10))))
     = Join (removeBlank (map TrimSpace (Split (Join example_lines)))).
Proof.
  apply SplitMessage_roundtrip; [vm_compute; discriminate|].
  intros l Hl. apply list_elem_of_In in Hl. vm_compute in Hl.
  repeat (destruct Hl as [<-|Hl]; [vm_compute; discriminate|]). destruct Hl.
Defined.

(** C3: for every input string and every limit, the chunks are the joins
    of consecutive groups of the trimmed non-blank lines of the input, so
    no line is split across chunks; every chunk is non-empty and not all
    white space; and every chunk is within the limit, or is exactly one
    trimmed line that is longer than the limit. For the lines
    [a], [], [b], [xxxxxxxxxx] and limit 5 the chunks are [a\nb] and
    [xxxxxxxxxx]. *)
Theorem SplitMessage_chunks :
  (forall (text : gostring) (limit : Z),
     len text <= maxInt ->
     exists groups : list (list gostring),
       SplitMessage text limit = map Join groups
       /\ concat groups = trimmedLines text
       /\ Forall (fun g =>
            Join g <> [] /\ ~ WhiteSpace (Join g)
            /\ Split (Join g) = g
            /\ (len (Join g) <= limit
                \/ exists l, g = [l] /\ Join g = l /\ limit < len l)) groups)
  /\ SplitMessage (Join example_lines) 5
     = [str "a" ++ [newline] ++ str "b"; str "xxxxxxxxxx"].
Proof.
  split; [|reflexivity].
  intros text limit Hlen.
  destruct (SplitMessage_groups text limit Hlen) as (groups & E & Ecat & Hc & Hf).
  exists groups. split; [done|]. split; [done|].
  apply Forall_forall. intros g Hg.
  rewrite Forall_forall in Hc, Hf. specialize (Hc g Hg).
  destruct (Hf g Hg) as [Hne Hfit].
  split; [by apply Join_nonempty|]. split.
  { apply WhiteSpace_not_trimmed; [by apply Join_nonempty|by apply Join_trimmed]. }
  split.
  { apply Split_Join; [done|]. eapply Forall_impl; [exact Hc|]. by intros l (_ & _ & ?). }
  destruct (Z_le_gt_dec (len (Join g)) limit) as [Hle|Hgt]; [by left|]. right.
  destruct Hfit as [H1|Hle]; [|lia].
  destruct g as [|l [|l1 g]]; try done. exists l. simpl in Hgt. split; [done|]. split; [done|lia].
Qed.

Lemma SplitMessage_chunks_witness :
  exists groups : list (list gostring),
    SplitMessage (Join example_lines) 5 = map Join groups
    /\ concat groups = trimmedLines (Join example_lines)
    /\ Forall (fun g =>
         Join g <> [] /\ ~ WhiteSpace (Join g)
         /\ Split (Join g) = g
         /\ (len (Join g) <= 5
             \/ exists l, g = [l] /\ Join g = l /\ 5 < len l)) groups.
Proof.
  apply (proj1 SplitMessage_chunks (Join example_lines) 5).
  vm_compute. discriminate.
Defined.

(** C10: for every limit, [SplitMessage] of the empty string, or of a
    string of white space and line feeds only, is the empty list. *)
Theorem SplitMessage_blank (text : gostring) (limit : Z) :
  WhiteSpace text -> SplitMessage text limit = [].
Proof.
  intros H. unfold SplitMessage. rewrite WhiteSpace_TrimSpace by done. reflexivity.
Qed.

Lemma SplitMessage_blank_witness :
  SplitMessage [] 5 = [] /\ SplitMessage blank_text 5 = [].
Proof.
  split.
  - apply SplitMessage_blank. constructor.
  - apply SplitMessage_blank. unfold blank_text. simpl.
    repeat first [ apply ws_nil
                 | apply ws_ascii; [reflexivity|]
                 | apply ws_two; [reflexivity|]
                 | apply ws_three; [reflexivity|] ].
Defined.

End Chunker.

(** ** The data fetcher *)

Section Fetching.
Import gostrings http fetcher.

Section FetchTheory.
Context `{!JSONArray Follow.t, !JSONArray Mod.t, !JSONArray Vip.t,
          !JSONArray Founders.t}.

(** C4: for each of the four fetch operations, when the request is built
    and the server answers: status 404 gives the error [user not found];
    status 400 gives the no-entries error of the kind; any other status
    than 200 gives an error that carries the status code; and status 200
    with a body that the JSON decoder rejects gives a decode error (the
    operation returns an error value: it is a total function). *)
Theorem fetch_status_errors (k : Kind) (f : Fetcher) (username : gostring)
    (resp : Response) :
  answers f (endpoint k ++ username) resp ->
  (StatusCode resp = 404 ->
     fetchError k f username = Some (str "user not found"))
  /\ (StatusCode resp = 400 ->
        fetchError k f username = Some (noEntries k))
  /\ (StatusCode resp <> 200 -> StatusCode resp <> 400 ->
      StatusCode resp <> 404 ->
        fetchError k f username
        = Some (str "unexpected status code: " ++ Itoa (StatusCode resp)))
  /\ (StatusCode resp = 200 ->
      forall err, decodeError k (Body resp) = Some err ->
        fetchError k f username
        = Some (str "failed to decode response: " ++ err)).
Proof.
  intros (req & Hreq & Hdo).
  destruct k; unfold fetchError, decodeError, FetchFollows, FetchMods,
    FetchVips, FetchFounders; cbn [endpoint] in Hreq; cbv zeta;
    rewrite Hreq, Hdo; unfold StatusOK, StatusBadRequest, StatusNotFound;
    (repeat split;
     [ intros ->; reflexivity
     | intros ->; reflexivity
     | intros H2 H4 H44;
       apply Z.eqb_neq in H2, H4, H44; rewrite H2, H4, H44; reflexivity
     | intros -> err; cbn [Z.eqb Pos.eqb negb];
       destruct (Decode (Body resp)); cbn [errorOf];
       [discriminate | intros [= ->]; reflexivity] ]).
Qed.
End FetchTheory.

Section FetchExample.
#[local] Existing Instance rejectJSON.

Lemma fetch_status_errors_witness :
  fetchError KVips (serverAnswering 404 []) (str "alice")
    = Some (str "user not found")
  /\ fetchError KMods (serverAnswering 400 []) (str "alice")
     = Some (str "the user does not have any moderators on their channel")
  /\ fetchError KFollows (serverAnswering 503 []) (str "alice")
     = Some (str "unexpected status code: 503")
  /\ fetchError KFounders (serverAnswering 200 (str "<html>")) (str "alice")
     = Some (str "failed to decode response: unexpected end of JSON input").
Proof.
  split; [|split; [|split]].
  - refine (proj1 (fetch_status_errors KVips (serverAnswering 404 [])
                     (str "alice") {| StatusCode := 404; Body := [] |} _) _).
    + eexists. split; reflexivity.
    + reflexivity.
  - refine (proj1 (proj2 (fetch_status_errors KMods (serverAnswering 400 [])
                     (str "alice") {| StatusCode := 400; Body := [] |} _)) _).
    + eexists. split; reflexivity.
    + reflexivity.
  - refine (proj1 (proj2 (proj2 (fetch_status_errors KFollows
                     (serverAnswering 503 [])
                     (str "alice") {| StatusCode := 503; Body := [] |} _))) _ _ _).
    + eexists. split; reflexivity.
    + discriminate.
    + discriminate.
    + discriminate.
  - refine (proj2 (proj2 (proj2 (fetch_status_errors KFounders
                     (serverAnswering 200 (str "<html>"))
                     (str "alice")
                     {| StatusCode := 200; Body := str "<html>" |} _))) _ _ _).
    + eexists. split; reflexivity.
    + reflexivity.
    + reflexivity.
Defined.

End FetchExample.

End Fetching.

(** ** The response formatter *)

Section Formatting.
Import gostrings formatter.

Lemma addInt_succ (i : nat) :
  Z.of_nat i + 1 <= maxInt -> addInt (Z.of_nat i) 1 = Z.of_nat i + 1.
Proof.
  intros H. unfold addInt, wrapInt, maxInt in *. rewrite Z.mod_small; lia.
Qed.

Lemma fold_numbered {A} (line : Z -> A -> gostring)
    (step : Z * gostring -> A -> Z * gostring) (rs : list A) :
  (forall i response r,
     step (i, response) r = (i + 1, response ++ line (addInt i 1) r)) ->
  forall (i : nat) (acc : gostring),
    Z.of_nat (i + length rs) <= maxInt ->
    snd (fold_left step rs (Z.of_nat i, acc))
    = acc ++ concat (imap (fun j r => line (Z.of_nat (i + j) + 1) r) rs).
Proof.
  intros Hstep. induction rs as [|r rs IH]; intros i acc Hlen; simpl.
  - by rewrite app_nil_r.
  - simpl in Hlen. rewrite Hstep. rewrite addInt_succ by lia.
    replace (Z.of_nat i + 1) with (Z.of_nat (S i)) by lia.
    rewrite IH by lia. rewrite <- app_assoc. f_equal.
    replace (Z.of_nat (i + 0) + 1) with (Z.of_nat (S i)) by lia. f_equal.
    f_equal. apply imap_ext. intros j x _. simpl. f_equal. lia.
Qed.

(** C6: for every channel name, each formatter returns for no record
    exactly its header line, and for [N] records the header followed by
    [N] lines, the line of the record at position [i] (from 0) carrying
    the number [i+1], in the order of the list, each with a link to the
    channel of its record. (A Go slice has at most [maxInt] elements.) *)
Theorem formatters_number_records (username : gostring) :
  (FormatFollows username [] = htmlLink username username
                                 ++ str " is following:" ++ [newline]
   /\ FormatMods username [] = htmlLink username username
                                 ++ str "'s list of channel moders:" ++ [newline]
   /\ FormatVips username [] = htmlLink username username
                                 ++ str "'s list of channel vips:" ++ [newline]
   /\ FormatFounders username [] = htmlLink username username
                                 ++ str "'s list of channel founders:" ++ [newline])
  /\ (forall rs : list Follow.t,
        Z.of_nat (length rs) <= maxInt ->
        FormatFollows username rs
        = FormatFollows username []
          ++ concat (imap (fun i r =>
               numberedLine (Z.of_nat i + 1) (Follow.Login r)
                 (Follow.DisplayName r) (str "followed") (Follow.FollowedAt r)) rs))
  /\ (forall rs : list Mod.t,
        Z.of_nat (length rs) <= maxInt ->
        FormatMods username rs
        = FormatMods username []
          ++ concat (imap (fun i r =>
               numberedLine (Z.of_nat i + 1) (Mod.Login r)
                 (Mod.DisplayName r) (str "moded") (Mod.GrantedAt r)) rs))
  /\ (forall rs : list Vip.t,
        Z.of_nat (length rs) <= maxInt ->
        FormatVips username rs
        = FormatVips username []
          ++ concat (imap (fun i r =>
               numberedLine (Z.of_nat i + 1) (Vip.Login r)
                 (Vip.DisplayName r) (str "viped") (Vip.GrantedAt r)) rs))
  /\ (forall rs : list Founders.t,
        Z.of_nat (length rs) <= maxInt ->
        FormatFounders username rs
        = FormatFounders username []
          ++ concat (imap (fun i r =>
               numberedLine (Z.of_nat i + 1) (Founders.Login r)
                 (Founders.DisplayName r) (str "founded") (Founders.FirstMonth r)) rs)).
Proof.
  split.
  { unfold FormatFollows, FormatMods, FormatVips, FormatFounders, htmlLink.
    cbn [fold_left snd]. rewrite <- !app_assoc. done. }
  repeat split; intros rs Hlen.
  - unfold FormatFollows. cbn [fold_left snd].
    apply (fold_numbered (fun n r => numberedLine n (Follow.Login r)
             (Follow.DisplayName r) (str "followed") (Follow.FollowedAt r)) _ rs) with (i := 0%nat); [|exact Hlen].
    intros i response r. unfold numberedLine, htmlLink.
    rewrite <- !app_assoc. reflexivity.
  - unfold FormatMods. cbn [fold_left snd].
    apply (fold_numbered (fun n r => numberedLine n (Mod.Login r)
             (Mod.DisplayName r) (str "moded") (Mod.GrantedAt r)) _ rs) with (i := 0%nat); [|exact Hlen].
    intros i response r. unfold numberedLine, htmlLink.
    rewrite <- !app_assoc. reflexivity.
  - unfold FormatVips. cbn [fold_left snd].
    apply (fold_numbered (fun n r => numberedLine n (Vip.Login r)
             (Vip.DisplayName r) (str "viped") (Vip.GrantedAt r)) _ rs) with (i := 0%nat); [|exact Hlen].
    intros i response r. unfold numberedLine, htmlLink.
    rewrite <- !app_assoc. reflexivity.
  - unfold FormatFounders. cbn [fold_left snd].
    apply (fold_numbered (fun n r => numberedLine n (Founders.Login r)
             (Founders.DisplayName r) (str "founded") (Founders.FirstMonth r)) _ rs) with (i := 0%nat); [|exact Hlen].
    intros i response r. unfold numberedLine, htmlLink.
    rewrite <- !app_assoc. reflexivity.
Qed.

Lemma formatters_number_records_witness :
  FormatVips (str "bob")
    [ {| Vip.ID := str "1"; Vip.DisplayName := str "Ann"; Vip.Login := str "ann";
         Vip.Avatar := []; Vip.Banned := false;
         Vip.GrantedAt := {| Year := 2021; Month := 12; Day := 3 |} |};
      {| Vip.ID := str "2"; Vip.DisplayName := str "Joe"; Vip.Login := str "joe";
         Vip.Avatar := []; Vip.Banned := true;
         Vip.GrantedAt := {| Year := 2022; Month := 1; Day := 31 |} |} ]
  = FormatVips (str "bob") []
      ++ numberedLine 1 (str "ann") (str "Ann") (str "viped")
           {| Year := 2021; Month := 12; Day := 3 |}
      ++ numberedLine 2 (str "joe") (str "Joe") (str "viped")
           {| Year := 2022; Month := 1; Day := 31 |}.
Proof.
  rewrite (proj1 (proj2 (proj2 (proj2 (formatters_number_records (str "bob")))))).
  - cbn [imap concat length Z.of_nat Vip.Login Vip.DisplayName Vip.GrantedAt].
    rewrite app_nil_r. reflexivity.
  - vm_compute. discriminate.
Defined.

(** C7: [FormatFounders] of the user name [bob] and the one founder with
    display name [Bob], login [bob] and first month 2020-01-15 is the
    header line with the link to [bob], then the line
    [1. <link to bob showing Bob> (founded at 2020-01-15)], each ended by
    a line feed. *)
Theorem FormatFounders_bob (id avatar : gostring) (isSubscribed banned : bool) :
  FormatFounders (str "bob")
    [ {| Founders.ID := id; Founders.DisplayName := str "Bob";
         Founders.Login := str "bob";
         Founders.FirstMonth := {| Year := 2020; Month := 1; Day := 15 |};
         Founders.IsSubscribed := isSubscribed; Founders.Avatar := avatar;
         Founders.Banned := banned |} ]
  = str "<a href=" ++ dquote ++ str "https://twitch.tv/bob" ++ dquote
      ++ str ">bob</a>'s list of channel founders:" ++ [newline]
      ++ str "1. <a href=" ++ dquote ++ str "https://twitch.tv/bob" ++ dquote
      ++ str ">Bob</a> (founded at 2020-01-15)" ++ [newline].
Proof. reflexivity. Qed.


End Formatting.

(** ** Configuration *)

Section Configuration.
Import config.



(** C8, as stated, fails: with the token set in the process environment
    and no file [.env], the token is available and [Load] returns the
    error of [godotenv]. *)
Lemma Load_fails_without_file :
  tokenAvailable processWithoutFile
  /\ Load processWithoutFile = Err (str "open .env: no such file or directory")
  /\ ~ (forall p, tokenAvailable p <-> exists cfg, Load p = Ok cfg).
Proof.
  assert (tokenAvailable processWithoutFile) as Ha.
  { left. exists (str "123456:ABC-DEF"). split; [|done].
    unfold processWithoutFile. cbn [environ]. apply lookup_singleton_eq. }
  split; [exact Ha|]. split; [reflexivity|].
  intros H. apply H in Ha as [cfg Hcfg]. discriminate.
Qed.

Lemma Load_Ok_iff (p : Process) (cfg : Config) :
  Load p = Ok cfg <->
  exists envMap,
    dotenv p = Ok envMap
    /\ TelegramToken cfg = Getenv (environ p ∪ envMap) tokenKey
    /\ TelegramToken cfg <> [].
Proof.
  unfold Load, godotenv_Load, validate. fold tokenKey.
  destruct (dotenv p) as [envMap|err]; cbn [TelegramToken].
  - destruct (Getenv (environ p ∪ envMap) tokenKey) as [|a t] eqn:E; cbn [isEmpty].
    + split; [discriminate|]. intros (m & [= <-] & Ht & Hne). congruence.
    + split.
      * intros [= <-]. exists envMap. cbn [TelegramToken]. done.
      * intros (m & [= <-] & Ht & Hne). rewrite E in Ht.
        destruct cfg as [tok]. cbn in Ht. subst tok. reflexivity.
  - split; [discriminate|]. intros (m & Hm & _). discriminate.
Qed.

(** C8, amended: [Load] returns a [Config] exactly when the file [.env]
    is read and, after its variables are added to the environment (a
    variable that is already set keeps its value), [TELEGRAM_TOKEN] is not
    empty; the [Config] then holds that token. [Load] returns an error
    exactly when the file cannot be read or the token is then empty. *)
Theorem Load_succeeds_iff (p : Process) :
  (forall cfg,
     Load p = Ok cfg <->
     exists envMap,
       dotenv p = Ok envMap
       /\ TelegramToken cfg = Getenv (environ p ∪ envMap) tokenKey
       /\ TelegramToken cfg <> [])
  /\ ((exists err, Load p = Err err) <->
      (exists err, dotenv p = Err err)
      \/ (exists envMap,
            dotenv p = Ok envMap
            /\ Getenv (environ p ∪ envMap) tokenKey = [])).
Proof.
  split; [apply Load_Ok_iff|].
  unfold Load, godotenv_Load, validate. fold tokenKey.
  destruct (dotenv p) as [envMap|err]; cbn [TelegramToken].
  - destruct (Getenv (environ p ∪ envMap) tokenKey) as [|a t] eqn:E; cbn [isEmpty].
    + split; [|by eauto]. intros _. right. exists envMap. done.
    + split.
      * intros [err Herr]. discriminate.
      * intros [[err Herr]|(m & [= <-] & Hm)]; [discriminate|congruence].
  - split; [|by eauto]. intros _. left. eauto.
Qed.

End Configuration.

(** ** The conversation controller *)

Section Controller.
Import gostrings tgbotapi bot.




Lemma sent_app w1 w2 : sent (w1 ++ w2) = sent w1 ++ sent w2.
Proof. unfold sent. apply omap_app. Qed.

Lemma fetched_app w1 w2 : fetched (w1 ++ w2) = fetched w1 ++ fetched w2.
Proof. unfold fetched. apply filter_app. Qed.

Lemma Runs_ret {A} (a : A) : Runs (ret a) a [] [].
Proof. intros w. exists w. by rewrite !app_nil_r. Qed.

Lemma Runs_bind {A B} (c : M A) (k : A -> M B) a b s1 s2 f1 f2 :
  Runs c a s1 f1 -> Runs (k a) b s2 f2 ->
  Runs (bind c k) b (s1 ++ s2) (f1 ++ f2).
Proof.
  intros Hc Hk w. destruct (Hc w) as (w1 & E1 & S1 & F1).
  destruct (Hk w1) as (w2 & E2 & S2 & F2).
  exists w2. unfold bind. rewrite E1, E2, S2, F2, S1, F1, !app_assoc. done.
Qed.

Lemma Runs_emit (e : Event) :
  Runs (emit e) tt (sent [e]) (fetched [e]).
Proof.
  intros w. exists (w ++ [e]). by rewrite sent_app, fetched_app.
Qed.

Lemma Runs_deref {A} (a : A) : Runs (deref (Some a)) a [] [].
Proof. apply Runs_ret. Qed.

Lemma Runs_eq {A} (c : M A) a s s' f f' :
  Runs c a s f -> s = s' -> f = f' -> Runs c a s' f'.
Proof. by intros H <- <-. Qed.

Lemma Runs_apiSend (a : BotAPI) (msg : MessageConfig) :
  Runs (apiSend a msg) (Send a msg) [msg] [].
Proof.
  unfold apiSend. eapply Runs_eq.
  - eapply Runs_bind; [apply Runs_emit|apply Runs_ret].
  - reflexivity.
  - reflexivity.
Qed.

Lemma Runs_log_if (prefix : gostring) (err : error) :
  Runs (match err with
        | Some err => logPrintf (prefix ++ err)
        | None => ret tt
        end) tt [] [].
Proof.
  destruct err; [apply (Runs_emit (EvLog _))|apply Runs_ret].
Qed.

Lemma Runs_sendStartKeyboard (b : Bot) (update : Update.t) m chat :
  Update.Message update = Some m -> Message.Chat m = Some chat ->
  Runs (sendStartKeyboard b update) tt [startMenu (Chat.ID chat)] [].
Proof.
  intros Hm Hc w.
  unfold sendStartKeyboard, ViewCmdStart, bind, deref, apiSend, emit, ret,
    logPrintf.
  rewrite Hm. cbn. rewrite Hc. cbn.
  match goal with |- context [Send ?a ?m] => destruct (Send a m) end;
    eexists; (split; [reflexivity|]); rewrite ?sent_app, ?fetched_app; cbn;
    rewrite ?app_nil_r, <- ?app_assoc; done.
Qed.

Lemma Runs_sendError (b : Bot) (chatID : Z) (message err : gostring) :
  Runs (sendError b chatID message err) tt
    [NewMessage chatID (message ++ str ": " ++ err ++ str ".")] [].
Proof.
  unfold sendError. eapply Runs_eq.
  - eapply Runs_bind; [apply Runs_apiSend|apply Runs_log_if].
  - reflexivity.
  - reflexivity.
Qed.

Lemma Runs_sendParts (b : Bot) (chatID : Z) (messages : list gostring) :
  Runs (sendParts b chatID messages) tt (map (htmlMessage chatID) messages) [].
Proof.
  induction messages as [|part rest IH]; cbn [sendParts map].
  - apply Runs_ret.
  - eapply Runs_eq.
    + eapply Runs_bind; [apply Runs_apiSend|apply IH].
    + reflexivity.
    + reflexivity.
Qed.

Lemma bind_ret_l {A B} (a : A) (k : A -> M B) : bind (ret a) k = k a.
Proof. reflexivity. Qed.

Lemma processRequest_unknown (b : Bot) (username button : gostring) :
  button ∉ knownButtons ->
  processRequest b username button
  = ret ([], Some (str "unknown button: " ++ button)).
Proof.
  unfold knownButtons. intros H. unfold processRequest.
  repeat (destruct (decide _) as [->|_];
          [exfalso; apply H; set_solver|]).
  reflexivity.
Qed.

(** C9: for every user name and every button that is none of [follows],
    [moders], [vips], [founders], [processRequest] makes no fetch call (it
    leaves the trace as it is) and returns the empty string with the
    error [unknown button: ] followed by the button; [handleUserInput],
    for a message of a user whose recorded button it is, then makes no
    fetch call and sends the message [Failed to fetch data: ...] and the
    menu. *)
Theorem unknown_button_rejected (b : Bot) (username button : gostring)
    (w : list Event) :
  button ∉ knownButtons ->
  processRequest b username button w
    = (Normal ([], Some (str "unknown button: " ++ button)), w)
  /\ forall (update : Update.t) (m : Message.t) (from : User.t)
        (chat : Chat.t) (st : UserState),
       Update.Message update = Some m ->
       Message.From m = Some from -> Message.Chat m = Some chat ->
       Message.Text m = username ->
       userState b !! User.ID from = Some st -> PressedButton st = button ->
       exists w',
         handleUserInput b update w
           = (Normal (deleteUserState b (Chat.ID chat)), w')
         /\ fetched w' = fetched w
         /\ sent w' = sent w
              ++ [ NewMessage (Chat.ID chat)
                     (str "Failed to fetch data: unknown button: "
                        ++ button ++ str ".");
                   startMenu (Chat.ID chat) ].
Proof.
  intros H. split; [by rewrite processRequest_unknown|].
  intros update m from chat st Hm Hfrom Hchat Htext Hst Hbutton.
  subst username button.
  unfold handleUserInput. rewrite Hm. cbn [deref]. rewrite bind_ret_l.
  rewrite Hfrom. cbn [deref]. rewrite bind_ret_l.
  rewrite Hchat. cbn [deref]. rewrite bind_ret_l.
  rewrite Hst. cbn [default].
  rewrite processRequest_unknown by done. rewrite bind_ret_l.
  assert (Runs (sendError (deleteUserState b (Chat.ID chat)) (Chat.ID chat)
                  (str "Failed to fetch data")
                  (str "unknown button: " ++ PressedButton st)) tt
            [NewMessage (Chat.ID chat)
               (str "Failed to fetch data: unknown button: "
                  ++ PressedButton st ++ str ".")] []) as R1.
  { eapply Runs_eq; [apply Runs_sendError| |reflexivity].
    rewrite <- !app_assoc. reflexivity. }
  pose proof (Runs_sendStartKeyboard (deleteUserState b (Chat.ID chat))
                update m chat Hm Hchat) as R2.
  match goal with
  | |- exists w', ?c w = _ /\ _ =>
      assert (Runs c (deleteUserState b (Chat.ID chat))
                ([NewMessage (Chat.ID chat)
                    (str "Failed to fetch data: unknown button: "
                       ++ PressedButton st ++ str ".")]
                   ++ [startMenu (Chat.ID chat)] ++ [])
                ([] ++ [] ++ [])) as R
  end.
  { eapply Runs_bind; [exact R1|]. eapply Runs_bind; [exact R2|apply Runs_ret]. }
  destruct (R w) as (w' & E & S & F). exists w'.
  rewrite E, S, F, !app_nil_r. done.
Qed.

Lemma unknown_button_rejected_witness :
  processRequest pendingBot (str "alice") (str "subs") []
    = (Normal ([], Some (str "unknown button: subs")), [])
  /\ exists w',
       handleUserInput pendingBot (textMessage 7 7 (str "alice")) []
         = (Normal (deleteUserState pendingBot 7), w')
       /\ fetched w' = []
       /\ sent w' = [ NewMessage 7 (str "Failed to fetch data: unknown button: subs.");
                      startMenu 7 ].
Proof.
  assert (str "subs" ∉ knownButtons) as H.
  { unfold knownButtons. intros Hin.
    repeat (apply elem_of_cons in Hin as [Hin|Hin]; [discriminate|]).
    by apply elem_of_nil in Hin. }
  destruct (unknown_button_rejected pendingBot (str "alice") (str "subs") [] H)
    as [H1 H2].
  split; [exact H1|].
  exact (H2 (textMessage 7 7 (str "alice")) _ {| User.ID := 7 |}
            {| Chat.ID := 7 |} _ eq_refl eq_refl eq_refl eq_refl eq_refl eq_refl).
Defined.

(** A panic of the body of [handleUpdate] ends the process: the deferred
    function logs it with [log.Fatalf], and no later update is handled. *)
Lemma panic_ends_process (b : Bot) (update : Update.t) (rest : list Update.t)
    (w w' : list Event) (p : gostring) :
  handleUpdateBody b update w = (Panic p, w') ->
  handleUpdate b update w
    = (Exit 1, w' ++ [EvLog (str "panic recovered: " ++ p)])
  /\ Start b (update :: rest) w
     = (Exited 1, w' ++ [EvLog (str "panic recovered: " ++ p)]).
Proof.
  intros H. cbn [Start]. unfold handleUpdate. rewrite H. done.
Qed.

(** C5, as the code has it: the handling of a button press that comes
    without its message panics (nil pointer), and the process exits with
    status 1; the updates after it are not handled. *)
Theorem handleUpdate_panic_exits (b : Bot) (id data : gostring)
    (rest : list Update.t) (w : list Event) :
  exists w',
    handleUpdate b (inlineButtonPress id data) w = (Exit 1, w')
    /\ Start b (inlineButtonPress id data :: rest) w = (Exited 1, w').
Proof.
  assert (exists w1 p,
            handleUpdateBody b (inlineButtonPress id data) w = (Panic p, w1))
    as (w1 & p & Hp).
  { unfold handleUpdateBody, handleCallback.
    cbn [inlineButtonPress Update.CallbackQuery CallbackQuery.Message
         CallbackQuery.ID CallbackQuery.Data].
    unfold bind, apiRequest, emit, ret, logPrintf, deref, panic.
    destruct (Request (api b) _); cbn; eexists _, _; reflexivity. }
  destruct (panic_ends_process b _ rest w w1 p Hp) as [H1 H2].
  eexists. split; [exact H1|exact H2].
Qed.

(** C1, as the code has it in a group chat: the session is recorded under
    the identifier of the chat and looked up under the identifier of the
    sender, so after the button [vips] in the chat the text [alice] of
    user 42 in that chat is answered with the menu, no fetch call is made,
    and the session of the chat stays pending. *)
Theorem group_chat_username_ignored :
  exists b w,
    Start (New silentAPI emptyFetcher)
      [ buttonPress (str "cb1") 100 groupChat (str "vips");
        textMessage 42 groupChat (str "alice") ] []
    = (Returned b (str "bot.Start: context done"), w)
    /\ fetched w = []
    /\ sent w = [ NewMessage groupChat (str "Enter the channel name:");
                  startMenu groupChat ]
    /\ userState b !! groupChat
       = Some {| AwaitingUsername := true; PressedButton := str "vips" |}.
Proof.
  eexists _, _. split; [vm_compute; reflexivity|]. vm_compute. done.
Qed.

Lemma Runs_handleCallback (b : Bot) (id data : gostring) (botUser chat : Z) :
  Runs (handleUpdateBody b (buttonPress id botUser chat data))
    (setUserState b chat {| AwaitingUsername := true; PressedButton := data |})
    [NewMessage chat (str "Enter the channel name:")] [].
Proof.
  unfold handleUpdateBody, handleCallback.
  cbn [buttonPress Update.CallbackQuery CallbackQuery.Message CallbackQuery.ID
       CallbackQuery.Data Message.Chat Chat.ID deref bind ret].
  eapply Runs_eq.
  - eapply Runs_bind.
    { unfold apiRequest. eapply Runs_bind; [apply Runs_emit|apply Runs_ret]. }
    eapply Runs_bind; [apply Runs_log_if|].
    eapply Runs_bind; [apply Runs_ret|]. eapply Runs_bind; [apply Runs_ret|].
    eapply Runs_bind; [apply Runs_apiSend|apply Runs_ret].
  - reflexivity.
  - reflexivity.
Qed.

Lemma handleUpdate_Runs (b b' : Bot) (update : Update.t) s f :
  Runs (handleUpdateBody b update) b' s f ->
  forall w, exists w',
    handleUpdate b update w = (Continue b', w')
    /\ sent w' = sent w ++ s /\ fetched w' = fetched w ++ f.
Proof.
  intros R w. destruct (R w) as (w' & E & S & F). exists w'.
  unfold handleUpdate. rewrite E. done.
Qed.

Lemma isAwaitingUsername_set (b : Bot) (chat : Z) (button : gostring) :
  isAwaitingUsername
    (setUserState b chat {| AwaitingUsername := true; PressedButton := button |})
    chat = true.
Proof.
  unfold isAwaitingUsername, setUserState. cbn [userState].
  by rewrite lookup_insert_eq.
Qed.

Lemma isAwaitingUsername_deleted (b : Bot) (chat : Z) :
  isAwaitingUsername (deleteUserState b chat) chat = false.
Proof.
  unfold isAwaitingUsername, deleteUserState. cbn [userState].
  by rewrite lookup_delete_eq.
Qed.

Lemma processRequest_vips (b : Bot) (username : gostring) :
  processRequest b username (str "vips")
  = bind (emit (EvFetchVips username)) (fun _ =>
      match bot.FetchVips (fetcher b) username with
      | Err err => ret ([], Some err)
      | Ok vips => ret (formatter.FormatVips username vips, None)
      end).
Proof.
  unfold processRequest.
  destruct (decide _) as [e|_]; [discriminate e|].
  destruct (decide _) as [e|_]; [discriminate e|].
  destruct (decide _) as [_|n]; [reflexivity|by destruct n].
Qed.

Lemma Runs_vips_input (b : Bot) (chat : Z) (username : gostring) :
  userState b !! chat
    = Some {| AwaitingUsername := true; PressedButton := str "vips" |} ->
  Runs (handleUpdateBody b (textMessage chat chat username))
    (deleteUserState b chat)
    (vipsReply (fetcher b) chat username ++ [startMenu chat])
    [EvFetchVips username].
Proof.
  intros Hst. unfold handleUpdateBody.
  cbn [textMessage Update.CallbackQuery Update.Message Message.From User.ID
       deref bind ret].
  rewrite bind_ret_l. cbn beta. cbn [User.ID].
  unfold isAwaitingUsername. rewrite Hst. cbn [AwaitingUsername].
  unfold handleUserInput.
  cbn [textMessage Update.Message Message.From
    Message.Chat Message.Text User.ID Chat.ID deref].
  repeat (rewrite bind_ret_l;
          cbn [textMessage Update.Message Message.From Message.Chat
               Message.Text User.ID Chat.ID deref]).
  rewrite Hst. cbn [default PressedButton].
  rewrite processRequest_vips.
  pose proof (Runs_sendStartKeyboard (deleteUserState b chat)
                (textMessage chat chat username) _ _ eq_refl eq_refl) as R2.
  cbn [Chat.ID] in R2.
  unfold vipsReply.
  replace (fetcher (deleteUserState b chat)) with (fetcher b) by reflexivity.
  destruct (bot.FetchVips (fetcher b) username) as [vips|err].
  - eapply Runs_eq.
    + eapply Runs_bind.
      { eapply Runs_bind; [apply (Runs_emit (EvFetchVips username))|apply Runs_ret]. }
      cbv beta iota.
      eapply Runs_bind; [apply Runs_sendParts|].
      eapply Runs_bind; [exact R2|apply Runs_ret].
    + cbn [sent omap app]. by rewrite !app_nil_r.
    + reflexivity.
  - eapply Runs_eq.
    + eapply Runs_bind.
      { eapply Runs_bind; [apply (Runs_emit (EvFetchVips username))|apply Runs_ret]. }
      cbv beta iota.
      eapply Runs_bind; [apply Runs_sendError|].
      eapply Runs_bind; [exact R2|apply Runs_ret].
    + cbn. rewrite <- ?app_assoc. reflexivity.
    + reflexivity.
Qed.

Lemma Runs_idle_text (b : Bot) (from chat : Z) (text : gostring) :
  isAwaitingUsername b from = false ->
  Runs (handleUpdateBody b (textMessage from chat text)) b [startMenu chat] [].
Proof.
  intros H. unfold handleUpdateBody.
  cbn [textMessage Update.CallbackQuery Update.Message Message.From User.ID
       deref bind ret].
  rewrite bind_ret_l. cbn beta. cbn [User.ID].
  rewrite H. cbn [Message.IsCommand Message.Entities].
  eapply Runs_eq.
  - eapply Runs_bind; [|apply Runs_ret].
    exact (Runs_sendStartKeyboard b (textMessage from chat text) _ _ eq_refl eq_refl).
  - reflexivity.
  - reflexivity.
Qed.

(** X1 (the flow of C1 in a private chat), where the sender and the chat
    have the same identifier: the button [vips] records the pending session of the
    chat; the next text [alice] is taken as the user name, exactly one
    fetch call is made, [FetchVips] with [alice], the answer and the menu
    are sent, and the session is cleared; a further text is answered with
    the menu alone and no fetch call. *)
Theorem private_chat_vips_flow (b : Bot) (chat botUser : Z)
    (id text : gostring) (w : list Event) :
  exists b1 w1 b2 w2 b3 w3,
    handleUpdate b (buttonPress id botUser chat (str "vips")) w = (Continue b1, w1)
    /\ userState b1 !! chat
       = Some {| AwaitingUsername := true; PressedButton := str "vips" |}
    /\ handleUpdate b1 (textMessage chat chat (str "alice")) w1 = (Continue b2, w2)
    /\ fetched w2 = fetched w ++ [EvFetchVips (str "alice")]
    /\ sent w2 = sent w1 ++ vipsReply (fetcher b) chat (str "alice")
                   ++ [startMenu chat]
    /\ userState b2 !! chat = None
    /\ handleUpdate b2 (textMessage chat chat text) w2 = (Continue b3, w3)
    /\ fetched w3 = fetched w2
    /\ sent w3 = sent w2 ++ [startMenu chat]
    /\ userState b3 !! chat = None.
Proof.
  destruct (handleUpdate_Runs _ _ _ _ _ (Runs_handleCallback b id (str "vips") botUser chat) w)
    as (w1 & E1 & S1 & F1).
  set (b1 := setUserState b chat
               {| AwaitingUsername := true; PressedButton := str "vips" |}) in *.
  assert (userState b1 !! chat
          = Some {| AwaitingUsername := true; PressedButton := str "vips" |})
    as Hst by apply lookup_insert_eq.
  destruct (handleUpdate_Runs _ _ _ _ _ (Runs_vips_input b1 chat (str "alice") Hst) w1)
    as (w2 & E2 & S2 & F2).
  destruct (handleUpdate_Runs _ _ _ _ _
              (Runs_idle_text (deleteUserState b1 chat) chat chat text
                 (isAwaitingUsername_deleted b1 chat)) w2)
    as (w3 & E3 & S3 & F3).
  exists b1, w1, (deleteUserState b1 chat), w2, (deleteUserState b1 chat), w3.
  split; [exact E1|]. split; [exact Hst|].
  split; [exact E2|]. split; [by rewrite F2, F1, app_nil_r|].
  split; [exact S2|]. split; [apply lookup_delete_eq|].
  split; [exact E3|]. split; [by rewrite F3, app_nil_r|].
  split; [exact S3|]. apply lookup_delete_eq.
Qed.

End Controller.

(* ================================================================== *)
(** ** More about the text chunker *)

Section ChunkerMore.
Import gostrings utils.

Lemma loop_packLines limit lines :
  Forall noNL lines ->
  forall res gcur,
    Forall cleanLine gcur ->
    joinLen gcur + joinLen (removeBlank (map TrimSpace lines)) <= maxInt + 1 ->
    (let '(result, currentPart) :=
       fold_left (loopBody limit) lines (res, Join gcur) in
     if negb (isEmpty (TrimSpace currentPart))
     then result ++ [TrimSpace currentPart] else result)
    = res ++ map Join (packLines limit gcur
                         (removeBlank (map TrimSpace lines))).
Proof.
  induction 1 as [|line lines Hline _ IH]; intros res gcur Hc HB.
  - cbn [fold_left map]. unfold removeBlank. rewrite filter_nil.
    rewrite Join_TrimSpace by done. cbn [packLines].
    destruct gcur as [|l g]; [simpl; by rewrite app_nil_r|].
    assert (Join (l :: g) <> []) as Hne by (by apply Join_nonempty).
    apply isEmpty_false in Hne. rewrite Hne. reflexivity.
  - cbn [fold_left]. rewrite removeBlank_TrimSpace_cons in HB |- *.
    unfold loopBody at 2.
    destruct (isEmpty (TrimSpace line)) eqn:El.
    { simpl app in *. apply IH; done. }
    apply isEmpty_false in El.
    pose proof (TrimSpace_cleanLine line Hline El) as Hcl.
    rewrite joinLen_app in HB.
    change (joinLen [TrimSpace line]) with (len (TrimSpace line) + 1 + 0) in HB.
    pose proof (joinLen_nonneg (removeBlank (map TrimSpace lines))) as Hrest.
    pose proof (len_nonneg (TrimSpace line)) as Hlen.
    cbn [app packLines].
    destruct gcur as [|l0 g0].
    + cbn [Join isEmpty negb andb]. rewrite andb_false_r. cbn [app].
      apply (IH res [TrimSpace line]); [by constructor|].
      simpl in *. lia.
    + assert (Join (l0 :: g0) <> []) as Hne by (by apply Join_nonempty).
      apply isEmpty_false in Hne. rewrite Hne. cbn [negb]. rewrite andb_true_r.
      pose proof (len_Join (l0 :: g0) ltac:(done)) as HJ.
      pose proof (joinLen_nonneg (l0 :: g0)).
      rewrite addInt_len by (try apply len_nonneg; lia).
      destruct (len (Join (l0 :: g0)) + len (TrimSpace line) + 1 >? limit).
      * rewrite Join_TrimSpace by done.
        etransitivity.
        { apply (IH (res ++ [Join (l0 :: g0)]) [TrimSpace line]);
            [by constructor|simpl; lia]. }
        rewrite <- app_assoc. reflexivity.
      * rewrite <- app_assoc. cbn [app].
        rewrite <- Join_snoc by done.
        apply (IH res ((l0 :: g0) ++ [TrimSpace line])).
        -- apply Forall_app. split; [done|]. by constructor.
        -- rewrite joinLen_app. simpl. simpl in HB. lia.
Qed.

Lemma SplitMessage_eq_packLines (text : gostring) (limit : Z) :
  len text <= maxInt ->
  SplitMessage text limit = map Join (packLines limit [] (trimmedLines text)).
Proof.
  intros Hlen. unfold SplitMessage.
  rewrite <- (trimmedLines_TrimSpace text). unfold trimmedLines at 1.
  apply (loop_packLines limit (Split (TrimSpace text)) (Split_noNL _) [] []);
    [done|].
  fold (trimmedLines (TrimSpace text)). rewrite trimmedLines_TrimSpace.
  pose proof (joinLen_trimmedLines text). simpl. lia.
Qed.

(** X2: [SplitMessage] is the greedy packing of the trimmed non-blank
    lines of the text: a line joins the chunk at hand unless the chunk
    with the line and the separator is longer than the limit, in which
    case the chunk is closed and the line opens the next one; each chunk
    is the join of its lines. (A Go string has at most [maxInt] bytes.) *)
Theorem SplitMessage_packLines (text : gostring) (limit : Z) :
  len text <= maxInt ->
  SplitMessage text limit = map Join (packLines limit [] (trimmedLines text)).
Proof. apply SplitMessage_eq_packLines. Qed.

Lemma SplitMessage_packLines_witness :
  SplitMessage (Join example_lines) 5
  = map Join (packLines 5 [] (trimmedLines (Join example_lines))).
Proof. apply SplitMessage_packLines. vm_compute. discriminate. Defined.


(** X3: when every trimmed line of the text is within the limit, every
    chunk is within the limit. *)
Theorem SplitMessage_within_limit (text : gostring) (limit : Z) :
  len text <= maxInt ->
  Forall (fun l => len l <= limit) (map TrimSpace (Split text)) ->
  Forall (fun chunk => len chunk <= limit) (SplitMessage text limit).
Proof.
  intros Hlen Hmax. rewrite Forall_forall in Hmax. apply Forall_forall.
  intros chunk Hin.
  destruct (SplitMessage_groups text limit Hlen) as (groups & E & Ecat & Hc & Hf).
  rewrite E in Hin. apply list_elem_of_fmap in Hin as (g & -> & Hg).
  rewrite Forall_forall in Hf. destruct (Hf g Hg) as [Hne [H1|Hle]]; [|done].
  destruct g as [|l [|l1 g]]; try done. cbn [Join].
  apply Hmax. assert (l ∈ trimmedLines text) as Hl.
  { rewrite <- Ecat. apply list_elem_of_In, in_concat. exists [l].
    split; [by apply list_elem_of_In|by left]. }
  unfold trimmedLines, removeBlank in Hl.
  by apply list_elem_of_filter in Hl as [_ Hl].
Qed.

Lemma SplitMessage_within_limit_witness :
  Forall (fun chunk => len chunk <= 10) (SplitMessage (Join example_lines) 10).
Proof.
  apply SplitMessage_within_limit; [vm_compute; discriminate|].
  vm_compute. repeat constructor; discriminate.
Defined.

Lemma cleanLine_len l : cleanLine l -> 1 <= len l.
Proof. intros [Hne _]. destruct l; [done|]. unfold len. simpl. lia. Qed.

Lemma packLines_small limit c ls :
  limit <= 2 -> Forall cleanLine (c :: ls) ->
  packLines limit [c] ls = map (fun l => [l]) (c :: ls).
Proof.
  intros Hlim. revert c. induction ls as [|l ls IH]; intros c H; [done|].
  inversion H as [|? ? Hc H']; subst. inversion H' as [|? ? Hl _]; subst.
  cbn [packLines Join]. apply cleanLine_len in Hc, Hl.
  destruct (len c + len l + 1 >? limit) eqn:E.
  - rewrite IH by done. reflexivity.
  - rewrite Z.gtb_ltb, Z.ltb_ge in E. lia.
Qed.

(** X4: with a limit of at most 2 (zero and negative limits included)
    no two lines share a chunk: the chunks are the trimmed non-blank
    lines, one per chunk. *)
Theorem SplitMessage_small_limit (text : gostring) (limit : Z) :
  len text <= maxInt -> limit <= 2 ->
  SplitMessage text limit = trimmedLines text.
Proof.
  intros Hlen Hlim. rewrite SplitMessage_eq_packLines by done.
  pose proof (trimmedLines_clean text) as Hc.
  destruct (trimmedLines text) as [|c ls]; [done|].
  cbn [packLines]. rewrite packLines_small by done.
  rewrite map_map. cbn [Join]. by rewrite map_id.
Qed.

Lemma SplitMessage_small_limit_witness :
  SplitMessage (Join example_lines) 0 = trimmedLines (Join example_lines)
  /\ SplitMessage (Join example_lines) (-7) = trimmedLines (Join example_lines).
Proof.
  split; apply SplitMessage_small_limit; vm_compute; discriminate.
Defined.

Lemma len_Join_app_le g1 g2 : len (Join g1) <= len (Join (g1 ++ g2)).
Proof.
  destruct g1 as [|l g1]; [apply len_nonneg|].
  rewrite !len_Join by done. rewrite joinLen_app.
  pose proof (joinLen_nonneg g2). lia.
Qed.

Lemma packLines_fits limit cur ls :
  cur <> [] -> len (Join (cur ++ ls)) <= limit ->
  packLines limit cur ls = [cur ++ ls].
Proof.
  revert cur. induction ls as [|l ls IH]; intros cur Hne Hle.
  - rewrite app_nil_r. by destruct cur.
  - cbn [packLines]. destruct cur as [|c0 cur]; [done|].
    replace ((c0 :: cur) ++ l :: ls) with (((c0 :: cur) ++ [l]) ++ ls) in *
      by (by rewrite <- app_assoc).
    pose proof (len_Join_app_le ((c0 :: cur) ++ [l]) ls) as H.
    rewrite Join_snoc in H by done.
    change (Join (c0 :: cur) ++ newline :: l)
      with (Join (c0 :: cur) ++ [newline] ++ l) in H.
    rewrite !len_app in H. change (len [newline]) with 1 in H.
    destruct (len (Join (c0 :: cur)) + len l + 1 >? limit) eqn:E.
    + rewrite Z.gtb_ltb, Z.ltb_lt in E. lia.
    + apply IH; [by destruct cur|done].
Qed.

Lemma SplitMessage_fits (text : gostring) (limit : Z) :
  len text <= maxInt -> trimmedLines text <> [] ->
  len (Join (trimmedLines text)) <= limit ->
  SplitMessage text limit = [Join (trimmedLines text)].
Proof.
  intros Hlen Hne Hle. rewrite SplitMessage_eq_packLines by done.
  destruct (trimmedLines text) as [|c ls]; [done|].
  cbn [packLines]. rewrite packLines_fits; done.
Qed.

(** X5: a text with at least one non-blank line whose trimmed non-blank
    lines, joined by line feeds, fit in the limit is returned as one
    chunk, that join (blank lines and the white space around each line
    are dropped). *)
Theorem SplitMessage_one_chunk (text : gostring) (limit : Z) :
  len text <= maxInt -> trimmedLines text <> [] ->
  len (Join (trimmedLines text)) <= limit ->
  SplitMessage text limit = [Join (trimmedLines text)].
Proof. apply SplitMessage_fits. Qed.

Lemma SplitMessage_one_chunk_witness :
  SplitMessage (Join example_lines) 4096
  = [Join (trimmedLines (Join example_lines))].
Proof.
  apply SplitMessage_one_chunk; vm_compute; discriminate.
Defined.

Lemma packLines_head limit c cur ls :
  exists more rest, packLines limit (c :: cur) ls = (c :: cur ++ more) :: rest.
Proof.
  revert c cur. induction ls as [|l ls IH]; intros c cur; cbn [packLines].
  - exists [], []. by rewrite app_nil_r.
  - destruct (_ >? _).
    + exists [], (packLines limit [l] ls). by rewrite app_nil_r.
    + destruct (IH c (cur ++ [l])) as (more & rest & E).
      exists (l :: more), rest. change ((c :: cur) ++ [l]) with (c :: (cur ++ [l])).
      rewrite E, <- app_assoc. done.
Qed.

Lemma packLines_greedy limit cur ls :
  forall (i : nat) (g1 g2 : list gostring),
    packLines limit cur ls !! i = Some g1 ->
    packLines limit cur ls !! S i = Some g2 ->
    exists l g2', g2 = l :: g2' /\ limit < len (Join g1) + len l + 1.
Proof.
  revert cur. induction ls as [|l ls IH]; intros cur i g1 g2.
  - destruct cur; cbn [packLines]; [done|]. by destruct i.
  - cbn [packLines]. destruct cur as [|c0 cur]; [apply IH|].
    destruct (len (Join (c0 :: cur)) + len l + 1 >? limit) eqn:E; [|apply IH].
    destruct i as [|i]; [|apply IH].
    cbn [lookup list_lookup]. intros [= <-] H2.
    destruct (packLines_head limit l [] ls) as (more & rest & Eh).
    rewrite Eh in H2. cbn in H2. injection H2 as <-.
    exists l, more. split; [done|]. rewrite Z.gtb_ltb, Z.ltb_lt in E. lia.
Qed.

(** X6: the chunks are filled as far as the limit allows: a chunk does
    not end while the first line of the next chunk would still fit, that
    is, the chunk with that line and the separator is longer than the
    limit. *)
Theorem SplitMessage_greedy (text : gostring) (limit : Z) :
  len text <= maxInt ->
  exists groups : list (list gostring),
    SplitMessage text limit = map Join groups
    /\ concat groups = trimmedLines text
    /\ forall (i : nat) (g1 g2 : list gostring),
         groups !! i = Some g1 -> groups !! S i = Some g2 ->
         exists l g2', g2 = l :: g2' /\ limit < len (Join g1) + len l + 1.
Proof.
  intros Hlen.
  exists (packLines limit [] (trimmedLines text)).
  split; [by apply SplitMessage_eq_packLines|]. split; [|apply packLines_greedy].
  clear. generalize (trimmedLines text) as ls.
  assert (forall ls cur, concat (packLines limit cur ls) = cur ++ ls) as H.
  { induction ls as [|l ls IH]; intros cur; cbn [packLines].
    - destruct cur; simpl; by rewrite ?app_nil_r.
    - destruct cur as [|c0 cur]; [apply IH|]. destruct (_ >? _).
      + cbn [concat]. by rewrite IH.
      + rewrite IH, <- app_assoc. done. }
  intros ls. apply (H ls []).
Qed.

Lemma SplitMessage_greedy_witness :
  exists groups : list (list gostring),
    SplitMessage (Join example_lines) 5 = map Join groups
    /\ concat groups = trimmedLines (Join example_lines)
    /\ forall (i : nat) (g1 g2 : list gostring),
         groups !! i = Some g1 -> groups !! S i = Some g2 ->
         exists l g2', g2 = l :: g2' /\ 5 < len (Join g1) + len l + 1.
Proof. apply SplitMessage_greedy. vm_compute. discriminate. Defined.

End ChunkerMore.

(* ================================================================== *)
(** ** More about the data fetcher *)

Section FetchingMore.
Import gostrings http fetcher.
Context `{!JSONArray Follow.t, !JSONArray Mod.t, !JSONArray Vip.t,
          !JSONArray Founders.t}.

Lemma fetch_shape_ok {T} `{!JSONArray T} (c : Client) (url : gostring)
    (e0 e1 e2 e3 : gostring) (xs : list T) :
  match NewRequestWithContext c url with
  | Err err => Err (str "failed to create request: " ++ err)
  | Ok req =>
      match Do c req with
      | Err err => Err (e0 ++ err)
      | Ok resp =>
          if negb (StatusCode resp =? StatusOK) then
            if StatusCode resp =? StatusBadRequest then Err e1
            else if StatusCode resp =? StatusNotFound then Err e2
            else Err (e3 ++ Itoa (StatusCode resp))
          else
            match Decode (Body resp) with
            | Err err => Err (str "failed to decode response: " ++ err)
            | Ok ys => Ok ys
            end
      end
  end = Ok xs
  <-> exists resp,
        (exists req, NewRequestWithContext c url = Ok req
                     /\ Do c req = Ok resp)
        /\ StatusCode resp = 200 /\ Decode (Body resp) = Ok xs.
Proof.
  destruct (NewRequestWithContext c url) as [req|e] eqn:Hreq.
  2:{ split; [discriminate|]. intros (? & (? & ? & ?) & ?). congruence. }
  destruct (Do c req) as [resp|e] eqn:Hdo.
  2:{ split; [discriminate|]. intros (? & (? & ? & ?) & ?). congruence. }
  destruct (StatusCode resp =? StatusOK) eqn:Hst; cbn [negb].
  - apply Z.eqb_eq in Hst. split.
    + intros Hd. exists resp. split; [by exists req|]. split; [done|].
      destruct (Decode (Body resp)); congruence.
    + intros (resp' & (req' & Hr & Hd) & _ & Hdec).
      assert (req' = req) as -> by congruence.
      assert (resp' = resp) as -> by congruence. by rewrite Hdec.
  - apply Z.eqb_neq in Hst. split.
    + intros Habs. exfalso. destruct (_ =? _); [done|]. by destruct (_ =? _).
    + intros (resp' & (req' & Hr & Hd) & Hs & _).
      assert (req' = req) as -> by congruence.
      assert (resp' = resp) as -> by congruence. done.
Qed.

(** X7: a fetch operation returns records exactly when the request for
    its endpoint followed by the user name (as it is, not escaped) is
    built, the server answers with status 200, and the body decodes; the
    records are the decoded ones. *)
Theorem fetch_ok_iff (f : Fetcher) (username : gostring) :
  (forall xs, FetchFollows f username = Ok xs <->
     exists resp, answers f (endpoint KFollows ++ username) resp
                  /\ StatusCode resp = 200 /\ Decode (Body resp) = Ok xs)
  /\ (forall xs, FetchMods f username = Ok xs <->
     exists resp, answers f (endpoint KMods ++ username) resp
                  /\ StatusCode resp = 200 /\ Decode (Body resp) = Ok xs)
  /\ (forall xs, FetchVips f username = Ok xs <->
     exists resp, answers f (endpoint KVips ++ username) resp
                  /\ StatusCode resp = 200 /\ Decode (Body resp) = Ok xs)
  /\ (forall xs, FetchFounders f username = Ok xs <->
     exists resp, answers f (endpoint KFounders ++ username) resp
                  /\ StatusCode resp = 200 /\ Decode (Body resp) = Ok xs).
Proof.
  unfold answers, FetchFollows, FetchMods, FetchVips, FetchFounders.
  cbn [endpoint]. cbv zeta.
  split; [|split; [|split]]; intros xs; apply fetch_shape_ok.
Qed.

(** X8: for each of the four operations, a request that cannot be
    built gives the error [failed to create request: <err>], and a
    request that cannot be sent gives [failed to fetch <kind>: <err>]. *)
Theorem fetch_transport_errors (k : Kind) (f : Fetcher) (username : gostring) :
  (forall err,
     NewRequestWithContext (client f) (endpoint k ++ username) = Err err ->
     fetchError k f username = Some (str "failed to create request: " ++ err))
  /\ (forall req err,
        NewRequestWithContext (client f) (endpoint k ++ username) = Ok req ->
        Do (client f) req = Err err ->
        fetchError k f username
        = Some (str "failed to fetch " ++ kindWord k ++ str ": " ++ err)).
Proof.
  destruct k; unfold fetchError, FetchFollows, FetchMods, FetchVips,
    FetchFounders; cbn [endpoint kindWord]; cbv zeta;
    (split; [intros err ->; reflexivity|intros req err -> ->; reflexivity]).
Qed.

End FetchingMore.

Section FetchingMoreExample.
Import gostrings http fetcher.
#[local] Existing Instance rejectJSON.

Lemma fetch_transport_errors_witness :
  fetchError KMods (NewFetcher strictClient) (str "a")
  = Some (str "failed to create request: net/url: invalid control character in URL")
  /\ fetchError KVips (NewFetcher offlineClient) (str "bob")
     = Some (str "failed to fetch vips: dial tcp: connection refused").
Proof.
  split.
  - exact (proj1 (fetch_transport_errors KMods (NewFetcher strictClient)
                    (str "a")) _ eq_refl).
  - exact (proj2 (fetch_transport_errors KVips (NewFetcher offlineClient)
                    (str "bob")) _ _ eq_refl eq_refl).
Defined.

End FetchingMoreExample.

(* ================================================================== *)
(** ** The formatter and the chunker together *)

Section FormattedLines.
Import gostrings utils formatter.

Lemma plain_noNL l : Forall (fun a => plain a = true) l -> noNL l.
Proof.
  intros Hp. eapply Forall_impl; [exact Hp|]. intros a H. unfold plain in H.
  apply andb_true_iff in H as [_ H]. apply negb_true_iff in H.
  destruct (isNewline a) eqn:E; [|done].
  apply isNewline_eq in E. subst a. discriminate.
Qed.

Lemma uint_plain (d : Decimal.uint) :
  Forall (fun a => plain a = true) (str (NilEmpty.string_of_uint d)).
Proof. induction d; cbn; constructor; done. Qed.

Lemma Itoa_plain (n : Z) :
  Itoa n <> [] /\ Forall (fun a => plain a = true) (Itoa n).
Proof.
  unfold Itoa.
  assert (forall d, str (NilZero.string_of_uint d) <> []
                    /\ Forall (fun a => plain a = true)
                         (str (NilZero.string_of_uint d))) as H.
  { intros d. split.
    - destruct d; done.
    - destruct d; try apply uint_plain. cbn. by constructor. }
  destruct (Z.to_int n) as [d|d]; cbn [NilZero.string_of_int].
  - apply H.
  - split; [done|]. cbn. constructor; [done|]. apply H.
Qed.

Lemma appendInt_plain (x : Z) (width : nat) :
  Forall (fun a => plain a = true) (appendInt x width).
Proof.
  unfold appendInt. rewrite !Forall_app. split; [|split].
  - destruct (x <? 0); [by repeat constructor|constructor].
  - apply Forall_forall. intros a Ha. apply list_elem_of_In, repeat_spec in Ha.
    by subst a.
  - apply Itoa_plain.
Qed.

Lemma FormatDate_noNL (t : Time) : noNL (FormatDate t).
Proof.
  apply plain_noNL. unfold FormatDate. rewrite !Forall_app.
  repeat split; try apply appendInt_plain; by repeat constructor.
Qed.

Lemma plain_leads a t : plain a = true -> leadsL (a :: t) = false.
Proof.
  unfold plain. intros H. apply andb_true_iff in H as [H1 H2].
  apply N.ltb_lt in H1. apply negb_true_iff in H2.
  unfold leadsL, leads. rewrite H2. cbn [orb].
  destruct t as [|b t]; [done|].
  destruct (space2 a b) eqn:E2; [apply space2_spec in E2; lia|]. cbn [orb].
  destruct t as [|c t]; [done|].
  destruct (space3 a b c) eqn:E3; [apply space3_spec in E3; lia|done].
Qed.

Lemma plain_leads_rev z t : plain z = true -> leadsR (z :: t) = false.
Proof.
  unfold plain. intros H. apply andb_true_iff in H as [H1 H2].
  apply N.ltb_lt in H1. apply negb_true_iff in H2.
  unfold leadsR, leads. rewrite H2. cbn [orb].
  destruct t as [|b t]; [done|].
  destruct (space2 b z) eqn:E2; [apply space2_spec in E2; lia|]. cbn [orb].
  destruct t as [|c t]; [done|].
  destruct (space3 c b z) eqn:E3; [apply space3_spec in E3; lia|done].
Qed.

(** A line without line feed from a plain byte to a plain byte is as a
    chunk holds it. *)
Lemma cleanLine_plain (l : gostring) (a z : ascii) :
  head l = Some a -> last l = Some z -> plain a = true -> plain z = true ->
  noNL l -> cleanLine l.
Proof.
  intros Hh Hl Ha Hz Hn. split; [by destruct l|]. split; [|done]. split.
  - destruct l as [|a' t]; [done|]. injection Hh as ->. by apply plain_leads.
  - apply last_Some in Hl as [l' ->]. rewrite rev_app_distr.
    by apply plain_leads_rev.
Qed.

Lemma noNL_app u v : noNL (u ++ v) <-> noNL u /\ noNL v.
Proof. apply Forall_app. Qed.

Lemma noNL_str_htmlLink login text :
  noNL login -> noNL text -> noNL (htmlLink login text).
Proof.
  intros Hl Ht. unfold htmlLink. rewrite !noNL_app.
  repeat split; try done; by repeat constructor.
Qed.

Lemma headerLine_clean (username title mid : gostring) (z : ascii) :
  title = mid ++ [z] -> plain z = true -> noNL title -> noNL username ->
  cleanLine (headerLine username title).
Proof.
  intros Et Hz Hn Hu.
  apply (cleanLine_plain _ "<"%char z); [reflexivity| |done|done|].
  - unfold headerLine. rewrite Et, app_assoc. apply last_snoc.
  - unfold headerLine. apply noNL_app. split; [|done].
    by apply noNL_str_htmlLink.
Qed.

Lemma recordLine_clean (n : Z) (login displayName word : gostring)
    (date : Time) :
  noNL login -> noNL displayName -> noNL word ->
  cleanLine (recordLine n login displayName word date).
Proof.
  intros Hl Hd Hw. destruct (Itoa_plain n) as [Hne Hp].
  destruct (Itoa n) as [|a t] eqn:E; [done|]. inversion Hp as [|? ? Ha Ht]; subst.
  apply (cleanLine_plain _ a ")"%char); [|  |done|done|].
  - unfold recordLine. by rewrite E.
  - unfold recordLine. change (str ")") with [")"%char].
    rewrite !app_assoc. apply last_snoc.
  - unfold recordLine. rewrite E. rewrite !noNL_app.
    repeat split; try done; try (by repeat constructor).
    + rewrite <- E. apply plain_noNL, Itoa_plain.
    + by apply noNL_str_htmlLink.
    + apply FormatDate_noNL.
Qed.

Lemma Split_lines (ls : list gostring) :
  Forall noNL ls ->
  Split (concat (map (fun l => l ++ [newline]) ls)) = ls ++ [[]].
Proof.
  induction 1 as [|l ls Hl _ IH]; [done|].
  cbn [map concat]. rewrite <- app_assoc. cbn [app].
  rewrite Split_app_newline, IH, Split_noNL_id by done. reflexivity.
Qed.

Lemma trimmedLines_lines (ls : list gostring) :
  Forall cleanLine ls ->
  trimmedLines (concat (map (fun l => l ++ [newline]) ls)) = ls.
Proof.
  intros Hc. unfold trimmedLines. rewrite Split_lines.
  - rewrite map_app. cbn [map]. unfold removeBlank. rewrite filter_app.
    fold (removeBlank (map TrimSpace ls)).
    replace (map TrimSpace ls) with ls.
    + rewrite removeBlank_clean by done. cbn. apply app_nil_r.
    + induction Hc as [|l ls Hl _ IH]; [done|]. cbn [map].
      rewrite <- IH. f_equal. symmetry. apply trimmed_TrimSpace, Hl.
  - eapply Forall_impl; [exact Hc|]. intros l Hl. apply Hl.
Qed.

Lemma concat_imap_lines {A} (line : Z -> A -> gostring) (rs : list A) (i : nat) :
  concat (imap (fun j r => line (Z.of_nat (i + j) + 1) r ++ [newline]) rs)
  = concat (map (fun l => l ++ [newline])
              (imap (fun j r => line (Z.of_nat (i + j) + 1) r) rs)).
Proof.
  revert i. induction rs as [|r rs IH]; intros i; [done|].
  cbn [imap map concat]. f_equal.
  specialize (IH (S i)).
  erewrite (imap_ext _ (fun j r => line (Z.of_nat (i + S j) + 1) r ++ [newline])
              rs) in IH.
  2:{ intros j x _. cbn. do 3 f_equal. lia. }
  etransitivity; [exact IH|]. do 2 f_equal. apply imap_ext.
  intros j x _. cbn. do 2 f_equal. lia.
Qed.

Lemma fold_len {A} (line : Z -> A -> gostring)
    (step : Z * gostring -> A -> Z * gostring) (rs : list A) :
  (forall i response r,
     step (i, response) r = (i + 1, response ++ line (addInt i 1) r ++ [newline])) ->
  forall (i : Z) (acc : gostring),
    len acc + Z.of_nat (length rs) <= len (snd (fold_left step rs (i, acc))).
Proof.
  intros Hstep. induction rs as [|r rs IH]; intros i acc; cbn [fold_left length].
  - simpl. lia.
  - rewrite Hstep. specialize (IH (i + 1) (acc ++ line (addInt i 1) r ++ [newline])).
    rewrite !len_app in IH. change (len [newline]) with 1 in IH.
    pose proof (len_nonneg (line (addInt i 1) r)). lia.
Qed.

Lemma joinLen_length ls : Z.of_nat (length ls) <= joinLen ls.
Proof.
  induction ls as [|l ls IH]; simpl; [lia|]. pose proof (len_nonneg l). lia.
Qed.

Lemma len_lines ls : len (concat (map (fun l => l ++ [newline]) ls)) = joinLen ls.
Proof.
  induction ls as [|l ls IH]; [done|]. cbn [map concat joinLen fold_right].
  rewrite !len_app, IH. change (len [newline]) with 1.
  fold (joinLen ls). lia.
Qed.

(** A formatted answer, whatever the formatter: the header and the
    lines of the records, each followed by a line feed. *)
Lemma format_text {A} (line : Z -> A -> gostring)
    (step : Z * gostring -> A -> Z * gostring) (header : gostring)
    (rs : list A) :
  (forall i response r,
     step (i, response) r = (i + 1, response ++ line (addInt i 1) r ++ [newline])) ->
  len (snd (fold_left step rs (0, header ++ [newline]))) <= maxInt
  \/ len (Join (header :: imap (fun i r => line (Z.of_nat i + 1) r) rs))
     <= maxInt ->
  snd (fold_left step rs (0, header ++ [newline]))
  = concat (map (fun l => l ++ [newline])
              (header :: imap (fun i r => line (Z.of_nat i + 1) r) rs)).
Proof.
  intros Hstep Hlen.
  assert (Z.of_nat (length rs) <= maxInt) as Hn.
  { destruct Hlen as [Hlen|Hlen].
    - pose proof (fold_len line step rs Hstep 0 (header ++ [newline])) as Hn.
      pose proof (len_nonneg (header ++ [newline])). lia.
    - rewrite len_Join in Hlen by done.
      pose proof (joinLen_length
                    (header :: imap (fun i r => line (Z.of_nat i + 1) r) rs)) as Hj.
      cbn [length] in Hj. rewrite length_imap in Hj. lia. }
  rewrite (fold_numbered (fun n r => line n r ++ [newline]) step rs Hstep 0%nat)
    by (cbn [Nat.add]; lia).
  rewrite (concat_imap_lines line rs 0). reflexivity.
Qed.

Lemma imap_clean {A} (line : Z -> A -> gostring) (P : A -> Prop) (rs : list A) :
  (forall n r, P r -> cleanLine (line n r)) -> Forall P rs ->
  Forall cleanLine (imap (fun i r => line (Z.of_nat i + 1) r) rs).
Proof.
  intros Hl Hrs. apply Forall_forall. intros l Hin.
  apply elem_of_lookup_imap in Hin as (i & r & -> & Hr).
  apply Hl. rewrite Forall_forall in Hrs. apply Hrs.
  by eapply list_elem_of_lookup_2.
Qed.

Lemma SplitMessage_lines (text : gostring) (limit : Z) :
  len text <= maxInt ->
  concat (map Split (SplitMessage text limit)) = trimmedLines text.
Proof.
  intros Hlen.
  destruct (SplitMessage_groups text limit Hlen) as (groups & -> & <- & Hc & Hf).
  rewrite map_map. f_equal.
  induction groups as [|g groups IH]; [done|].
  inversion Hc; subst. inversion Hf as [|? ? Hg Hgs]; subst.
  cbn [map]. rewrite IH by done. f_equal. apply Split_Join; [apply Hg|].
  eapply Forall_impl; [eassumption|]. intros l Hl. apply Hl.
Qed.

Lemma formatText_lines (username : gostring) (r : fetcher.Records) :
  noNL username -> plainNames r ->
  len (formatText username r) <= maxInt
  \/ len (Join (answerLines username r)) <= maxInt ->
  formatText username r
  = concat (map (fun l => l ++ [newline]) (answerLines username r))
  /\ Forall cleanLine (answerLines username r).
Proof.
  intros Hu Hrs Hlen. destruct r as [rs|rs|rs|rs];
    cbn [formatText answerLines plainNames] in *.
  - revert Hlen. unfold FormatFollows. cbv zeta.
    match goal with |- context [fold_left ?s rs (0, ?acc)] =>
      replace acc with (headerLine username (str " is following:") ++ [newline])
        by (unfold headerLine, htmlLink; rewrite <- !app_assoc; reflexivity)
    end.
    intros Hlen. split.
    + apply (format_text
               (fun n r => recordLine n (Follow.Login r) (Follow.DisplayName r)
                             (str "followed") (Follow.FollowedAt r)) _ _ rs);
        [|exact Hlen].
      intros i response r. unfold recordLine, htmlLink.
      rewrite <- !app_assoc. reflexivity.
    + constructor.
      * by apply (headerLine_clean _ _ (str " is following") ":"%char);
          [| |repeat constructor|].
      * eapply (imap_clean
                 (fun n r => recordLine n (Follow.Login r) (Follow.DisplayName r)
                               (str "followed") (Follow.FollowedAt r)) _ rs);
          [|exact Hrs].
        intros n r [? ?].
        apply recordLine_clean; [done|done|by repeat constructor].
  - revert Hlen. unfold FormatMods. cbv zeta.
    match goal with |- context [fold_left ?s rs (0, ?acc)] =>
      replace acc with (headerLine username (str "'s list of channel moders:") ++ [newline])
        by (unfold headerLine, htmlLink; rewrite <- !app_assoc; reflexivity)
    end.
    intros Hlen. split.
    + apply (format_text
               (fun n r => recordLine n (Mod.Login r) (Mod.DisplayName r)
                             (str "moded") (Mod.GrantedAt r)) _ _ rs);
        [|exact Hlen].
      intros i response r. unfold recordLine, htmlLink.
      rewrite <- !app_assoc. reflexivity.
    + constructor.
      * by apply (headerLine_clean _ _ (str "'s list of channel moders") ":"%char);
          [| |repeat constructor|].
      * eapply (imap_clean
                 (fun n r => recordLine n (Mod.Login r) (Mod.DisplayName r)
                               (str "moded") (Mod.GrantedAt r)) _ rs);
          [|exact Hrs].
        intros n r [? ?].
        apply recordLine_clean; [done|done|by repeat constructor].
  - revert Hlen. unfold FormatVips. cbv zeta.
    match goal with |- context [fold_left ?s rs (0, ?acc)] =>
      replace acc with (headerLine username (str "'s list of channel vips:") ++ [newline])
        by (unfold headerLine, htmlLink; rewrite <- !app_assoc; reflexivity)
    end.
    intros Hlen. split.
    + apply (format_text
               (fun n r => recordLine n (Vip.Login r) (Vip.DisplayName r)
                             (str "viped") (Vip.GrantedAt r)) _ _ rs);
        [|exact Hlen].
      intros i response r. unfold recordLine, htmlLink.
      rewrite <- !app_assoc. reflexivity.
    + constructor.
      * by apply (headerLine_clean _ _ (str "'s list of channel vips") ":"%char);
          [| |repeat constructor|].
      * eapply (imap_clean
                 (fun n r => recordLine n (Vip.Login r) (Vip.DisplayName r)
                               (str "viped") (Vip.GrantedAt r)) _ rs);
          [|exact Hrs].
        intros n r [? ?].
        apply recordLine_clean; [done|done|by repeat constructor].
  - revert Hlen. unfold FormatFounders. cbv zeta.
    match goal with |- context [fold_left ?s rs (0, ?acc)] =>
      replace acc with (headerLine username (str "'s list of channel founders:") ++ [newline])
        by (unfold headerLine, htmlLink; rewrite <- !app_assoc; reflexivity)
    end.
    intros Hlen. split.
    + apply (format_text
               (fun n r => recordLine n (Founders.Login r) (Founders.DisplayName r)
                             (str "founded") (Founders.FirstMonth r)) _ _ rs);
        [|exact Hlen].
      intros i response r. unfold recordLine, htmlLink.
      rewrite <- !app_assoc. reflexivity.
    + constructor.
      * by apply (headerLine_clean _ _ (str "'s list of channel founders") ":"%char);
          [| |repeat constructor|].
      * eapply (imap_clean
                 (fun n r => recordLine n (Founders.Login r) (Founders.DisplayName r)
                               (str "founded") (Founders.FirstMonth r)) _ rs);
          [|exact Hrs].
        intros n r [? ?].
        apply recordLine_clean; [done|done|by repeat constructor].
Qed.

(** X9: the formatters and the chunker together. When the user name,
    the logins and the display names have no line feed, the chunks of a
    formatted answer, read line by line, are the header and the lines of
    the records, numbered from 1, in the order of the records, for every
    limit: no line is cut, lost or merged, and only the line feeds
    between chunks and at the end are dropped. *)
Theorem formatted_answer_lines (username : gostring) (r : fetcher.Records)
    (limit : Z) :
  noNL username -> plainNames r ->
  len (formatText username r) <= maxInt ->
  concat (map Split (SplitMessage (formatText username r) limit))
  = answerLines username r.
Proof.
  intros Hu Hrs Hlen. rewrite SplitMessage_lines by done.
  destruct (formatText_lines username r Hu Hrs (or_introl Hlen)) as [-> Hc].
  by apply trimmedLines_lines.
Qed.

Lemma formatted_answer_lines_witness :
  concat (map Split (SplitMessage (formatText (str "bob") fetcher.example_vips) 40))
  = [ headerLine (str "bob") (str "'s list of channel vips:");
      recordLine 1 (str "ann") (str "Ann") (str "viped")
        {| Year := 2021; Month := 12; Day := 3 |} ].
Proof.
  apply (formatted_answer_lines (str "bob") fetcher.example_vips 40).
  - by repeat constructor.
  - repeat constructor.
  - vm_compute. discriminate.
Defined.

End FormattedLines.

(* ================================================================== *)
(** ** More about the configuration *)

Section ConfigurationMore.
Import config.

(** X10: where the token comes from, once the file [.env] is read: a
    [TELEGRAM_TOKEN] set in the process environment decides alone, also
    when it is set to the empty string ([Load] then fails with
    [TELEGRAM_TOKEN is required] whatever the file says); only a variable
    that is not set is taken from the file. *)
Theorem Load_token_precedence (p : Process) (envMap : gmap gostring gostring) :
  dotenv p = Ok envMap ->
  Load p = match environ p !! tokenKey with
           | Some v => tokenResult v
           | None => tokenResult (default [] (envMap !! tokenKey))
           end.
Proof.
  intros Hd. unfold Load, godotenv_Load, validate, Getenv, tokenResult.
  rewrite Hd. fold tokenKey. cbn [TelegramToken].
  rewrite lookup_union.
  destruct (environ p !! tokenKey) as [v|];
    destruct (envMap !! tokenKey) as [v'|];
    cbn [union option_union union_with option_union_with default id];
    match goal with |- context [isEmpty ?x] => destruct (isEmpty x) end;
    reflexivity.
Qed.

Lemma Load_token_precedence_witness :
  Load {| environ := {[ tokenKey := [] ]};
          dotenv := Ok {[ tokenKey := str "123456:ABC-DEF" ]} |}
  = Err (str "TELEGRAM_TOKEN is required")
  /\ Load processWithFile = Ok {| TelegramToken := str "123456:ABC-DEF" |}.
Proof.
  split.
  - exact (Load_token_precedence
             {| environ := {[ tokenKey := [] ]};
                dotenv := Ok {[ tokenKey := str "123456:ABC-DEF" ]} |}
             _ eq_refl).
  - exact (Load_token_precedence processWithFile _ eq_refl).
Defined.

End ConfigurationMore.

(* ================================================================== *)
(** ** More about the conversation controller *)

Section ControllerMore.
Import gostrings tgbotapi bot.

Lemma processRequest_button (b : Bot) (k : fetcher.Kind) (username : gostring) :
  processRequest b username (button k)
  = bind (emit (fetchCall k username)) (fun _ =>
      match fetchText (fetcher b) k username with
      | Ok response => ret (response, None)
      | Err err => ret ([], Some err)
      end).
Proof.
  unfold processRequest, fetchText.
  destruct k; cbn [button fetchCall];
    repeat (destruct (decide _) as [?|?]; [try discriminate|try done]);
    match goal with |- context [match ?r with Ok _ => _ | Err _ => _ end] =>
      destruct r end; reflexivity.
Qed.

Lemma Runs_pending_input (b : Bot) (k : fetcher.Kind)
    (update : Update.t) (m : Message.t) (from : User.t) (chat : Chat.t)
    (st : UserState) :
  Update.CallbackQuery update = None ->
  Update.Message update = Some m ->
  Message.From m = Some from -> Message.Chat m = Some chat ->
  userState b !! User.ID from = Some st ->
  AwaitingUsername st = true -> PressedButton st = button k ->
  Runs (handleUpdateBody b update) (deleteUserState b (Chat.ID chat))
    (replyTo (Chat.ID chat) (fetchText (fetcher b) k (Message.Text m))
       ++ [startMenu (Chat.ID chat)])
    [fetchCall k (Message.Text m)].
Proof.
  intros Hcb Hm Hfrom Hchat Hst Haw Hbtn.
  unfold handleUpdateBody. rewrite Hcb, Hm, Hfrom. cbn [deref].
  rewrite bind_ret_l. unfold isAwaitingUsername. rewrite Hst, Haw.
  unfold handleUserInput. rewrite Hm. cbn [deref]. rewrite bind_ret_l.
  rewrite Hfrom. cbn [deref]. rewrite bind_ret_l.
  rewrite Hchat. cbn [deref]. rewrite bind_ret_l.
  rewrite Hst. cbn [default id]. rewrite Hbtn, processRequest_button.
  pose proof (Runs_sendStartKeyboard (deleteUserState b (Chat.ID chat))
                update m chat Hm Hchat) as R2.
  replace (fetcher (deleteUserState b (Chat.ID chat))) with (fetcher b)
    by reflexivity.
  destruct (fetchText (fetcher b) k (Message.Text m)) as [response|err];
    cbn [replyTo].
  - eapply Runs_eq.
    + eapply Runs_bind.
      { eapply Runs_bind; [apply Runs_emit|apply Runs_ret]. }
      cbv beta iota.
      eapply Runs_bind; [apply Runs_sendParts|].
      eapply Runs_bind; [exact R2|apply Runs_ret].
    + rewrite !app_nil_r. destruct k; reflexivity.
    + rewrite !app_nil_r. destruct k; reflexivity.
  - eapply Runs_eq.
    + eapply Runs_bind.
      { eapply Runs_bind; [apply Runs_emit|apply Runs_ret]. }
      cbv beta iota.
      eapply Runs_bind; [apply Runs_sendError|].
      eapply Runs_bind; [exact R2|apply Runs_ret].
    + rewrite !app_nil_r. destruct k; cbn; rewrite <- ?app_assoc; reflexivity.
    + rewrite !app_nil_r. destruct k; reflexivity.
Qed.

(** X11: a message from a sender with a pending session for one of the
    four buttons is taken as the user name, whether or not it is a
    command: exactly one fetch call of the kind of the button is made
    with the text of the message (not trimmed), the answer (the chunks of
    the formatted list as HTML messages, or [Failed to fetch data:
    <err>.]) and then the menu are sent to the chat of the message, and
    the session of that chat is deleted; this holds whatever the calls of
    the bot API return. *)
Theorem pending_input_handled (b : Bot) (k : fetcher.Kind)
    (update : Update.t) (m : Message.t) (from : User.t) (chat : Chat.t)
    (st : UserState) (w : list Event) :
  Update.CallbackQuery update = None ->
  Update.Message update = Some m ->
  Message.From m = Some from -> Message.Chat m = Some chat ->
  userState b !! User.ID from = Some st ->
  AwaitingUsername st = true -> PressedButton st = button k ->
  exists w',
    handleUpdate b update w = (Continue (deleteUserState b (Chat.ID chat)), w')
    /\ fetched w' = fetched w ++ [fetchCall k (Message.Text m)]
    /\ sent w' = sent w
         ++ replyTo (Chat.ID chat) (fetchText (fetcher b) k (Message.Text m))
         ++ [startMenu (Chat.ID chat)].
Proof.
  intros Hcb Hm Hfrom Hchat Hst Haw Hbtn.
  destruct (handleUpdate_Runs _ _ _ _ _
              (Runs_pending_input b k update m from chat st
                 Hcb Hm Hfrom Hchat Hst Haw Hbtn) w) as (w' & E & S & F).
  by exists w'.
Qed.

(** X12: a button press under a message of a chat is answered to
    Telegram with the payload as the callback text, records for that chat
    a pending session with the payload (whatever it is, known or not) as
    the pressed button, leaves the sessions of all other chats as they
    are, asks [Enter the channel name:] in that chat and makes no fetch
    call. *)
Theorem button_press_recorded (b : Bot) (update : Update.t)
    (callback : CallbackQuery.t) (m : Message.t) (chat : Chat.t)
    (w : list Event) :
  Update.CallbackQuery update = Some callback ->
  CallbackQuery.Message callback = Some m -> Message.Chat m = Some chat ->
  exists b' w',
    handleUpdate b update w = (Continue b', w')
    /\ userState b' !! Chat.ID chat
       = Some {| AwaitingUsername := true;
                 PressedButton := CallbackQuery.Data callback |}
    /\ (forall c, c <> Chat.ID chat -> userState b' !! c = userState b !! c)
    /\ EvRequest (NewCallback (CallbackQuery.ID callback)
                    (CallbackQuery.Data callback)) ∈ w'
    /\ sent w' = sent w
         ++ [NewMessage (Chat.ID chat) (str "Enter the channel name:")]
    /\ fetched w' = fetched w.
Proof.
  intros Hcb Hm Hchat.
  exists (setUserState b (Chat.ID chat)
            {| AwaitingUsername := true;
               PressedButton := CallbackQuery.Data callback |}).
  unfold handleUpdate, handleUpdateBody, handleCallback. rewrite Hcb, Hm.
  unfold bind, apiRequest, apiSend, emit, ret, logPrintf, deref.
  destruct (Request (api b) _); cbn; rewrite Hchat; cbn;
    (eexists; split; [reflexivity|]);
    (split; [apply lookup_insert_eq|]);
    (split; [by intros c Hc; apply lookup_insert_ne|]);
    (split; [set_solver|]);
    rewrite !sent_app, !fetched_app; cbn; rewrite ?app_nil_r;
    split; reflexivity.
Qed.

Lemma button_press_recorded_witness :
  exists b' w',
    handleUpdate pendingBot (buttonPress (str "cb") 100 7 (str "mods")) []
      = (Continue b', w')
    /\ userState b' !! 7
       = Some {| AwaitingUsername := true; PressedButton := str "mods" |}
    /\ (forall c, c <> 7 -> userState b' !! c = userState pendingBot !! c)
    /\ EvRequest (NewCallback (str "cb") (str "mods")) ∈ w'
    /\ sent w' = [NewMessage 7 (str "Enter the channel name:")]
    /\ fetched w' = [].
Proof.
  exact (button_press_recorded pendingBot
           (buttonPress (str "cb") 100 7 (str "mods")) _ _ {| Chat.ID := 7 |} []
           eq_refl eq_refl eq_refl).
Defined.

(** X13: an update without callback query and without message changes
    nothing and sends nothing; a message that is no command from a sender
    without pending session is answered with the menu alone: no fetch
    call, and the bot state stays as it is. *)
Theorem idle_update_keeps_sessions (b : Bot) (update : Update.t)
    (w : list Event) :
  Update.CallbackQuery update = None ->
  (Update.Message update = None ->
     handleUpdate b update w = (Continue b, w))
  /\ (forall (m : Message.t) (from : User.t) (chat : Chat.t),
        Update.Message update = Some m ->
        Message.From m = Some from -> Message.Chat m = Some chat ->
        isAwaitingUsername b (User.ID from) = false ->
        Message.IsCommand m = false ->
        exists w',
          handleUpdate b update w = (Continue b, w')
          /\ sent w' = sent w ++ [startMenu (Chat.ID chat)]
          /\ fetched w' = fetched w).
Proof.
  intros Hcb. split.
  - intros Hm. unfold handleUpdate, handleUpdateBody. by rewrite Hcb, Hm.
  - intros m from chat Hm Hfrom Hchat Haw Hcmd.
    assert (Runs (handleUpdateBody b update) b
              ([startMenu (Chat.ID chat)] ++ []) ([] ++ [])) as R.
    { unfold handleUpdateBody. rewrite Hcb, Hm, Hfrom. cbn [deref].
      rewrite bind_ret_l, Haw, Hcmd.
      eapply Runs_bind; [|apply Runs_ret].
      exact (Runs_sendStartKeyboard b update m chat Hm Hchat). }
    destruct (handleUpdate_Runs _ _ _ _ _ R w) as (w' & E & S & F).
    exists w'. rewrite E, S, F, !app_nil_r. done.
Qed.

Lemma idle_update_keeps_sessions_witness :
  handleUpdate pendingBot
    {| Update.Message := None; Update.CallbackQuery := None |} []
  = (Continue pendingBot, [])
  /\ exists w',
       handleUpdate pendingBot (textMessage 8 8 (str "hello")) []
         = (Continue pendingBot, w')
       /\ sent w' = [startMenu 8] /\ fetched w' = [].
Proof.
  split.
  - exact (proj1 (idle_update_keeps_sessions pendingBot
                    {| Update.Message := None; Update.CallbackQuery := None |}
                    [] eq_refl) eq_refl).
  - exact (proj2 (idle_update_keeps_sessions pendingBot
                    (textMessage 8 8 (str "hello")) [] eq_refl)
             _ {| User.ID := 8 |} {| Chat.ID := 8 |}
             eq_refl eq_refl eq_refl eq_refl eq_refl).
Defined.

Lemma Runs_view_start (a : BotAPI) (update : Update.t) m chat
    (prefix : gostring) :
  Update.Message update = Some m -> Message.Chat m = Some chat ->
  Runs (bind (ViewCmdStart a update)
          (fun err => match err with
                      | Some err => logPrintf (prefix ++ err)
                      | None => ret tt
                      end)) tt [startMenu (Chat.ID chat)] [].
Proof.
  intros Hm Hc w.
  unfold ViewCmdStart, bind, deref, apiSend, emit, ret, logPrintf.
  rewrite Hm. cbn. rewrite Hc. cbn.
  match goal with |- context [Send ?a ?m] => destruct (Send a m) end;
    eexists; (split; [reflexivity|]); rewrite ?sent_app, ?fetched_app; cbn;
    rewrite ?app_nil_r, <- ?app_assoc; done.
Qed.

(** X14: with [start] as the only registered command (as [main] sets
    the bot up), a command message from a sender without pending session
    is answered with the menu when the command is [start], and with
    [Unknown command.] followed by the menu otherwise; no fetch call is
    made and the bot state stays as it is. *)
Theorem command_dispatch (b : Bot) (update : Update.t) (m : Message.t)
    (from : User.t) (chat : Chat.t) (cmd : gostring) (w : list Event) :
  cmdViewMap b = {[ str "start" := ViewCmdStart ]} ->
  Update.CallbackQuery update = None ->
  Update.Message update = Some m ->
  Message.From m = Some from -> Message.Chat m = Some chat ->
  isAwaitingUsername b (User.ID from) = false ->
  Message.IsCommand m = true -> Command m = ret cmd ->
  exists w',
    handleUpdate b update w = (Continue b, w')
    /\ sent w' = sent w
         ++ (if decide (cmd = str "start") then []
             else [NewMessage (Chat.ID chat) (str "Unknown command.")])
         ++ [startMenu (Chat.ID chat)]
    /\ fetched w' = fetched w.
Proof.
  intros Hreg Hcb Hm Hfrom Hchat Haw Hcmd HC.
  cut (Runs (handleUpdateBody b update) b
         ((if decide (cmd = str "start") then []
           else [NewMessage (Chat.ID chat) (str "Unknown command.")])
            ++ [startMenu (Chat.ID chat)]) []).
  { intros R. destruct (handleUpdate_Runs _ _ _ _ _ R w) as (w' & E & S & F).
    exists w'. by rewrite E, S, F, app_nil_r. }
  unfold handleUpdateBody. rewrite Hcb, Hm, Hfrom. cbn [deref].
  rewrite bind_ret_l, Haw, Hcmd. unfold handleCommand.
  rewrite Hm. cbn [deref]. rewrite bind_ret_l, HC, bind_ret_l, Hreg.
  destruct (decide (cmd = str "start")) as [->|Hne].
  - rewrite lookup_singleton_eq.
    eapply Runs_eq.
    + eapply Runs_bind; [|apply Runs_ret].
      exact (Runs_view_start (api b) update m chat _ Hm Hchat).
    + reflexivity.
    + reflexivity.
  - rewrite lookup_singleton_ne by done. rewrite Hchat. cbn [deref].
    rewrite bind_ret_l.
    eapply Runs_eq.
    + eapply Runs_bind; [|apply Runs_ret].
      eapply Runs_bind; [apply Runs_apiSend|].
      exact (Runs_sendStartKeyboard b update m chat Hm Hchat).
    + reflexivity.
    + reflexivity.
Qed.

Lemma Post_ret {A} (a : A) (P : A -> Prop) : P a -> Post (ret a) P.
Proof. intros H w r w' [= <- _]. exact H. Qed.

Lemma Post_panic {A} (v : gostring) (P : A -> Prop) : Post (panic v) P.
Proof. intros w r w' [=]. Qed.

Lemma Post_bind {A B} (c : M A) (k : A -> M B) (P : B -> Prop) :
  (forall a, Post (k a) P) -> Post (bind c k) P.
Proof.
  intros Hk w r w'. unfold bind. destruct (c w) as [[a|v] w1]; [|done].
  apply Hk.
Qed.

Lemma sameBut_refl c b : sameBut c b b.
Proof. repeat split. Qed.

Lemma sameBut_set chat st b :
  sameBut (Some chat) b (setUserState b chat st).
Proof.
  repeat split. intros c' Hc. cbn [setUserState userState].
  apply lookup_insert_ne. congruence.
Qed.

Lemma sameBut_delete chat b : sameBut (Some chat) b (deleteUserState b chat).
Proof.
  repeat split. intros c' Hc. cbn [deleteUserState userState].
  apply lookup_delete_ne. congruence.
Qed.

Lemma bind_panic_l {A B} (v : gostring) (k : A -> M B) :
  bind (panic v) k = panic v.
Proof. reflexivity. Qed.

Lemma Post_handleUserInput (b : Bot) (update : Update.t) :
  Update.CallbackQuery update = None ->
  Post (handleUserInput b update) (sameBut (updateChat update) b).
Proof.
  intros Hcb. unfold handleUserInput, updateChat. rewrite Hcb.
  destruct (Update.Message update) as [m|]; cbn [deref];
    [|rewrite bind_panic_l; apply Post_panic].
  rewrite bind_ret_l.
  destruct (Message.From m) as [from|]; cbn [deref];
    [|rewrite bind_panic_l; apply Post_panic].
  rewrite bind_ret_l.
  destruct (Message.Chat m) as [chat|]; cbn [deref option_map];
    [|rewrite bind_panic_l; apply Post_panic].
  rewrite bind_ret_l. apply Post_bind. intros [response [err|]];
    apply Post_bind; intros _; apply Post_bind; intros _;
    apply Post_ret, sameBut_delete.
Qed.

Lemma Post_handleUpdateBody (b : Bot) (update : Update.t) :
  Post (handleUpdateBody b update) (sameBut (updateChat update) b).
Proof.
  unfold handleUpdateBody.
  destruct (Update.CallbackQuery update) as [callback|] eqn:Hcb.
  - unfold handleCallback, updateChat. rewrite Hcb.
    apply Post_bind; intros err. apply Post_bind; intros _.
    destruct (CallbackQuery.Message callback) as [m|]; cbn [deref];
      [|rewrite bind_panic_l; apply Post_panic].
    rewrite bind_ret_l.
    destruct (Message.Chat m) as [chat|]; cbn [deref option_map];
      [|rewrite bind_panic_l; apply Post_panic].
    rewrite bind_ret_l. apply Post_bind; intros _. apply Post_ret.
    apply sameBut_set.
  - destruct (Update.Message update) as [m|] eqn:Hm;
      [|apply Post_ret, sameBut_refl].
    destruct (Message.From m) as [from|]; cbn [deref];
      [|rewrite bind_panic_l; apply Post_panic].
    rewrite bind_ret_l.
    destruct (isAwaitingUsername b (User.ID from)).
    + by apply Post_handleUserInput.
    + destruct (Message.IsCommand m);
        apply Post_bind; intros _; apply Post_ret, sameBut_refl.
Qed.

Lemma handleUpdate_sameBut (b b' : Bot) (update : Update.t)
    (w w' : list Event) :
  handleUpdate b update w = (Continue b', w') ->
  sameBut (updateChat update) b b'.
Proof.
  unfold handleUpdate.
  destruct (handleUpdateBody b update w) as [[r|v] w1] eqn:E; [|done].
  intros [= <- <-]. exact (Post_handleUpdateBody b update w r w1 E).
Qed.

(** X15: handling an update never touches the API, the registered
    commands, the fetcher, or the session of any chat other than the chat
    of the update (the chat of the message under the pressed button, or
    the chat of the message). *)
Theorem sessions_of_other_chats_kept (b b' : Bot) (update : Update.t)
    (w w' : list Event) :
  handleUpdate b update w = (Continue b', w') ->
  api b' = api b /\ cmdViewMap b' = cmdViewMap b /\ fetcher b' = fetcher b
  /\ forall c, updateChat update <> Some c ->
       userState b' !! c = userState b !! c.
Proof. apply handleUpdate_sameBut. Qed.

(** X16: the same over a run of [Start]: when [Start] returns, its
    error is [bot.Start: context done], and the API, the registered
    commands, the fetcher and the sessions of all chats that no update of
    the run belongs to are as before the run. *)
Theorem run_keeps_registry (b b' : Bot) (updates : list Update.t)
    (err : gostring) (w w' : list Event) :
  Start b updates w = (Returned b' err, w') ->
  err = str "bot.Start: context done"
  /\ api b' = api b /\ cmdViewMap b' = cmdViewMap b /\ fetcher b' = fetcher b
  /\ forall c, (forall update, update ∈ updates -> updateChat update <> Some c) ->
       userState b' !! c = userState b !! c.
Proof.
  revert b w. induction updates as [|update updates IH]; intros b w; cbn [Start].
  - intros [= <- <- <-]. done.
  - destruct (handleUpdate b update w) as [[b1|status] w1] eqn:E; [|done].
    intros H. apply IH in H as (He & Ha & Hr & Hf & Hs).
    apply handleUpdate_sameBut in E as (Ha1 & Hr1 & Hf1 & Hs1).
    split; [done|]. split; [congruence|]. split; [congruence|].
    split; [congruence|]. intros c Hc. rewrite Hs, Hs1; [done| |].
    + apply Hc. by left.
    + intros u Hu. apply Hc. by right.
Qed.

Lemma Runs_Returns {A} (c : M A) a sm f : Runs c a sm f -> Returns c.
Proof. intros R w. destruct (R w) as (w' & E & _). eauto. Qed.

Lemma Returns_ret {A} (a : A) : Returns (ret a).
Proof. intros w. by exists a, w. Qed.

Lemma Returns_bind {A B} (c : M A) (k : A -> M B) :
  Returns c -> (forall a, Returns (k a)) -> Returns (bind c k).
Proof.
  intros Hc Hk w. destruct (Hc w) as (a & w1 & E1).
  destruct (Hk a w1) as (r & w2 & E2). exists r, w2.
  unfold bind. by rewrite E1.
Qed.

Lemma Returns_processRequest (b : Bot) (username button : gostring) :
  Returns (processRequest b username button).
Proof.
  unfold processRequest.
  repeat (destruct (decide _) as [?|?];
          [apply Returns_bind;
           [apply (Runs_Returns _ _ _ _ (Runs_emit _))|];
           intros _;
           match goal with |- context [match ?r with Ok _ => _ | Err _ => _ end] =>
             destruct r end; apply Returns_ret|]).
  apply Returns_ret.
Qed.

Lemma Returns_handleUserInput (b : Bot) (update : Update.t) m from chat :
  Update.Message update = Some m ->
  Message.From m = Some from -> Message.Chat m = Some chat ->
  Returns (handleUserInput b update).
Proof.
  intros Hm Hfrom Hchat. unfold handleUserInput.
  rewrite Hm. cbn [deref]. rewrite bind_ret_l.
  rewrite Hfrom. cbn [deref]. rewrite bind_ret_l.
  rewrite Hchat. cbn [deref]. rewrite bind_ret_l.
  apply Returns_bind; [apply Returns_processRequest|].
  intros [response [err|]].
  - apply Returns_bind; [apply (Runs_Returns _ _ _ _ (Runs_sendError _ _ _ _))|].
    intros _. apply Returns_bind; [|intros _; apply Returns_ret].
    exact (Runs_Returns _ _ _ _ (Runs_sendStartKeyboard _ update m chat Hm Hchat)).
  - apply Returns_bind; [apply (Runs_Returns _ _ _ _ (Runs_sendParts _ _ _))|].
    intros _. apply Returns_bind; [|intros _; apply Returns_ret].
    exact (Runs_Returns _ _ _ _ (Runs_sendStartKeyboard _ update m chat Hm Hchat)).
Qed.

(** X17: a message with a sender and a chat never ends the process
    when the sender has a pending session or the message is no command:
    the handler returns and the bot goes on, whatever the fetcher and
    the bot API return. *)
Theorem message_handled_without_exit (b : Bot) (update : Update.t)
    (m : Message.t) (from : User.t) (chat : Chat.t) (w : list Event) :
  Update.CallbackQuery update = None ->
  Update.Message update = Some m ->
  Message.From m = Some from -> Message.Chat m = Some chat ->
  isAwaitingUsername b (User.ID from) = true \/ Message.IsCommand m = false ->
  exists b' w', handleUpdate b update w = (Continue b', w').
Proof.
  intros Hcb Hm Hfrom Hchat Hor.
  assert (Returns (handleUpdateBody b update)) as R.
  { unfold handleUpdateBody. rewrite Hcb, Hm, Hfrom. cbn [deref].
    rewrite bind_ret_l.
    destruct (isAwaitingUsername b (User.ID from)) eqn:Haw.
    - by eapply Returns_handleUserInput.
    - destruct Hor as [?|Hcmd]; [done|]. rewrite Hcmd.
      apply Returns_bind; [|intros _; apply Returns_ret].
      exact (Runs_Returns _ _ _ _ (Runs_sendStartKeyboard _ update m chat Hm Hchat)). }
  destruct (R w) as (b' & w' & E). exists b', w'.
  unfold handleUpdate. by rewrite E.
Qed.

Lemma message_handled_without_exit_witness :
  exists b' w',
    handleUpdate pendingBot (commandMessage 7 7 (str "/start") 6) []
    = (Continue b', w').
Proof.
  exact (message_handled_without_exit pendingBot
           (commandMessage 7 7 (str "/start") 6) _ {| User.ID := 7 |}
           {| Chat.ID := 7 |} [] eq_refl eq_refl eq_refl eq_refl
           (or_introl eq_refl)).
Defined.

Lemma pending_input_handled_witness :
  exists w',
    handleUpdate
      (setUserState (New silentAPI emptyFetcher) 7
         {| AwaitingUsername := true; PressedButton := str "moders" |})
      (commandMessage 7 7 (str "/start") 6) []
    = (Continue
         (deleteUserState
            (setUserState (New silentAPI emptyFetcher) 7
               {| AwaitingUsername := true; PressedButton := str "moders" |}) 7),
       w')
    /\ fetched w' = [EvFetchMods (str "/start")]
    /\ sent w' = replyTo 7 (Ok (formatter.FormatMods (str "/start") []))
                   ++ [startMenu 7].
Proof.
  exact (pending_input_handled
           (setUserState (New silentAPI emptyFetcher) 7
              {| AwaitingUsername := true; PressedButton := str "moders" |})
           fetcher.KMods (commandMessage 7 7 (str "/start") 6) _
           {| User.ID := 7 |} {| Chat.ID := 7 |} _ []
           eq_refl eq_refl eq_refl eq_refl eq_refl eq_refl eq_refl).
Defined.

Lemma command_dispatch_witness :
  (exists w',
     handleUpdate
       (RegisterCommand (New silentAPI emptyFetcher) (str "start") ViewCmdStart)
       (commandMessage 7 7 (str "/start@twitch_kit_bot now") 22) []
     = (Continue (RegisterCommand (New silentAPI emptyFetcher) (str "start")
                    ViewCmdStart), w')
     /\ sent w' = [startMenu 7] /\ fetched w' = [])
  /\ (exists w',
     handleUpdate
       (RegisterCommand (New silentAPI emptyFetcher) (str "start") ViewCmdStart)
       (commandMessage 7 7 (str "/help") 5) []
     = (Continue (RegisterCommand (New silentAPI emptyFetcher) (str "start")
                    ViewCmdStart), w')
     /\ sent w' = [NewMessage 7 (str "Unknown command."); startMenu 7]
     /\ fetched w' = []).
Proof.
  split.
  - exact (command_dispatch
             (RegisterCommand (New silentAPI emptyFetcher) (str "start") ViewCmdStart)
             (commandMessage 7 7 (str "/start@twitch_kit_bot now") 22) _
             {| User.ID := 7 |} {| Chat.ID := 7 |} (str "start") []
             eq_refl eq_refl eq_refl eq_refl eq_refl eq_refl eq_refl eq_refl).
  - exact (command_dispatch
             (RegisterCommand (New silentAPI emptyFetcher) (str "start") ViewCmdStart)
             (commandMessage 7 7 (str "/help") 5) _
             {| User.ID := 7 |} {| Chat.ID := 7 |} (str "help") []
             eq_refl eq_refl eq_refl eq_refl eq_refl eq_refl eq_refl eq_refl).
Defined.

Lemma sessions_of_other_chats_kept_witness :
  api (deleteUserState pendingBot 7) = api pendingBot
  /\ cmdViewMap (deleteUserState pendingBot 7) = cmdViewMap pendingBot
  /\ fetcher (deleteUserState pendingBot 7) = fetcher pendingBot
  /\ forall c, updateChat (textMessage 7 7 (str "alice")) <> Some c ->
       userState (deleteUserState pendingBot 7) !! c = userState pendingBot !! c.
Proof.
  apply (sessions_of_other_chats_kept pendingBot (deleteUserState pendingBot 7)
           (textMessage 7 7 (str "alice")) []
           [EvSend (NewMessage 7 (str "Failed to fetch data: unknown button: subs."));
            EvSend (startMenu 7)]).
  vm_compute. reflexivity.
Defined.

Lemma run_keeps_registry_witness :
  str "bot.Start: context done" = str "bot.Start: context done"
  /\ api pendingBot = api pendingBot
  /\ cmdViewMap pendingBot = cmdViewMap pendingBot
  /\ fetcher pendingBot = fetcher pendingBot
  /\ forall c,
       (forall update, update ∈ [textMessage 8 8 (str "hello")] ->
                       updateChat update <> Some c) ->
       userState pendingBot !! c = userState pendingBot !! c.
Proof.
  apply (run_keeps_registry pendingBot pendingBot [textMessage 8 8 (str "hello")]
           (str "bot.Start: context done") [] [EvSend (startMenu 8)]).
  vm_compute. reflexivity.
Defined.

End ControllerMore.

Section Pointers.
Import gostrings tgbotapi bot.

Lemma Panics_panic {A} (v : gostring) : Panics (panic (A := A) v).
Proof. intros w. by exists v, w. Qed.

Lemma Panics_bind_l {A B} (c : M A) (k : A -> M B) :
  Panics c -> Panics (bind c k).
Proof.
  intros Hc w. destruct (Hc w) as (p & w' & E). exists p, w'.
  unfold bind. by rewrite E.
Qed.

Lemma Panics_bind {A B} (c : M A) (k : A -> M B) :
  (forall a, Panics (k a)) -> Panics (bind c k).
Proof.
  intros Hk w. unfold bind. destruct (c w) as [[a|p] w1].
  - apply Hk.
  - by exists p, w1.
Qed.

Lemma Panics_ViewCmdStart (a : BotAPI) (update : Update.t) m :
  Update.Message update = Some m -> Message.Chat m = None ->
  Panics (ViewCmdStart a update).
Proof.
  intros Hm Hc. unfold ViewCmdStart. rewrite Hm. cbn [deref].
  rewrite bind_ret_l, Hc. cbn [deref]. apply Panics_bind_l, Panics_panic.
Qed.

Lemma Panics_sendStartKeyboard (b : Bot) (update : Update.t) m :
  Update.Message update = Some m -> Message.Chat m = None ->
  Panics (sendStartKeyboard b update).
Proof.
  intros Hm Hc. unfold sendStartKeyboard.
  apply Panics_bind_l. by eapply Panics_ViewCmdStart.
Qed.

Lemma Panics_handleUpdateBody (b : Bot) (update : Update.t) :
  cmdViewMap b = {[ str "start" := ViewCmdStart ]} ->
  ~ pointersSet update -> Panics (handleUpdateBody b update).
Proof.
  intros Hreg Hn. unfold pointersSet in Hn. unfold handleUpdateBody.
  destruct (Update.CallbackQuery update) as [callback|].
  - unfold handleCallback. apply Panics_bind; intros err.
    apply Panics_bind; intros _.
    destruct (CallbackQuery.Message callback) as [m|] eqn:Hm; cbn [deref];
      [|apply Panics_bind_l, Panics_panic].
    rewrite bind_ret_l.
    destruct (Message.Chat m) as [chat|] eqn:Hc; cbn [deref];
      [|apply Panics_bind_l, Panics_panic].
    exfalso. apply Hn. eauto.
  - destruct (Update.Message update) as [m|] eqn:Hm; [|done].
    destruct (Message.From m) as [from|] eqn:Hf; cbn [deref];
      [|apply Panics_bind_l, Panics_panic].
    rewrite bind_ret_l.
    destruct (Message.Chat m) as [chat|] eqn:Hc; [exfalso; apply Hn; eauto|].
    destruct (isAwaitingUsername b (User.ID from)).
    + unfold handleUserInput. rewrite Hm. cbn [deref]. rewrite bind_ret_l.
      rewrite Hf. cbn [deref]. rewrite bind_ret_l, Hc. cbn [deref].
      apply Panics_bind_l, Panics_panic.
    + destruct (Message.IsCommand m).
      * apply Panics_bind_l. unfold handleCommand. rewrite Hm. cbn [deref].
        rewrite bind_ret_l. apply Panics_bind; intros cmd. rewrite Hreg.
        destruct (decide (cmd = str "start")) as [->|Hne].
        -- rewrite lookup_singleton_eq. apply Panics_bind_l.
           by eapply Panics_ViewCmdStart.
        -- rewrite lookup_singleton_ne by done. rewrite Hc. cbn [deref].
           apply Panics_bind_l, Panics_panic.
      * apply Panics_bind_l. by eapply Panics_sendStartKeyboard.
Qed.

(** X18: with [start] as the only registered command, an update for
    which a pointer that the handler follows is not set (a button press
    without its message or without the chat of that message, a message
    without sender or without chat) ends the process with status 1; the
    updates after it are not handled. *)
Theorem nil_pointer_ends_process (b : Bot) (update : Update.t)
    (rest : list Update.t) (w : list Event) :
  cmdViewMap b = {[ str "start" := ViewCmdStart ]} ->
  ~ pointersSet update ->
  exists w',
    handleUpdate b update w = (Exit 1, w')
    /\ Start b (update :: rest) w = (Exited 1, w').
Proof.
  intros Hreg Hn.
  destruct (Panics_handleUpdateBody b update Hreg Hn w) as (p & w1 & E).
  exists (w1 ++ [EvLog (str "panic recovered: " ++ p)]).
  cbn [Start]. unfold handleUpdate. rewrite E. done.
Qed.

Lemma nil_pointer_ends_process_witness :
  exists w',
    handleUpdate
      (RegisterCommand (New silentAPI emptyFetcher) (str "start") ViewCmdStart)
      {| Update.Message := Some
           {| Message.From := None; Message.Chat := Some {| Chat.ID := 7 |};
              Message.Text := str "hello"; Message.Entities := [] |};
         Update.CallbackQuery := None |} []
    = (Exit 1, w')
    /\ Start
         (RegisterCommand (New silentAPI emptyFetcher) (str "start") ViewCmdStart)
         [ {| Update.Message := Some
                {| Message.From := None; Message.Chat := Some {| Chat.ID := 7 |};
                   Message.Text := str "hello"; Message.Entities := [] |};
              Update.CallbackQuery := None |};
           textMessage 7 7 (str "hello") ] []
       = (Exited 1, w').
Proof.
  apply (nil_pointer_ends_process
           (RegisterCommand (New silentAPI emptyFetcher) (str "start")
              ViewCmdStart) _ [textMessage 7 7 (str "hello")] [] eq_refl).
  intros (from & chat & Hf & _). discriminate.
Defined.

End Pointers.

(* ================================================================== *)
(** ** The program as a whole *)

Section Pipeline.
Import gostrings http utils formatter tgbotapi bot main.
Context `{!JSONArray Follow.t, !JSONArray Mod.t, !JSONArray Vip.t,
          !JSONArray Founders.t}.

Lemma fetchText_records (f : fetcher.Fetcher) (r : fetcher.Records)
    (username : gostring) (resp : Response) :
  fetcher.answers f (fetcher.endpoint (fetcher.kindOf r) ++ username) resp ->
  StatusCode resp = StatusOK -> fetcher.decodes (Body resp) r ->
  fetchText (asBotFetcher f) (fetcher.kindOf r) username
  = Ok (formatText username r).
Proof.
  intros (req & Hreq & Hdo) Hst Hdec.
  destruct r as [rs|rs|rs|rs];
    cbn [fetcher.kindOf fetchText asBotFetcher FetchFollows FetchMods FetchVips
         FetchFounders formatText fetcher.decodes fetcher.endpoint] in *;
    [unfold fetcher.FetchFollows|unfold fetcher.FetchMods
    |unfold fetcher.FetchVips|unfold fetcher.FetchFounders];
    cbv zeta; rewrite Hreq, Hdo, Hst, Hdec; reflexivity.
Qed.

(** X19: the fetcher, the formatter, the chunker and the controller
    together. The bot uses the HTTP fetcher; the sender has a pending
    session for the button of a kind; the server answers 200 and the body
    decodes to records of that kind; the user name, the logins and the
    display names have no line feed; and the header and the record lines,
    joined by line feeds, fit in the message limit of 4096 bytes. Then
    the user receives exactly one HTML message, that join (the formatted
    answer without its last line feed), followed by the menu; one fetch
    call is made and the session of the chat is deleted. *)
Theorem records_answered_in_one_message (b : Bot) (f : fetcher.Fetcher)
    (r : fetcher.Records) (update : Update.t) (m : Message.t) (from : User.t)
    (chat : Chat.t) (st : UserState) (resp : Response) (w : list Event) :
  fetcher b = asBotFetcher f ->
  Update.CallbackQuery update = None ->
  Update.Message update = Some m ->
  Message.From m = Some from -> Message.Chat m = Some chat ->
  userState b !! User.ID from = Some st ->
  AwaitingUsername st = true -> PressedButton st = button (fetcher.kindOf r) ->
  fetcher.answers f (fetcher.endpoint (fetcher.kindOf r) ++ Message.Text m) resp ->
  StatusCode resp = StatusOK -> fetcher.decodes (Body resp) r ->
  noNL (Message.Text m) -> plainNames r ->
  len (Join (answerLines (Message.Text m) r)) <= telegramMessageLimit ->
  exists w',
    handleUpdate b update w = (Continue (deleteUserState b (Chat.ID chat)), w')
    /\ fetched w' = fetched w ++ [fetchCall (fetcher.kindOf r) (Message.Text m)]
    /\ sent w' = sent w
         ++ [htmlMessage (Chat.ID chat) (Join (answerLines (Message.Text m) r));
             startMenu (Chat.ID chat)].
Proof.
  intros Hf Hcb Hm Hfrom Hchat Hst Haw Hbtn Hans Hcode Hdec Hu Hrs Hfit.
  destruct (handleUpdate_Runs _ _ _ _ _
              (Runs_pending_input b (fetcher.kindOf r) update m from chat st
                 Hcb Hm Hfrom Hchat Hst Haw Hbtn) w) as (w' & E & S & F).
  exists w'. split; [exact E|]. split; [exact F|]. rewrite S. f_equal.
  rewrite Hf, (fetchText_records f r _ resp Hans Hcode Hdec). cbn [replyTo].
  assert (len (Join (answerLines (Message.Text m) r)) <= maxInt) as Hmax.
  { unfold telegramMessageLimit in Hfit. unfold maxInt. lia. }
  destruct (formatText_lines (Message.Text m) r Hu Hrs (or_intror Hmax))
    as [Et Hc].
  assert (answerLines (Message.Text m) r <> []) as Hne by (by destruct r).
  assert (trimmedLines (formatText (Message.Text m) r)
          = answerLines (Message.Text m) r) as El.
  { rewrite Et. by apply trimmedLines_lines. }
  rewrite SplitMessage_fits.
  - rewrite El. reflexivity.
  - rewrite Et, len_lines. rewrite len_Join in Hmax, Hfit by done.
    unfold telegramMessageLimit in Hfit. unfold maxInt in *. lia.
  - by rewrite El.
  - by rewrite El.
Qed.

End Pipeline.

Section PipelineExample.
Import gostrings http utils formatter tgbotapi bot main.
#[local] Existing Instance fetcher.exampleFollowsJSON.
#[local] Existing Instance fetcher.exampleModsJSON.
#[local] Existing Instance fetcher.exampleVipsJSON.
#[local] Existing Instance fetcher.exampleFoundersJSON.

Lemma records_answered_in_one_message_witness :
  exists w',
    handleUpdate
      (setUserState
         (New silentAPI (asBotFetcher (fetcher.serverAnswering 200 (str "[...]"))))
         7 {| AwaitingUsername := true; PressedButton := str "vips" |})
      (textMessage 7 7 (str "bob")) []
    = (Continue
         (deleteUserState
            (setUserState
               (New silentAPI
                  (asBotFetcher (fetcher.serverAnswering 200 (str "[...]"))))
               7 {| AwaitingUsername := true; PressedButton := str "vips" |}) 7),
       w')
    /\ fetched w' = [EvFetchVips (str "bob")]
    /\ sent w' = [htmlMessage 7 (Join (answerLines (str "bob") fetcher.example_vips));
                  startMenu 7].
Proof.
  exact (records_answered_in_one_message
           (setUserState
              (New silentAPI
                 (asBotFetcher (fetcher.serverAnswering 200 (str "[...]"))))
              7 {| AwaitingUsername := true; PressedButton := str "vips" |})
           (fetcher.serverAnswering 200 (str "[...]"))
           fetcher.example_vips (textMessage 7 7 (str "bob"))
           {| Message.From := Some {| User.ID := 7 |};
              Message.Chat := Some {| Chat.ID := 7 |};
              Message.Text := str "bob"; Message.Entities := [] |}
           {| User.ID := 7 |} {| Chat.ID := 7 |}
           {| AwaitingUsername := true; PressedButton := str "vips" |}
           {| StatusCode := 200; Body := str "[...]" |} []
           eq_refl eq_refl eq_refl eq_refl eq_refl eq_refl eq_refl eq_refl
           (ex_intro _ _ (conj eq_refl eq_refl)) eq_refl eq_refl
           ltac:(by repeat constructor) ltac:(repeat constructor)
           ltac:(vm_compute; discriminate)).
Defined.

End PipelineExample.

Section Program.
Import gostrings http tgbotapi bot main.
Context `{!JSONArray Follow.t, !JSONArray Mod.t, !JSONArray Vip.t,
          !JSONArray Founders.t}.

Lemma fetchText_not_found (client : http.Client) (k : fetcher.Kind)
    (username req : gostring) (resp : Response) :
  NewRequestWithContext client (fetcher.endpoint k ++ username) = Ok req ->
  Do client req = Ok resp -> StatusCode resp = StatusNotFound ->
  fetchText (asBotFetcher (fetcher.NewFetcher client)) k username
  = Err (str "user not found").
Proof.
  intros Hreq Hdo Hst.
  destruct k; cbn [fetchText asBotFetcher FetchFollows FetchMods FetchVips
                   FetchFounders];
    [unfold fetcher.FetchFollows|unfold fetcher.FetchMods
    |unfold fetcher.FetchVips|unfold fetcher.FetchFounders];
    cbn [fetcher.endpoint fetcher.NewFetcher fetcher.client] in *;
    cbv zeta; rewrite Hreq, Hdo, Hst; reflexivity.
Qed.

(** X20: the program from [main] on. With a configuration that loads
    and a token that Telegram accepts, a button press in a private chat
    followed by a user name for which the server answers 404 gives:
    [Enter the channel name:], one fetch call of the kind of the button
    with that name, [Failed to fetch data: user not found.] and the menu;
    when the process is told to stop, [main] logs [failed to start bot:
    bot.Start: context done] and returns (exit status 0). *)
Theorem main_reports_unknown_user (p : config.Process) (cfg : config.Config)
    (NewBotAPI : gostring -> Result BotAPI) (botAPI : BotAPI)
    (client : http.Client) (k : fetcher.Kind) (id : gostring)
    (botUser chat : Z) (username req : gostring) (resp : Response) :
  config.Load p = Ok cfg ->
  NewBotAPI (config.TelegramToken cfg) = Ok botAPI ->
  NewRequestWithContext client (fetcher.endpoint k ++ username) = Ok req ->
  Do client req = Ok resp -> StatusCode resp = StatusNotFound ->
  exists w,
    main.main p NewBotAPI client
      [buttonPress id botUser chat (button k); textMessage chat chat username]
    = (0, w ++ [EvLog (str "failed to start bot: bot.Start: context done")])
    /\ sent w = [NewMessage chat (str "Enter the channel name:");
                 NewMessage chat (str "Failed to fetch data: user not found.");
                 startMenu chat]
    /\ fetched w = [fetchCall k username].
Proof.
  intros Hload Hapi Hreq Hdo Hst. unfold main.main. rewrite Hload, Hapi.
  cbn [Start].
  destruct (handleUpdate_Runs _ _ _ _ _
              (Runs_handleCallback (mainBot botAPI client) id (button k)
                 botUser chat) []) as (w1 & E1 & S1 & F1).
  rewrite E1.
  set (b1 := setUserState _ _ _) in *.
  destruct (handleUpdate_Runs _ _ _ _ _
              (Runs_pending_input b1 k (textMessage chat chat username) _
                 {| User.ID := chat |} {| Chat.ID := chat |}
                 {| AwaitingUsername := true; PressedButton := button k |}
                 eq_refl eq_refl eq_refl eq_refl
                 (lookup_insert_eq _ _ _) eq_refl eq_refl) w1)
    as (w2 & E2 & S2 & F2).
  rewrite E2. exists w2. split; [reflexivity|].
  rewrite S2, F2, S1, F1. cbn [Chat.ID Message.Text textMessage Update.Message].
  replace (fetcher b1) with (asBotFetcher (fetcher.NewFetcher client)) by reflexivity.
  rewrite (fetchText_not_found client k username req resp Hreq Hdo Hst).
  split; reflexivity.
Qed.

End Program.

Section ProgramExample.
Import gostrings http tgbotapi bot main.
#[local] Existing Instance fetcher.rejectJSON.

Lemma main_reports_unknown_user_witness :
  exists w,
    main.main config.processWithFile (fun _ => Ok silentAPI)
      (fetcher.client (fetcher.serverAnswering 404 []))
      [buttonPress (str "cb") 100 7 (str "moders");
       textMessage 7 7 (str "alice")]
    = (0, w ++ [EvLog (str "failed to start bot: bot.Start: context done")])
    /\ sent w = [NewMessage 7 (str "Enter the channel name:");
                 NewMessage 7 (str "Failed to fetch data: user not found.");
                 startMenu 7]
    /\ fetched w = [EvFetchMods (str "alice")].
Proof.
  exact (main_reports_unknown_user config.processWithFile
           {| config.TelegramToken := str "123456:ABC-DEF" |}
           (fun _ => Ok silentAPI) silentAPI
           (fetcher.client (fetcher.serverAnswering 404 []))
           fetcher.KMods (str "cb") 100 7 (str "alice") _
           {| StatusCode := 404; Body := [] |}
           eq_refl eq_refl eq_refl eq_refl eq_refl).
Defined.

End ProgramExample.
